(** * Verification of the model provisioning orchestrator

    A shallow embedding of [scripts/provision]: the result model of
    [models.py], the token probes of [validators/tokens.py], the three
    download adapters of [downloaders/] and the orchestrator of [core.py].

    Python objects are records and inductive types; [async def] bodies are
    computations in a state-and-exception monad over a [World] holding the
    file system, the scripted replies of the network, and a trace of the
    observable events: requests, directories made, files opened for writing
    or removed, and the records logged as warnings or errors.  The coroutines
    that wait on the orchestrator's semaphore, and their callers, may never
    return; they have the type [Awaitable].

    Conventions of the model:
    - the file system is the set of existing directories and the contents of
      the existing files, by path; parent directories and permissions are not
      tracked, and [pathlib] does not normalise the paths it joins;
    - a request is recorded with its method and URL; its headers (and with
      them the tokens and the [auth_header] template) are not part of the
      model, and neither is what the logging handlers write to the console
      and to the log file the constructor opens;
    - records logged with [logger.info] are left out: they never change the
      control flow;
    - every exception of the model derives from [Exception]; cancellation is
      not modelled;
    - the float of [models.py] is a binary64 number with the rounding of
      IEEE 754; the clock readings and the quotients of [utils/progress.py]
      are rationals. *)

From Stdlib Require Import String Ascii List ZArith QArith Lia Bool DecimalString DecimalNat.
From Stdlib Require Import SpecFloat Qabs Qpower.
From stdpp Require Import base gmap strings list relations.

Import ListNotations.
Local Open Scope list_scope.
Local Open Scope string_scope.

(** ** Python exceptions and results *)

(** The exception classes the code can meet; all of them derive from
    [Exception], so every [except Exception] handler catches them. *)
Inductive ExnClass :=
| TypeError | ValueError | AttributeError | IndexError | IsADirectoryError
| ConfigurationError | ProvisioningError | ClientError | TimeoutError
| JSONDecodeError | HubError | RecursionError | FileNotFoundError
| FileExistsError | KeyError | ValidationError | GenericException
| ZeroDivisionError | OverflowError.

Record exn := mkExn { exn_class : ExnClass; exn_msg : string }.

(** [str(e)] *)
Definition str_exn (e : exn) : string := exn_msg e.

Inductive Res (A : Type) :=
| Ok (a : A)
| Raise (e : exn).
Arguments Ok {A} a.
Arguments Raise {A} e.

(** Truthiness of an optional string: [None] and the empty string are falsy. *)
Definition truthy (s : option string) : bool :=
  match s with
  | Some EmptyString => false
  | Some _ => true
  | None => false
  end.

(** [s or str()] *)
Definition or_empty (s : option string) : string :=
  match s with
  | Some v => v
  | None => EmptyString
  end.

(** [not s] for a string *)
Definition is_empty (s : string) : bool :=
  match s with
  | EmptyString => true
  | _ => false
  end.

(** [f"{i}"] for a non-negative integer *)
Definition str_nat (i : nat) : string := NilEmpty.string_of_uint (Nat.to_uint i).

(** [needle in hay] on strings *)
Fixpoint contains (needle hay : string) : bool :=
  String.prefix needle hay ||
  match hay with
  | EmptyString => false
  | String _ rest => contains needle rest
  end.

(** ** JSON values, as [response.json()] returns them *)

#[local] Unset Elimination Schemes.
Inductive JVal :=
| JNull
| JBool (b : bool)
| JNum (n : Z)
| JStr (s : string)
| JArr (l : list JVal)
| JObj (m : list (string * JVal)).
#[local] Set Elimination Schemes.

(** [m.get(k)] on the items of a dict *)
Fixpoint assoc_get {A : Type} (k : string) (m : list (string * A)) : option A :=
  match m with
  | [] => None
  | (k', v) :: rest => if String.eqb k k' then Some v else assoc_get k rest
  end.

(** [v.get(k, default)]: only a dict has the method. *)
Definition jget (v : JVal) (k : string) (default : JVal) : Res JVal :=
  match v with
  | JObj m => Ok (match assoc_get k m with Some x => x | None => default end)
  | _ => Raise (mkExn AttributeError "object has no attribute 'get'")
  end.

(** [v[0]] *)
Definition jindex0 (v : JVal) : Res JVal :=
  match v with
  | JArr (x :: _) => Ok x
  | JArr [] => Raise (mkExn IndexError "list index out of range")
  | JStr (String c _) => Ok (JStr (String c EmptyString))
  | JStr EmptyString => Raise (mkExn IndexError "string index out of range")
  | JObj _ => Raise (mkExn KeyError "0")
  | _ => Raise (mkExn TypeError "object is not subscriptable")
  end.

(** ** models.py *)

Inductive ModelSource := HUGGINGFACE | CIVITAI | DIRECT_URL.

(** [ModelSource(value)]: the enum lookup by value, [ValueError] otherwise. *)
Definition ModelSource_of (v : option string) : Res ModelSource :=
  match v with
  | Some "huggingface" => Ok HUGGINGFACE
  | Some "civitai" => Ok CIVITAI
  | Some "url" => Ok DIRECT_URL
  | Some s => Raise (mkExn ValueError ("'" ++ s ++ "' is not a valid ModelSource"))
  | None => Raise (mkExn ValueError "None is not a valid ModelSource")
  end.

Record ModelConfig := mkModelConfig {
  name : string;
  source : ModelSource;
  target_dir : string;
  repo : option string;
  version_id : option string;
  url : option string;
  filename : option string;
  file : option string;
  gated : bool;
  headers : list (string * string)
}.

(** [ModelConfig.__post_init__] *)
Definition post_init (c : ModelConfig) : Res ModelConfig :=
  match source c with
  | HUGGINGFACE =>
      if negb (truthy (repo c))
      then Raise (mkExn ConfigurationError
                    ("HuggingFace models require 'repo' field for " ++ name c))
      else Ok c
  | CIVITAI =>
      if negb (truthy (version_id c))
      then Raise (mkExn ConfigurationError
                    ("CivitAI models require 'version_id' field for " ++ name c))
      else Ok c
  | DIRECT_URL =>
      if negb (truthy (url c))
      then Raise (mkExn ConfigurationError
                    ("Direct URL models require 'url' field for " ++ name c))
      else Ok c
  end.

(** An instance of [ModelConfigPydantic], as the orchestrator receives it. *)
Record ModelConfigPydantic := mkPydantic {
  p_source : option string;
  p_repo : option string;
  p_version_id : option string;
  p_url : option string;
  p_filename : option string;
  p_file : option string;
  p_gated : bool;
  p_headers : list (string * string)
}.

(** [ProvisionConfigPydantic.models]: a dict of dicts, in insertion order. *)
Definition ProvisionConfigPydantic : Type :=
  list (string * list (string * ModelConfigPydantic)).

Record DownloadResult := mkDownloadResult {
  model_name : string;
  success : bool;
  error_message : option string;
  file_path : option string;
  size_bytes : option Z
}.

Record ProvisioningSummary := mkSummary {
  total_models : Z;
  successful_downloads : Z;
  failed_downloads : Z;
  skipped_models : Z;
  results : list DownloadResult
}.

(** Python's [float] is the binary64 format of IEEE 754: 53 bits of
    precision and exponents below 1024.  Its values and the rounding of its
    operations, to the nearest float with ties to even, are those of the
    Standard Library's specification of floating-point arithmetic. *)
Definition float : Type := spec_float.

(** [float(n)]: the float nearest to an integer, the integer itself when it
    has at most 53 bits. *)
Definition float_of_Z (n : Z) : float := binary_normalize 53 1024 n 0 false.

(** An integer as an operand of [/]: its value, with all its bits. *)
Definition int_operand (n : Z) : float :=
  match n with
  | Z0 => S754_zero false
  | Zpos p => S754_finite false p 0
  | Zneg p => S754_finite true p 0
  end.

(** [a / b] on integers: the quotient of the two integers rounded once. *)
Definition int_truediv (a b : Z) : Res float :=
  if (b =? 0)%Z then Raise (mkExn ZeroDivisionError "division by zero")
  else
    match SFdiv 53 1024 (int_operand a) (int_operand b) with
    | S754_infinity _ =>
        Raise (mkExn OverflowError "integer division result too large for a float")
    | q => Ok q
    end.

(** [x * y] on floats *)
Definition float_mul (x y : float) : float := SFmul 53 1024 x y.

(** [ProvisioningSummary.success_rate] *)
Definition success_rate (s : ProvisioningSummary) : Res float :=
  if (total_models s =? 0)%Z then Ok (S754_zero false)
  else
    match int_truediv (successful_downloads s) (total_models s) with
    | Ok ratio => Ok (float_mul ratio (float_of_Z 100))
    | Raise e => Raise e
    end.

(** The rational number a finite float stands for. *)
Definition float_value (x : float) : Q :=
  match x with
  | S754_finite s m e => ((if s then -1 else 1) * inject_Z (Z.pos m) * 2 ^ e)%Q
  | _ => 0%Q
  end.

(** The percentage of the successful downloads, as a rational number. *)
Definition exact_percentage (s : ProvisioningSummary) : Q :=
  (100 * (inject_Z (successful_downloads s) / inject_Z (total_models s)))%Q.

(** Rounding works on a mantissa and two bits.  A record [(m, r, s)]
    locates the fraction [N / D]: [m] is its integer part, and the two bits
    say where its fractional part lies with respect to one half. *)
Definition locates (mrs : shr_record) (N D : Z) : Prop :=
  let m := shr_m mrs in
  (0 <= m /\ m * D <= N < (m + 1) * D /\
   match shr_r mrs, shr_s mrs with
   | false, false => N = m * D
   | false, true => m * D < N /\ 2 * N < (2 * m + 1) * D
   | true, false => 2 * N = (2 * m + 1) * D
   | true, true => (2 * m + 1) * D < 2 * N
   end)%Z.

(** A model entry of the parsed TOML file: a bare URL string or a table.  A
    key that is absent from the table is [None]. *)
Record RawModel := mkRaw {
  r_source : option string;
  r_repo : option string;
  r_version_id : option string;
  r_url : option string;
  r_filename : option string;
  r_file : option string;
  r_gated : option bool;
  r_headers : option (list (string * string))
}.

Inductive RawEntry :=
| RawUrl (u : string)
| RawDict (d : RawModel).

(** [config.get("models", {})]: category name to model name to entry, in
    insertion order. *)
Definition RawConfig : Type := list (string * list (string * RawEntry)).

(** ** The world the code runs in *)

Inductive Event :=
| ENet (method : string) (target : string)
| EMkdir (p : string)
| EOpen (p : string)
| EUnlink (p : string)
| ELogError (msg : string)
| ELogWarning (msg : string).

(** What the code reads from an HTTP response.  [content_length] is the value
    of [int(response.headers.get('content-length', 0))]; [cd_filename] is the
    file name the [Content-Disposition] pattern extracts, if any; [chunks] and
    [stream_error] are what [iter_chunked] yields and the exception that ends
    the stream early, if any. *)
Record Response := mkResponse {
  status : Z;
  resp_json : Res JVal;
  resp_text : Res string;
  content_length : Res Z;
  cd_filename : option string;
  chunks : list string;
  stream_error : option exn
}.

Inductive Reply :=
| NetError (e : exn)
| NetReply (r : Response).

(** [net] is the script of replies the network will give, one per request, in
    order; when it runs out the connection fails. *)
Record World := mkWorld {
  files : gmap string string;
  dirs : gset string;
  net : list Reply;
  trace : list Event
}.

Definition M (A : Type) : Type := World -> Res A * World.

Definition ret {A : Type} (a : A) : M A := fun w => (Ok a, w).

Definition raise {A : Type} (e : exn) : M A := fun w => (Raise e, w).

Definition bind {A B : Type} (m : M A) (k : A -> M B) : M B :=
  fun w =>
    match m w with
    | (Ok a, w') => k a w'
    | (Raise e, w') => (Raise e, w')
    end.

(** [try: body / except Exception as e: handler e] *)
Definition try_except {A : Type} (body : M A) (handler : exn -> M A) : M A :=
  fun w =>
    match body w with
    | (Ok a, w') => (Ok a, w')
    | (Raise e, w') => handler e w'
    end.

Definition lift {A : Type} (r : Res A) : M A := fun w => (r, w).

Declare Scope py_scope.
Delimit Scope py_scope with py.
Notation "'let*' x := m 'in' k" := (bind m (fun x => k))
  (at level 10, x name, m at level 100, k at level 200) : py_scope.
Notation "m ';;;' k" := (bind m (fun _ => k))
  (at level 100, k at level 200, right associativity) : py_scope.
Local Open Scope py_scope.

(** A coroutine that can wait for ever -- on a semaphore that has no slot and
    no task left to release one: [None] when it never returns, otherwise what
    it returns or raises and the world it leaves. *)
Definition Awaitable (A : Type) : Type := World -> option (Res A * World).

(** A computation that always comes back. *)
Definition returns {A : Type} (m : M A) : Awaitable A := fun w => Some (m w).

Definition wait_for_ever {A : Type} : Awaitable A := fun _ => None.

Definition bind_a {A B : Type} (m : Awaitable A) (k : A -> Awaitable B) : Awaitable B :=
  fun w =>
    match m w with
    | Some (Ok a, w') => k a w'
    | Some (Raise e, w') => Some (Raise e, w')
    | None => None
    end.

(** [try: body / except Exception as e: handler e] around a coroutine that can
    wait for ever. *)
Definition try_except_a {A : Type} (body : Awaitable A) (handler : exn -> M A)
  : Awaitable A :=
  fun w =>
    match body w with
    | Some (Ok a, w') => Some (Ok a, w')
    | Some (Raise e, w') => Some (handler e w')
    | None => None
    end.

Notation "'await*' x := m 'in' k" := (bind_a m (fun x => k))
  (at level 10, x name, m at level 100, k at level 200) : py_scope.

Definition emit (e : Event) : M unit :=
  fun w => (Ok tt, mkWorld (files w) (dirs w) (net w) (trace w ++ [e])%list).

(** One HTTP request: it is recorded, and the next scripted reply answers it. *)
Definition request (method target : string) : M Response :=
  fun w =>
    let tr := (trace w ++ [ENet method target])%list in
    match net w with
    | [] => (Raise (mkExn ClientError "Cannot connect to host"),
             mkWorld (files w) (dirs w) [] tr)
    | NetError e :: rest => (Raise e, mkWorld (files w) (dirs w) rest tr)
    | NetReply r :: rest => (Ok r, mkWorld (files w) (dirs w) rest tr)
    end.

(** [target_dir / filename] *)
Definition path_join (dir fname : string) : string :=
  match fname with
  | EmptyString => dir
  | String "/" _ => fname
  | _ => dir ++ "/" ++ fname
  end.

Definition exists_in (w : World) (p : string) : bool :=
  bool_decide (p ∈ dom (files w)) || bool_decide (p ∈ dirs w).

(** [p.exists()] *)
Definition path_exists (p : string) : M bool := fun w => (Ok (exists_in w p), w).

(** [p.mkdir(parents=True, exist_ok=True)] *)
Definition mkdir (p : string) : M unit :=
  fun w =>
    if bool_decide (p ∈ dom (files w))
    then (Raise (mkExn FileExistsError p), w)
    else (Ok tt, mkWorld (files w) ({[p]} ∪ dirs w) (net w) (trace w ++ [EMkdir p])%list).

(** [open(p, 'wb')]: the file exists, empty, from here on. *)
Definition open_wb (p : string) : M unit :=
  fun w =>
    if bool_decide (p ∈ dirs w)
    then (Raise (mkExn IsADirectoryError p), w)
    else (Ok tt, mkWorld (<[p := EmptyString]> (files w)) (dirs w) (net w)
                   (trace w ++ [EOpen p])%list).

(** [open(p, 'a')]: the file exists from here on, with what it held. *)
Definition open_a (p : string) : M unit :=
  fun w =>
    if bool_decide (p ∈ dirs w)
    then (Raise (mkExn IsADirectoryError p), w)
    else (Ok tt, mkWorld (<[p := default EmptyString (files w !! p)]> (files w)) (dirs w)
                   (net w) (trace w ++ [EOpen p])%list).

(** [f.write(chunk)] *)
Definition write (p chunk : string) : M unit :=
  fun w =>
    (Ok tt, mkWorld (<[p := (default EmptyString (files w !! p)) ++ chunk]> (files w))
                    (dirs w) (net w) (trace w)).

(** [p.unlink()] *)
Definition unlink (p : string) : M unit :=
  fun w =>
    if bool_decide (p ∈ dom (files w))
    then (Ok tt, mkWorld (delete p (files w)) (dirs w) (net w) (trace w ++ [EUnlink p])%list)
    else if bool_decide (p ∈ dirs w)
         then (Raise (mkExn IsADirectoryError p), w)
         else (Raise (mkExn FileNotFoundError p), w).

(** [with open(p, 'wb') as f: async for chunk in ...: f.write(chunk)] *)
Fixpoint write_chunks (p : string) (cs : list string) : M unit :=
  match cs with
  | [] => ret tt
  | c :: rest => write p c ;;; write_chunks p rest
  end.

Definition stream_to (p : string) (r : Response) : M unit :=
  open_wb p ;;;
  write_chunks p (chunks r) ;;;
  match stream_error r with
  | Some e => raise e
  | None => ret tt
  end.

Definition log_error (msg : string) : M unit := emit (ELogError msg).
Definition log_warning (msg : string) : M unit := emit (ELogWarning msg).

(** [f"{n}"] for an integer *)
Definition str_Z (n : Z) : string :=
  match n with
  | Z0 => "0"
  | Zpos p => str_nat (Pos.to_nat p)
  | Zneg p => "-" ++ str_nat (Pos.to_nat p)
  end.

(** ** What the code takes from outside the repository

    The regular-expression and path functions of the Python library, the
    [huggingface_hub] client and the interpreter's recursion limit.  Every
    theorem below holds for all of them. *)
Record Runtime := mkRuntime {
  (** [URLProcessor.process_url], three [re.search] patterns *)
  process_url : string -> string;
  (** [urlparse(url).path] *)
  url_path : string -> string;
  (** [Path(path).name] *)
  path_name : string -> string;
  (** [target_file.parent] *)
  path_parent : string -> string;
  (** the link the confirm-download pattern of [re.search] finds in a page,
      with [&amp;] replaced by [&] *)
  confirm_href : string -> option string;
  (** [HfApi.repo_info] *)
  repo_info : string -> M unit;
  (** [hf_hub_download(repo_id, filename, local_dir, ...)] *)
  hf_hub_download : string -> string -> string -> M (option string);
  (** [login(token=...)] *)
  hf_login : string -> M unit;
  (** [tomllib.loads] followed by [ConfigParser._validate_config] *)
  load_config : string -> Res RawConfig;
  (** the constructor [ProvisionConfigPydantic] applied to the parsed dict *)
  pydantic_validate : RawConfig -> Res ProvisionConfigPydantic;
  (** [sys.getrecursionlimit()], as the number of nested calls allowed *)
  recursion_limit : nat
}.

(** ** validators/tokens.py *)

Record TokenValidator := mkTokenValidator {
  hf_token : option string;
  civitai_token : option string
}.

(** [TokenValidator.__init__]: the tokens are read from the environment. *)
Definition TokenValidator_init (environ : gmap string string) : TokenValidator :=
  mkTokenValidator (environ !! "HF_TOKEN") (environ !! "CIVITAI_TOKEN").

Definition hf_whoami_url : string := "https://huggingface.co/api/whoami-v2".
Definition civitai_probe_url : string := "https://civitai.com/api/v1/models?hidden=1&limit=1".

(** [TokenValidator.validate_hf_token] *)
Definition validate_hf_token (self : TokenValidator) : M bool :=
  if negb (truthy (hf_token self)) then
    log_warning "No HF_TOKEN environment variable found" ;;;
    ret false
  else
    try_except
      (let* response := request "GET" hf_whoami_url in
       if (status response =? 200)%Z then
         let* data := lift (resp_json response) in
         let* username := lift (jget data "name" (JStr "unknown")) in
         ret true
       else
         log_error ("HuggingFace token validation failed: HTTP " ++ str_Z (status response)) ;;;
         ret false)
      (fun e =>
         log_error ("HuggingFace token validation error: " ++ str_exn e) ;;;
         ret false).

(** [TokenValidator.validate_civitai_token] *)
Definition validate_civitai_token (self : TokenValidator) : M bool :=
  if negb (truthy (civitai_token self)) then
    log_warning "No CIVITAI_TOKEN environment variable found" ;;;
    ret false
  else
    try_except
      (let* response := request "GET" civitai_probe_url in
       if (status response =? 200)%Z then
         ret true
       else
         log_error ("CivitAI token validation failed: HTTP " ++ str_Z (status response)) ;;;
         ret false)
      (fun e =>
         log_error ("CivitAI token validation error: " ++ str_exn e) ;;;
         ret false).

(** ** downloaders/direct.py *)

Section Adapters.

Variable rt : Runtime.

(** The first attempt of [_get_filename]: the last component of the URL's
    path, when the path has a dot and the name is not overlong. *)
Definition name_from_url (url : string) : option string :=
  let path := url_path rt url in
  if negb (is_empty path) && contains "." path then
    let filename := path_name rt path in
    if negb (is_empty filename) && (String.length filename <? 255)%nat
    then Some filename else None
  else None.

(** [DirectURLDownloader._get_filename] *)
Definition direct_get_filename (url : string) : M (option string) :=
  try_except
    (match name_from_url url with
     | Some filename => ret (Some filename)
     | None =>
         let* response := request "HEAD" url in
         if (status response =? 200)%Z then ret (cd_filename response)
         else ret None
     end)
    (fun _ => ret None).

(** The clean-up of both [except] clauses of [_download_file]. *)
Definition cleanup_partial (target_file : string) : M unit :=
  let* present := path_exists target_file in
  if present then unlink target_file else ret tt.

(** [DirectURLDownloader._download_file]; [depth] is the number of nested
    calls still allowed. *)
Fixpoint direct_download_file (depth : nat) (url target_file model_name : string)
  : M bool :=
  match depth with
  | O => raise (mkExn RecursionError "maximum recursion depth exceeded")
  | S depth' =>
      try_except
        (let* response := request "GET" url in
         let* confirmed :=
           (if contains "drive.google.com" url && (status response =? 200)%Z then
              let* content := lift (resp_text response) in
              if contains "Google Drive - Virus scan warning" content then
                match confirm_href rt content with
                | Some href =>
                    let new_url := "https://drive.google.com" ++ href in
                    let* b := direct_download_file depth' new_url target_file model_name in
                    ret (Some b)
                | None => ret None
                end
              else ret None
            else ret None) in
         match confirmed with
         | Some b => ret b
         | None =>
             if negb (status response =? 200)%Z then
               log_error ("Download failed with status " ++ str_Z (status response)) ;;;
               (if (status response =? 403)%Z
                then log_error "Access forbidden - check authentication or permissions"
                else if (status response =? 404)%Z
                     then log_error "File not found"
                     else ret tt) ;;;
               ret false
             else
               let* total_size := lift (content_length response) in
               mkdir (path_parent rt target_file) ;;;
               stream_to target_file response ;;;
               ret true
         end)
        (fun e =>
           log_error (match exn_class e with
                      | TimeoutError => "Download timeout for " ++ model_name
                      | _ => "Download error: " ++ str_exn e
                      end) ;;;
           cleanup_partial target_file ;;;
           ret false)
  end.

(** The file name [DirectURLDownloader.download] settles on: the block
    "Determine filename if not provided". *)
Definition direct_resolve_filename (model_name processed_url filename : string)
  : M string :=
  if is_empty filename then
    let* found := direct_get_filename processed_url in
    ret (if truthy found then or_empty found
         else model_name ++ ".safetensors")
  else ret filename.

(** [DirectURLDownloader.download] *)
Definition direct_download (model_name url target_dir filename : string) : M bool :=
  try_except
    (let processed_url := process_url rt url in
     let* filename := direct_resolve_filename model_name processed_url filename in
     let target_file := path_join target_dir filename in
     let* present := path_exists target_file in
     if present then ret true
     else
       let* ok := direct_download_file (recursion_limit rt) processed_url
                    target_file model_name in
       if ok then ret true
       else log_error ("❌ Failed to download " ++ model_name) ;;; ret false)
    (fun e =>
       log_error ("❌ Direct URL download failed for " ++ model_name ++ ": " ++ str_exn e) ;;;
       ret false).

(** ** downloaders/civitai.py *)

Definition civitai_base_url : string := "https://civitai.com/api".

Definition civitai_info_url (model_id : string) : string :=
  civitai_base_url ++ "/v1/model-versions/" ++ model_id.

(** The dict [_get_model_info] returns on a 200 reply, kept as its items. *)
Definition model_info_dict (data : JVal) : Res (list (string * JVal)) :=
  match jget data "files" (JArr [JObj []]) with
  | Raise e => Raise e
  | Ok files =>
      match jindex0 files with
      | Raise e => Raise e
      | Ok first =>
          match jget first "name" (JStr EmptyString),
                jget first "sizeKB" (JNum 0),
                jget data "downloadUrl" (JStr EmptyString) with
          | Ok fname, Ok size, Ok download_url =>
              Ok [("filename", fname); ("size", size); ("downloadUrl", download_url)]
          | Raise e, _, _ | _, Raise e, _ | _, _, Raise e => Raise e
          end
      end
  end.

(** [CivitAIDownloader._get_model_info] *)
Definition civitai_get_model_info (model_id : string)
  : M (option (list (string * JVal))) :=
  try_except
    (let* response := request "GET" (civitai_info_url model_id) in
     if (status response =? 200)%Z then
       let* data := lift (resp_json response) in
       let* info := lift (model_info_dict data) in
       ret (Some info)
     else if (status response =? 401)%Z then
       log_error "CivitAI authentication failed - invalid token" ;;; ret None
     else if (status response =? 404)%Z then
       log_error ("Model version " ++ model_id ++ " not found") ;;; ret None
     else
       log_error ("CivitAI API error: " ++ str_Z (status response)) ;;; ret None)
    (fun e =>
       log_error ("Failed to get model info: " ++ str_exn e) ;;; ret None).

(** [CivitAIDownloader._download_file] *)
Definition civitai_download_file (url target_file model_name : string) : M bool :=
  try_except
    (let* response := request "GET" url in
     if negb (status response =? 200)%Z then
       log_error ("Download failed with status " ++ str_Z (status response)) ;;;
       ret false
     else
       let* total_size := lift (content_length response) in
       mkdir (path_parent rt target_file) ;;;
       stream_to target_file response ;;;
       ret true)
    (fun e =>
       log_error ("Download error: " ++ str_exn e) ;;;
       cleanup_partial target_file ;;;
       ret false).

(** [target_dir / filename] when [filename] came out of JSON: only a string
    can be joined to a path. *)
Definition path_join_j (dir : string) (fname : JVal) : Res string :=
  match fname with
  | JStr s => Ok (path_join dir s)
  | _ => Raise (mkExn TypeError "unsupported operand type(s) for /")
  end.

(** The file name [CivitAIDownloader.download] settles on: the block
    "Determine target filename". *)
Definition civitai_resolve_filename (model_name filename : string)
    (model_info : list (string * JVal)) : JVal :=
  if is_empty filename then
    match assoc_get "filename" model_info with
    | Some v => v
    | None => JStr (model_name ++ ".safetensors")
    end
  else JStr filename.

(** [CivitAIDownloader.download] *)
Definition civitai_download (model_name model_id target_dir filename : string) : M bool :=
  try_except
    (let* model_info := civitai_get_model_info model_id in
     match model_info with
     | None | Some [] =>
         log_error ("❌ Failed to get model info for " ++ model_name) ;;; ret false
     | Some info =>
         let filename := civitai_resolve_filename model_name filename info in
         let* target_file := lift (path_join_j target_dir filename) in
         let* present := path_exists target_file in
         if present then ret true
         else
           let download_url := civitai_base_url ++ "/download/models/" ++ model_id in
           let* ok := civitai_download_file download_url target_file model_name in
           if ok then ret true
           else log_error ("❌ Failed to download " ++ model_name) ;;; ret false
     end)
    (fun e =>
       log_error ("❌ CivitAI download failed for " ++ model_name ++ ": " ++ str_exn e) ;;;
       ret false).

(** ** downloaders/huggingface.py *)

(** [HF_AVAILABLE] and [self.api]: the client object is there exactly when the
    library could be imported. *)
Record HuggingFaceDownloader := mkHF {
  HF_AVAILABLE : bool;
  api : option unit
}.

Definition HuggingFaceDownloader_init (available : bool) : HuggingFaceDownloader :=
  mkHF available (if available then Some tt else None).

(** [HuggingFaceDownloader.__init__]: the adapter it leaves is
    [HuggingFaceDownloader_init available]; on the way it warns when the
    library is missing, and logs in when [HF_TOKEN] is set, with a warning
    when that fails. *)
Definition HuggingFaceDownloader_new (environ : gmap string string) (available : bool)
  : M HuggingFaceDownloader :=
  if negb available then
    log_warning "huggingface_hub not available, HF downloads will fail" ;;;
    ret (HuggingFaceDownloader_init available)
  else
    let hf_token := environ !! "HF_TOKEN" in
    (if truthy hf_token then
       try_except
         (hf_login rt (or_empty hf_token))
         (fun e => log_warning ("HuggingFace authentication failed: " ++ str_exn e))
     else ret tt) ;;;
    ret (HuggingFaceDownloader_init available).

(** [CivitAIDownloader.__init__] *)
Definition CivitAIDownloader_new (environ : gmap string string) : M unit :=
  if truthy (environ !! "CIVITAI_TOKEN") then ret tt
  else log_warning "No CIVITAI_TOKEN provided, downloads may be limited".

(** [setup_logging(log_file)]: the handler of the log file makes sure of the
    directory and opens the file for appending; what the handlers write is
    left out. *)
Definition setup_logging (log_file : string) : M unit :=
  mkdir (path_parent rt log_file) ;;;
  open_a log_file.

(** [HuggingFaceDownloader._can_access_repo] *)
Definition hf_can_access_repo (self : HuggingFaceDownloader) (repo_id : string) : M bool :=
  match api self with
  | None => ret false
  | Some _ =>
      try_except (repo_info rt repo_id ;;; ret true) (fun _ => ret false)
  end.

(** [HuggingFaceDownloader._download_sync] *)
Definition hf_download_sync (repo_id filename target_dir : string) : M (option string) :=
  try_except
    (hf_hub_download rt repo_id filename target_dir)
    (fun e => log_error ("Download error: " ++ str_exn e) ;;; ret None).

(** [HuggingFaceDownloader.download] *)
Definition hf_download (self : HuggingFaceDownloader)
    (model_name repo_id filename target_dir : string) (gated : bool) : M bool :=
  if negb (HF_AVAILABLE self) then
    log_error ("Cannot download " ++ model_name ++ ": huggingface_hub not available") ;;;
    ret false
  else
    try_except
      (let target_file := path_join target_dir filename in
       let* present := path_exists target_file in
       if present then ret true
       else
         let* denied :=
           (if gated then
              let* can := hf_can_access_repo self repo_id in ret (negb can)
            else ret false) in
         if denied then
           log_error ("🔒 Cannot access gated repository: " ++ repo_id) ;;;
           log_error ("    Visit https://huggingface.co/" ++ repo_id
                      ++ " to accept Terms of Service") ;;;
           ret false
         else
           let* downloaded_path := hf_download_sync repo_id filename target_dir in
           if truthy downloaded_path then ret true
           else log_error ("❌ Failed to download " ++ model_name) ;;; ret false)
      (fun e =>
         log_error ("❌ HuggingFace download failed for " ++ model_name ++ ": " ++ str_exn e) ;;;
         ret false).

End Adapters.

(** ** core.py *)

(** [for x in l: body x] *)
Fixpoint for_each {A : Type} (l : list A) (body : A -> M unit) : M unit :=
  match l with
  | [] => ret tt
  | x :: rest => body x ;;; for_each rest body
  end.

(** A loop that updates local variables [s]. *)
Fixpoint fold_loop {A S : Type} (body : S -> A -> M S) (l : list A) (s : S) : M S :=
  match l with
  | [] => ret s
  | x :: rest => let* s' := body s x in fold_loop body rest s'
  end.

(** A task awaited by [asyncio.gather(..., return_exceptions=True)]: its
    exception, if any, becomes its result. *)
Definition capture {A : Type} (task : M A) : M (Res A) :=
  fun w => let (r, w') := task w in (Ok r, w').

(** [asyncio.gather] with [return_exceptions=True], the tasks taken in
    submission order; the results come in that order whatever the schedule. *)
Fixpoint gather {A : Type} (tasks : list (M A)) : M (list (Res A)) :=
  match tasks with
  | [] => ret []
  | t :: rest =>
      let* r := capture t in
      let* rs := gather rest in
      ret (r :: rs)
  end.

(** [asyncio.gather] with [return_exceptions=True] over coroutines that can
    wait for ever: it returns once every one of them has. *)
Fixpoint gather_a {A : Type} (tasks : list (Awaitable A)) : Awaitable (list (Res A)) :=
  match tasks with
  | [] => returns (ret [])
  | t :: rest =>
      fun w =>
        match t w with
        | Some (r, w') => (await* rs := gather_a rest in returns (ret (r :: rs))) w'
        | None => None
        end
  end.

(** Binding the keyword arguments of a call to the parameters of a method:
    [params] gives each parameter with its default, if it has one. *)
Fixpoint bind_kwargs (fname : string) (params : list (string * option string))
    (kwargs : list (string * string)) : Res (list string) :=
  match params with
  | [] =>
      match kwargs with
      | [] => Ok []
      | (k, _) :: _ =>
          Raise (mkExn TypeError
                   (fname ++ "() got an unexpected keyword argument '" ++ k ++ "'"))
      end
  | (p, dflt) :: rest =>
      let others := filter (fun kv => negb (String.eqb (fst kv) p)) kwargs in
      match assoc_get p kwargs, dflt with
      | Some v, _ | None, Some v =>
          match bind_kwargs fname rest others with
          | Ok vs => Ok (v :: vs)
          | Raise e => Raise e
          end
      | None, None =>
          match bind_kwargs fname rest others with
          | Ok _ =>
              Raise (mkExn TypeError
                       (fname ++ "() missing 1 required positional argument: '" ++ p ++ "'"))
          | Raise e => Raise e
          end
      end
  end.

Record ProvisioningSystem := mkSystem {
  workspace_dir : string;
  models_dir : string;
  logs_dir : string;
  dry_run : bool;
  max_concurrent : nat;
  token_validator : TokenValidator;
  hf_downloader : HuggingFaceDownloader
}.

(** What a download task can evaluate to: a result, or -- when a coroutine
    function is called and its coroutine is returned without being awaited --
    a coroutine object. *)
Inductive Coroutine :=
| CoHuggingFace (mc : ModelConfig)
| CoCivitAI (mc : ModelConfig)
| CoDirectURL (mc : ModelConfig).

Inductive PyObj :=
| ODownloadResult (r : DownloadResult)
| OCoroutine (c : Coroutine).

(** [r.success] *)
Definition get_success (o : PyObj) : Res bool :=
  match o with
  | ODownloadResult r => Ok (success r)
  | OCoroutine _ =>
      Raise (mkExn AttributeError "'coroutine' object has no attribute 'success'")
  end.

Section Orchestrator.

Variable rt : Runtime.

(** [ProvisioningSystem.__init__]; [environ] is [os.environ] and [available]
    tells whether [huggingface_hub] could be imported. *)
Definition ProvisioningSystem_init (environ : gmap string string) (available : bool)
    (workspace : option string) (limit : nat) : M ProvisioningSystem :=
  let workspace_dir :=
    match workspace with
    | Some d => d
    | None => default "/workspace" (environ !! "WORKSPACE")
    end in
  let models_dir := path_join (path_join workspace_dir "forge") "models" in
  let logs_dir := path_join workspace_dir "logs" in
  mkdir models_dir ;;;
  mkdir logs_dir ;;;
  let token_validator := TokenValidator_init environ in
  let* hf_downloader := HuggingFaceDownloader_new rt environ available in
  CivitAIDownloader_new environ ;;;
  setup_logging rt (path_join logs_dir "provision.log") ;;;
  ret (mkSystem workspace_dir models_dir logs_dir false limit
         token_validator hf_downloader).

(** [ProvisioningSystem._get_category_dir] *)
Definition _get_category_dir (category : string) : string :=
  match category with
  | "checkpoints" => "Stable-diffusion"
  | "lora" => "Lora"
  | "vae" => "VAE"
  | "controlnet" => "ControlNet"
  | "esrgan" => "ESRGAN"
  | "embeddings" => "embeddings"
  | "hypernetworks" => "hypernetworks"
  | "text_encoder" => "text_encoder"
  | "clip" => "text_encoder"
  | _ => category
  end.

(** [ProvisioningSystem._find_gated_models] *)
Definition _find_gated_models (config : RawConfig) : list RawModel :=
  flat_map
    (fun category =>
       flat_map
         (fun item =>
            match snd item with
            | RawDict model_config =>
                if default false (r_gated model_config) then [model_config] else []
            | RawUrl _ => []
            end)
         (snd category))
    config.

(** [ProvisioningSystem._log_gated_model_error] *)
Definition _log_gated_model_error (model : RawModel) (platform : string) : M unit :=
  log_error "🔒 GATED MODEL ACCESS DENIED" ;;;
  log_error ("Model: " ++
             match r_repo model with
             | Some r => r
             | None => default "unknown" (r_version_id model)
             end) ;;;
  log_error ("Platform: " ++ platform) ;;;
  log_error "Reason: Terms of Service not accepted or invalid token" ;;;
  (if String.eqb platform "HuggingFace" then
     let repo := default EmptyString (r_repo model) in
     if negb (is_empty repo) then
       log_error ("Action: Visit https://huggingface.co/" ++ repo
                  ++ " and click 'Agree and access repository'")
     else ret tt
   else if String.eqb platform "CivitAI" then
     log_error "Action: Ensure you have a valid CivitAI API token"
   else ret tt) ;;;
  log_error "Status: SKIPPED" ;;;
  log_error EmptyString.

(** [ProvisioningSystem._validate_tokens] *)
Definition _validate_tokens (self : ProvisioningSystem) (config : RawConfig) : M unit :=
  let gated_models := _find_gated_models config in
  match gated_models with
  | [] => ret tt
  | _ =>
      let* hf_valid := validate_hf_token (token_validator self) in
      (if hf_valid then ret tt
       else log_warning "⚠️  HuggingFace token is invalid or missing") ;;;
      let* civitai_valid := validate_civitai_token (token_validator self) in
      (if civitai_valid then ret tt
       else log_warning "⚠️  CivitAI token is invalid or missing") ;;;
      for_each gated_models
        (fun model =>
           let source := default "unknown" (r_source model) in
           if String.eqb source "huggingface" && negb hf_valid then
             _log_gated_model_error model "HuggingFace"
           else if String.eqb source "civitai" && negb civitai_valid then
             _log_gated_model_error model "CivitAI"
           else ret tt)
  end.

(** The call [self.civitai_downloader.download(model_name=..., version_id=...,
    target_dir=..., filename=...)] of core.py against the signature
    [download(self, model_name, model_id, target_dir, filename)], whose last
    parameter defaults to the empty string. *)
Definition civitai_download_call (model_name version_id target_dir filename : string)
  : M bool :=
  match bind_kwargs "CivitAIDownloader.download"
          [("model_name", None); ("model_id", None); ("target_dir", None);
           ("filename", Some EmptyString)]
          [("model_name", model_name); ("version_id", version_id);
           ("target_dir", target_dir); ("filename", filename)] with
  | Ok [a; b; c; d] => civitai_download rt a b c d
  | Ok _ => raise (mkExn TypeError "CivitAIDownloader.download()")
  | Raise e => raise e
  end.

(** [ProvisioningSystem._download_huggingface_model_typed] *)
Definition _download_huggingface_model_typed (self : ProvisioningSystem)
    (model_config : ModelConfig) : M DownloadResult :=
  try_except
    (let* ok := hf_download rt (hf_downloader self) (name model_config)
                  (or_empty (repo model_config)) (or_empty (file model_config))
                  (target_dir model_config) (gated model_config) in
     ret (mkDownloadResult (name model_config) ok None
            (if ok then Some (target_dir model_config) else None) None))
    (fun e =>
       ret (mkDownloadResult (name model_config) false
              (Some ("HuggingFace download failed: " ++ str_exn e)) None None)).

(** [ProvisioningSystem._download_civitai_model_typed] *)
Definition _download_civitai_model_typed (self : ProvisioningSystem)
    (model_config : ModelConfig) : M DownloadResult :=
  try_except
    (let* ok := civitai_download_call (name model_config)
                  (or_empty (version_id model_config)) (target_dir model_config)
                  (or_empty (filename model_config)) in
     ret (mkDownloadResult (name model_config) ok None
            (if ok then Some (target_dir model_config) else None) None))
    (fun e =>
       ret (mkDownloadResult (name model_config) false
              (Some ("CivitAI download failed: " ++ str_exn e)) None None)).

(** [ProvisioningSystem._download_direct_url_typed] *)
Definition _download_direct_url_typed (self : ProvisioningSystem)
    (model_config : ModelConfig) : M DownloadResult :=
  try_except
    (let* ok := direct_download rt (name model_config) (or_empty (url model_config))
                  (target_dir model_config) (or_empty (filename model_config)) in
     ret (mkDownloadResult (name model_config) ok None
            (if ok then Some (target_dir model_config) else None) None))
    (fun e =>
       ret (mkDownloadResult (name model_config) false
              (Some ("Direct URL download failed: " ++ str_exn e)) None None)).

(** What awaiting each coroutine object would run. *)
Definition run_coroutine (self : ProvisioningSystem) (c : Coroutine) : M DownloadResult :=
  match c with
  | CoHuggingFace mc => _download_huggingface_model_typed self mc
  | CoCivitAI mc => _download_civitai_model_typed self mc
  | CoDirectURL mc => _download_direct_url_typed self mc
  end.

(** [ProvisioningSystem._create_typed_download_task]: an [async def] whose
    body returns the coroutine of the download method without awaiting it. *)
Definition _create_typed_download_task (self : ProvisioningSystem)
    (model_config : ModelConfig) : M PyObj :=
  try_except
    (match source model_config with
     | HUGGINGFACE => ret (OCoroutine (CoHuggingFace model_config))
     | CIVITAI => ret (OCoroutine (CoCivitAI model_config))
     | DIRECT_URL => ret (OCoroutine (CoDirectURL model_config))
     end)
    (fun e =>
       ret (ODownloadResult
              (mkDownloadResult (name model_config) false (Some (str_exn e)) None None))).

(** The loop of [_execute_concurrent_downloads] over [enumerate(results)]. *)
Fixpoint process_results (i : nat) (results : list (Res PyObj)) : list PyObj :=
  match results with
  | [] => []
  | Raise e :: rest =>
      ODownloadResult
        (mkDownloadResult ("model_" ++ str_nat i) false (Some (str_exn e)) None None)
      :: process_results (S i) rest
  | Ok result :: rest => result :: process_results (S i) rest
  end.

(** [download_with_semaphore]: [async with self._semaphore: return await task].
    The semaphore is made with [max_concurrent] slots.  In a run where the
    tasks are taken one after the other a semaphore with a slot never makes a
    task wait; one made with no slot admits no task, and as none is inside to
    release a slot the wait never ends.  The interleaved runs are the subject
    of the scheduling model below. *)
Definition download_with_semaphore (self : ProvisioningSystem) (task : M PyObj)
  : Awaitable PyObj :=
  match max_concurrent self with
  | O => wait_for_ever
  | S _ => returns task
  end.

(** [ProvisioningSystem._execute_concurrent_downloads] *)
Definition _execute_concurrent_downloads (self : ProvisioningSystem)
    (download_tasks : list (M PyObj)) : Awaitable (list PyObj) :=
  let tasks := map (download_with_semaphore self) download_tasks in
  await* results := gather_a tasks in
  returns (ret (process_results 0 results)).

(** The constructor call of the typed loop: [ModelSource(...)], then
    [ModelConfig(...)] with its [__post_init__]. *)
Definition build_model_config (model_name target_dir : string)
    (data : ModelConfigPydantic) : Res ModelConfig :=
  match ModelSource_of (p_source data) with
  | Raise e => Raise e
  | Ok src =>
      post_init
        (mkModelConfig model_name src target_dir (p_repo data) (p_version_id data)
           (if truthy (p_url data) then p_url data else None)
           (p_filename data) (p_file data) (p_gated data) (p_headers data))
  end.

(** The body of the inner loop of [_download_models_typed]; the local
    variables are [model_configs] and [download_tasks]. *)
Definition typed_model_step (self : ProvisioningSystem) (target_dir : string)
    (acc : list ModelConfig * list (M PyObj)) (item : string * ModelConfigPydantic)
  : M (list ModelConfig * list (M PyObj)) :=
  match build_model_config (fst item) target_dir (snd item) with
  | Ok model_config =>
      let model_configs := (fst acc ++ [model_config])%list in
      if dry_run self then ret (model_configs, snd acc)
      else ret (model_configs,
                (snd acc ++ [_create_typed_download_task self model_config])%list)
  | Raise e =>
      log_error ("Invalid model configuration for " ++ fst item ++ ": " ++ str_exn e) ;;;
      ret acc
  end.

(** The body of the outer loop of [_download_models_typed]. *)
Definition typed_category_step (self : ProvisioningSystem)
    (acc : list ModelConfig * list (M PyObj))
    (category : string * list (string * ModelConfigPydantic))
  : M (list ModelConfig * list (M PyObj)) :=
  let target_dir := path_join (models_dir self) (_get_category_dir (fst category)) in
  (if negb (dry_run self) then mkdir target_dir else ret tt) ;;;
  fold_loop (typed_model_step self target_dir) (snd category) acc.

(** [sum(1 for r in results if r.success)], with the results it went through. *)
Fixpoint count_successful (results : list PyObj) : Res (Z * list DownloadResult) :=
  match results with
  | [] => Ok (0%Z, [])
  | o :: rest =>
      match get_success o, o with
      | Ok b, ODownloadResult r =>
          match count_successful rest with
          | Ok (n, rs) => Ok (((if b then 1 else 0) + n)%Z, r :: rs)
          | Raise e => Raise e
          end
      | Ok _, OCoroutine _ => Raise (mkExn AttributeError "success")
      | Raise e, _ => Raise e
      end
  end.

(** [ProvisioningSystem._download_models_typed] *)
Definition _download_models_typed (self : ProvisioningSystem)
    (config : ProvisionConfigPydantic) : Awaitable ProvisioningSummary :=
  await* collected := returns (fold_loop (typed_category_step self) config ([], [])) in
  let model_configs := fst collected in
  let download_tasks := snd collected in
  if dry_run self then
    returns
      (ret (mkSummary (Z.of_nat (length model_configs)) (Z.of_nat (length model_configs))
              0 0 []))
  else
    match download_tasks with
    | [] =>
        returns (log_warning "No models to download" ;;;
                 ret (mkSummary 0 0 0 0 []))
    | _ =>
        await* results := _execute_concurrent_downloads self download_tasks in
        returns
          (let* counted := lift (count_successful results) in
           let successful := fst counted in
           let failed := (Z.of_nat (length results) - successful)%Z in
           ret (mkSummary (Z.of_nat (length results)) successful failed 0 (snd counted)))
    end.

(** [ProvisioningSystem._detect_source] *)
Definition _detect_source (model_config : RawModel) : string :=
  match r_repo model_config, r_version_id model_config, r_url model_config with
  | Some _, _, _ => "huggingface"
  | None, Some _, _ => "civitai"
  | None, None, Some _ => "url"
  | None, None, None => "unknown"
  end.

(** [config[key]] *)
Definition getitem (key : string) (v : option string) : M string :=
  match v with
  | Some x => ret x
  | None => raise (mkExn KeyError ("'" ++ key ++ "'"))
  end.

(** [ProvisioningSystem._download_huggingface_model] *)
Definition _download_huggingface_model (self : ProvisioningSystem) (model_name : string)
    (config : RawModel) (target_dir : string) : M bool :=
  try_except
    (let* repo_id := getitem "repo" (r_repo config) in
     hf_download rt (hf_downloader self) model_name repo_id
       (default EmptyString (r_file config)) target_dir (default false (r_gated config)))
    (fun e =>
       log_error ("HuggingFace download failed for " ++ model_name ++ ": " ++ str_exn e) ;;;
       ret false).

(** [ProvisioningSystem._download_civitai_model] *)
Definition _download_civitai_model (self : ProvisioningSystem) (model_name : string)
    (config : RawModel) (target_dir : string) : M bool :=
  try_except
    (let* version_id := getitem "version_id" (r_version_id config) in
     civitai_download_call model_name version_id target_dir
       (default EmptyString (r_filename config)))
    (fun e =>
       log_error ("CivitAI download failed for " ++ model_name ++ ": " ++ str_exn e) ;;;
       ret false).

(** [ProvisioningSystem._download_direct_url] *)
Definition _download_direct_url (self : ProvisioningSystem) (model_name : string)
    (config : RawEntry) (target_dir : string) : M bool :=
  try_except
    (let* args :=
       match config with
       | RawUrl u => ret (u, EmptyString)
       | RawDict d =>
           let* u := getitem "url" (r_url d) in
           ret (u, default EmptyString (r_filename d))
       end in
     direct_download rt model_name (fst args) target_dir (snd args))
    (fun e =>
       log_error ("Direct URL download failed for " ++ model_name ++ ": " ++ str_exn e) ;;;
       ret false).

(** [ProvisioningSystem._create_download_task]: a plain function, so the
    coroutine it returns is the download itself. *)
Definition _create_download_task (self : ProvisioningSystem) (model_name : string)
    (model_config : RawEntry) (target_dir : string) : M (option (M bool)) :=
  match model_config with
  | RawUrl _ => ret (Some (_download_direct_url self model_name model_config target_dir))
  | RawDict d =>
      let src := match r_source d with Some v => v | None => _detect_source d end in
      if String.eqb src "huggingface" then
        ret (Some (_download_huggingface_model self model_name d target_dir))
      else if String.eqb src "civitai" then
        ret (Some (_download_civitai_model self model_name d target_dir))
      else if String.eqb src "url" then
        ret (Some (_download_direct_url self model_name model_config target_dir))
      else
        log_error ("Unknown source '" ++ src ++ "' for model " ++ model_name) ;;;
        ret None
  end.

(** The body of the inner loop of [_download_models]. *)
Definition file_model_step (self : ProvisioningSystem) (target_dir : string)
    (download_tasks : list (M bool)) (item : string * RawEntry) : M (list (M bool)) :=
  if dry_run self then ret download_tasks
  else
    let* task := _create_download_task self (fst item) (snd item) target_dir in
    match task with
    | Some t => ret (download_tasks ++ [t])%list
    | None => ret download_tasks
    end.

(** The body of the outer loop of [_download_models]. *)
Definition file_category_step (self : ProvisioningSystem)
    (download_tasks : list (M bool)) (category : string * list (string * RawEntry))
  : M (list (M bool)) :=
  let target_dir := path_join (models_dir self) (_get_category_dir (fst category)) in
  (if negb (dry_run self) then mkdir target_dir else ret tt) ;;;
  fold_loop (file_model_step self target_dir) (snd category) download_tasks.

(** [result is True] *)
Definition is_True (r : Res bool) : bool :=
  match r with
  | Ok true => true
  | _ => false
  end.

(** [ProvisioningSystem._download_models]: the tasks go to [asyncio.gather]
    as they are. *)
Definition _download_models (self : ProvisioningSystem) (config : RawConfig) : M bool :=
  let* download_tasks := fold_loop (file_category_step self) config [] in
  if dry_run self then ret true
  else
    match download_tasks with
    | [] => log_warning "No models to download" ;;; ret true
    | _ =>
        let* results := gather download_tasks in
        let successes := length (filter (fun r => is_True r = true) results) in
        let failures := (length results - successes)%nat in
        ret (failures =? 0)%nat
    end.

(** [ConfigParser.fetch_and_parse] *)
Fixpoint fetch_and_parse (depth : nat) (config_url : string) : M RawConfig :=
  match depth with
  | O => raise (mkExn RecursionError "maximum recursion depth exceeded")
  | S depth' =>
      try_except
        (let processed_url := process_url rt config_url in
         let* response := request "GET" processed_url in
         if negb (status response =? 200)%Z then
           raise (mkExn GenericException
                    ("Failed to fetch config: HTTP " ++ str_Z (status response)))
         else
           let* content := lift (resp_text response) in
           if contains "drive.google.com" processed_url
              && contains "Google Drive - Virus scan warning" content then
             match confirm_href rt content with
             | Some href => fetch_and_parse depth' ("https://drive.google.com" ++ href)
             | None =>
                 raise (mkExn GenericException
                          "Google Drive virus scan warning detected but couldn't find bypass URL")
             end
           else lift (load_config rt content))
        (fun e =>
           log_error ("Failed to fetch and parse config: " ++ str_exn e) ;;;
           raise e)
  end.

(** [ConfigParser.parse_file] *)
Definition parse_file (config_path : string) : M RawConfig :=
  try_except
    (let* present := path_exists config_path in
     if negb present then
       raise (mkExn GenericException ("Configuration file not found: " ++ config_path))
     else
       let* content :=
         (fun w => match files w !! config_path with
                   | Some c => (Ok c, w)
                   | None => (Raise (mkExn IsADirectoryError config_path), w)
                   end) in
       lift (load_config rt content))
    (fun e =>
       log_error ("Failed to parse config file: " ++ str_exn e) ;;;
       raise e).

(** [ProvisioningSystem.provision_from_url] *)
Definition provision_from_url (self : ProvisioningSystem) (config_url : string)
  : Awaitable ProvisioningSummary :=
  try_except_a
    (await* config_dict := returns (fetch_and_parse (recursion_limit rt) config_url) in
     await* config := returns (lift (pydantic_validate rt config_dict)) in
     await* validated := returns (_validate_tokens self config_dict) in
     await* summary := _download_models_typed self config in
     returns
       ((if (failed_downloads summary =? 0)%Z then ret tt
         else log_warning ("Provisioning completed with "
                           ++ str_Z (failed_downloads summary) ++ " failures")) ;;;
        ret summary))
    (fun e =>
       log_error ("Provisioning failed: " ++ str_exn e) ;;;
       raise (mkExn ProvisioningError ("Provisioning from URL failed: " ++ str_exn e))).

(** [ProvisioningSystem.provision_from_file] *)
Definition provision_from_file (self : ProvisioningSystem) (config_path : string)
  : M bool :=
  try_except
    (let* config := parse_file config_path in
     _validate_tokens self config ;;;
     let* ok := _download_models self config in
     (if ok then ret tt else log_warning "Provisioning completed with some failures") ;;;
     ret ok)
    (fun e =>
       log_error ("Provisioning failed: " ++ str_exn e) ;;;
       ret false).

End Orchestrator.

(** ** Scheduling

    How the event loop may interleave the tasks handed to [asyncio.gather].
    A task is reduced to the steps that matter for the concurrency limit:
    taking and giving back a slot of the semaphore, and entering and leaving
    a call of an adapter's [download] (it leaves on success and on failure
    alike). *)

Inductive Instr := IAcquire | IRelease | IEnter | IExit.

Definition Program : Type := list Instr.

(** One call of an adapter's [download]. *)
Definition adapter_call : Program := [IEnter; IExit].

(** [async with self._semaphore: return await task] *)
Definition with_semaphore (body : Program) : Program :=
  (IAcquire :: body ++ [IRelease])%list.

Record Sched := mkSched {
  permits : nat;
  tasks : list Program
}.

(** One step of one task; a task whose next step is [IAcquire] can only move
    when a slot is free. *)
Inductive sched_step : Sched -> Sched -> Prop :=
| step_acquire n before rest after :
    sched_step (mkSched (S n) (before ++ (IAcquire :: rest) :: after))
               (mkSched n (before ++ rest :: after))
| step_release n before rest after :
    sched_step (mkSched n (before ++ (IRelease :: rest) :: after))
               (mkSched (S n) (before ++ rest :: after))
| step_enter n before rest after :
    sched_step (mkSched n (before ++ (IEnter :: rest) :: after))
               (mkSched n (before ++ rest :: after))
| step_exit n before rest after :
    sched_step (mkSched n (before ++ (IExit :: rest) :: after))
               (mkSched n (before ++ rest :: after)).

(** A task is inside an adapter call when its next step is to leave it. *)
Definition inside_call (p : Program) : bool :=
  match p with
  | IExit :: _ => true
  | _ => false
  end.

Definition in_flight (s : Sched) : nat :=
  length (filter (fun p => inside_call p = true) (tasks s)).

(** The steps of the task [_create_typed_download_task] builds: its body
    returns the coroutine of the download method without awaiting it, so no
    adapter is called. *)
Definition typed_task_steps (mc : ModelConfig) : Program := [].

(** The steps of the task [_create_download_task] builds, if it builds one:
    the download method itself, which calls its adapter once -- except for
    the marketplace, where binding the call's keywords fails first. *)
Definition file_task_steps (entry : RawEntry) : option Program :=
  match entry with
  | RawUrl _ => Some adapter_call
  | RawDict d =>
      let src := match r_source d with Some v => v | None => _detect_source d end in
      if String.eqb src "huggingface" then
        Some (match r_repo d with Some _ => adapter_call | None => [] end)
      else if String.eqb src "civitai" then Some []
      else if String.eqb src "url" then
        Some (match r_url d with Some _ => adapter_call | None => [] end)
      else None
  end.

(** The schedule [_execute_concurrent_downloads] starts: every task behind
    the semaphore created with [max_concurrent] slots. *)
Definition typed_schedule (self : ProvisioningSystem) (bodies : list Program) : Sched :=
  mkSched (max_concurrent self) (map with_semaphore bodies).

(** The schedule [_download_models] starts: the tasks as they are. *)
Definition file_schedule (self : ProvisioningSystem) (config : RawConfig) : Sched :=
  mkSched (max_concurrent self)
    (flat_map
       (fun category =>
          flat_map (fun item => match file_task_steps (snd item) with
                                | Some p => [p]
                                | None => []
                                end)
                   (snd category))
       config).

(** A task body takes and gives back no slot itself. *)
Definition slot_free (body : Program) : Prop :=
  Forall (fun i => i = IEnter \/ i = IExit) body.

(** What is left of a task that runs behind the semaphore: all of it, or its
    body from some point on with the release still to come, or nothing. *)
Definition behind_semaphore (p : Program) : Prop :=
  p = [] \/
  exists body, slot_free body /\ (p = with_semaphore body \/ p = (body ++ [IRelease])%list).

(** Such a task holds a slot when it has started and has not finished. *)
Definition holds_slot (p : Program) : bool :=
  match p with
  | [] => false
  | IAcquire :: _ => false
  | _ => true
  end.

Definition slots_held (s : Sched) : nat :=
  length (filter (fun p => holds_slot p = true) (tasks s)).

(** The orchestrator with another token validator. *)
Definition with_tokens (self : ProvisioningSystem) (tokens : TokenValidator)
  : ProvisioningSystem :=
  mkSystem (workspace_dir self) (models_dir self) (logs_dir self) (dry_run self)
    (max_concurrent self) tokens (hf_downloader self).

(** ** Observations on a run *)

Definition is_net_call (e : Event) : bool :=
  match e with
  | ENet _ _ => true
  | _ => false
  end.

(** The network calls made so far. *)
Definition net_calls (w : World) : list Event :=
  filter (fun e => is_net_call e = true) (trace w).

(** The placeholder [_execute_concurrent_downloads] builds for the task at
    index [i] when it ended with the exception [e]. *)
Definition placeholder (i : nat) (e : exn) : PyObj :=
  ODownloadResult
    (mkDownloadResult ("model_" ++ str_nat i) false (Some (str_exn e)) None None).

(** The two platforms of the validator's contract, and the probe of each. *)
Inductive Platform := Hub | Marketplace.

Definition token_of (p : Platform) (self : TokenValidator) : option string :=
  match p with
  | Hub => hf_token self
  | Marketplace => civitai_token self
  end.

Definition validate (p : Platform) (self : TokenValidator) : M bool :=
  match p with
  | Hub => validate_hf_token self
  | Marketplace => validate_civitai_token self
  end.

Definition empty_world : World := mkWorld ∅ ∅ [] [].

Definition is_fs_write (e : Event) : bool :=
  match e with
  | EMkdir _ | EOpen _ | EUnlink _ => true
  | _ => false
  end.

(** The directories created and the files opened for writing or removed so
    far. *)
Definition fs_writes (w : World) : list Event :=
  filter (fun e => is_fs_write e = true) (trace w).

Definition is_error_log (e : Event) : bool :=
  match e with
  | ELogError _ => true
  | _ => false
  end.

(** The records logged at the level of an error so far. *)
Definition error_logs (w : World) : list Event :=
  filter (fun e => is_error_log e = true) (trace w).

(** The trace of [w'] continues that of [w]. *)
Definition trace_grows (w w' : World) : Prop :=
  exists tr, trace w' = (trace w ++ tr)%list.

(** The first line of the block [_log_gated_model_error] writes. *)
Definition gated_denied : Event := ELogError "🔒 GATED MODEL ACCESS DENIED".

(** The file system is as it was, and nothing was done to it in between. *)
Definition fs_untouched (w w' : World) : Prop :=
  files w' = files w /\ dirs w' = dirs w /\ fs_writes w' = fs_writes w.

(** No request was made. *)
Definition net_untouched (w w' : World) : Prop :=
  net w' = net w /\ net_calls w' = net_calls w.

(** At most log records were added. *)
Definition quiet (w w' : World) : Prop :=
  fs_untouched w w' /\ net_untouched w w'.

(** A computation all of whose runs relate the world before to the world
    after by [R], however they end. *)
Definition preserves {A : Type} (R : World -> World -> Prop) (m : M A) : Prop :=
  forall w r w', m w = (r, w') -> R w w'.

(** The same of a coroutine that can wait for ever: every run that comes back
    relates the worlds. *)
Definition preserves_a {A : Type} (R : World -> World -> Prop) (m : Awaitable A) : Prop :=
  forall w r w', m w = Some (r, w') -> R w w'.

(** The entries of one category for which the typed loop can build a
    [ModelConfig], with the configuration built for each. *)
Definition constructible_in (dir : string) (items : list (string * ModelConfigPydantic))
  : list ModelConfig :=
  flat_map
    (fun item =>
       match build_model_config (fst item) dir (snd item) with
       | Ok mc => [mc]
       | Raise _ => []
       end)
    items.

(** The same over the whole manifest. *)
Definition constructible (self : ProvisioningSystem) (config : ProvisionConfigPydantic)
  : list ModelConfig :=
  flat_map
    (fun category =>
       constructible_in (path_join (models_dir self) (_get_category_dir (fst category)))
         (snd category))
    config.

(** All the model entries of a manifest. *)
Definition entries (config : ProvisionConfigPydantic) : list (string * ModelConfigPydantic) :=
  flat_map snd config.

(** The resolution order the specification gives for the name of the
    downloaded file: the explicit name, else what the adapter discovered, else
    the model's name with the suffix [.safetensors]. *)
Definition spec_resolve_filename (explicit : string) (discovered : option string)
    (model_name : string) : string :=
  if negb (is_empty explicit) then explicit
  else if truthy discovered then or_empty discovered
       else model_name ++ ".safetensors".

(** ** Concrete inputs for the examples *)

(** [p] cut at its last slash: what stands before it, if there is one, and
    what stands after it. *)
Fixpoint rsplit_slash (p : string) : option string * string :=
  match p with
  | EmptyString => (None, EmptyString)
  | String c rest =>
      match rsplit_slash rest with
      | (Some d, n) => (Some (String c d), n)
      | (None, n) =>
          if Ascii.eqb c "/" then (Some EmptyString, n) else (None, String c n)
      end
  end.

Definition demo_path_name (p : string) : string := snd (rsplit_slash p).

Definition demo_path_parent (p : string) : string :=
  match fst (rsplit_slash p) with
  | Some EmptyString => "/"
  | Some d => d
  | None => "."
  end.

Fixpoint after_scheme (u : string) : string :=
  match u with
  | EmptyString => EmptyString
  | String c rest =>
      if String.prefix "://" u then String.substring 3 (String.length u) u
      else after_scheme rest
  end.

Fixpoint from_first_slash (u : string) : string :=
  match u with
  | EmptyString => EmptyString
  | String c rest => if Ascii.eqb c "/" then u else from_first_slash rest
  end.

Fixpoint until_query (u : string) : string :=
  match u with
  | EmptyString => EmptyString
  | String c rest =>
      if Ascii.eqb c "?" || Ascii.eqb c "#" then EmptyString
      else String c (until_query rest)
  end.

Definition demo_url_path (u : string) : string :=
  until_query (from_first_slash (after_scheme u)).

(** A runtime for the examples.  Its path and URL functions agree with the
    Python library on the plain absolute paths and [https] URLs used there;
    [process_url] is the identity, as it is on every URL that names no Google
    Drive file; the hub client refuses every request; the manifest parser
    yields [raw] and its validation yields [typed]. *)
Definition demo_runtime (raw : RawConfig) (typed : ProvisionConfigPydantic) : Runtime :=
  mkRuntime (fun u => u) demo_url_path demo_path_name demo_path_parent
    (fun _ => None)
    (fun _ => raise (mkExn HubError "401 Client Error"))
    (fun _ _ _ => raise (mkExn HubError "404 Client Error"))
    (fun _ => raise (mkExn HubError "Invalid user token"))
    (fun _ => Ok raw) (fun _ => Ok typed) 1000.

(** A reply with the given status and nothing else of interest. *)
Definition plain_response (st : Z) : Response :=
  mkResponse st (Raise (mkExn JSONDecodeError "Expecting value")) (Ok EmptyString)
    (Ok 0%Z) None [] None.

(** A 200 reply carrying JSON. *)
Definition json_response (data : JVal) : Response :=
  mkResponse 200 (Ok data) (Ok EmptyString) (Ok 0%Z) None [] None.

(** A 200 reply whose body stops with [e] after the chunks [cs]. *)
Definition broken_response (cs : list string) (e : exn) : Response :=
  mkResponse 200 (Raise (mkExn JSONDecodeError "Expecting value")) (Ok EmptyString)
    (Ok 4096%Z) None cs (Some e).

Definition lora_dir : string := "/workspace/forge/models/Lora".

Definition models_root : string := "/workspace/forge/models".

(** An orchestrator as [ProvisioningSystem("/workspace")] builds it, with the
    hub library installed; [dry] is the value [cli.py] then gives [dry_run]. *)
Definition demo_system (dry : bool) (limit : nat) (tokens : TokenValidator)
  : ProvisioningSystem :=
  mkSystem "/workspace" models_root "/workspace/logs" dry limit tokens
    (HuggingFaceDownloader_init true).

(** A world in which the two directories the constructor makes exist. *)
Definition demo_world (replies : list Reply) : World :=
  mkWorld ∅ ({[models_root]} ∪ {["/workspace/logs"]}) replies [].

Definition no_tokens : TokenValidator := mkTokenValidator None None.

Definition both_tokens : TokenValidator := mkTokenValidator (Some "hf_abc") (Some "cv_abc").

(** A hub entry with its file. *)
Definition good_entry : ModelConfigPydantic :=
  mkPydantic (Some "huggingface") (Some "org/model") None None None (Some "weights.bin")
    false [].

(** A marketplace entry as the manifest parser accepts it: it names its model
    under the key [model_id], which the typed configuration does not have, so
    its [version_id] is absent. *)
Definition bad_entry : ModelConfigPydantic :=
  mkPydantic (Some "civitai") None None None None None false [].

Definition bad_raw : RawModel :=
  mkRaw (Some "civitai") None None None None None None None.

(** A gated hub entry, as the typed configuration and as the parsed table. *)
Definition gated_entry : ModelConfigPydantic :=
  mkPydantic (Some "huggingface") (Some "org/gated") None None None (Some "weights.bin")
    true [].

Definition gated_raw : RawModel :=
  mkRaw (Some "huggingface") (Some "org/gated") None None None (Some "weights.bin")
    (Some true) None.

(** The same table without the [source] key: the repository alone tells the
    source. *)
Definition sourceless_gated_raw : RawModel :=
  mkRaw None (Some "org/gated") None None None (Some "weights.bin") (Some true) None.

(** A direct-URL entry given as a bare string. *)
Definition url_entry (u : string) : RawEntry := RawUrl u.

(** ** validators/tokens.py, the remaining methods *)

(** [sum(results.values())] over booleans *)
Definition sum_bools (bs : list bool) : nat :=
  length (filter (fun b => b = true) bs).

(** [TokenValidator.validate_all_tokens].  Neither probe raises, so the
    [asyncio.gather] of the two is their results in order; the probes are
    taken one after the other, as in [gather] above. *)
Definition validate_all_tokens (self : TokenValidator) : M (list (string * bool)) :=
  let* hf_valid := validate_hf_token self in
  let* civitai_valid := validate_civitai_token self in
  let results := [("huggingface", hf_valid); ("civitai", civitai_valid)] in
  let valid_count := sum_bools (map snd results) in
  let total_count :=
    length (filter (fun token => truthy token = true)
              [hf_token self; civitai_token self]) in
  (if (total_count =? 0)%nat then log_warning "No authentication tokens found"
   else if (valid_count =? total_count)%nat then ret tt
   else log_warning (str_nat valid_count ++ "/" ++ str_nat total_count
                     ++ " tokens are valid")) ;;;
  ret results.

Definition hf_model_url (repo_id : string) : string :=
  "https://huggingface.co/api/models/" ++ repo_id.

Definition civitai_version_url (model_id : string) : string :=
  "https://civitai.com/api/v1/model-versions/" ++ model_id.

(** [TokenValidator._check_hf_repo_access] *)
Definition _check_hf_repo_access (self : TokenValidator) (repo_id : string) : M bool :=
  if negb (truthy (hf_token self)) then ret false
  else
    try_except
      (let* response := request "GET" (hf_model_url repo_id) in
       if (status response =? 200)%Z then ret true
       else if (status response =? 404)%Z then
         log_warning ("Repository " ++ repo_id ++ " not found") ;;; ret false
       else if (status response =? 403)%Z then
         log_warning ("Access denied to repository " ++ repo_id) ;;; ret false
       else
         log_warning ("Unexpected status " ++ str_Z (status response)
                      ++ " for " ++ repo_id) ;;;
         ret false)
      (fun e =>
         log_error ("Error checking HF repo access: " ++ str_exn e) ;;;
         ret false).

(** [TokenValidator._check_civitai_model_access] *)
Definition _check_civitai_model_access (self : TokenValidator) (model_id : string)
  : M bool :=
  if negb (truthy (civitai_token self)) then ret false
  else
    try_except
      (let* response := request "GET" (civitai_version_url model_id) in
       if (status response =? 200)%Z then ret true
       else if (status response =? 404)%Z then
         log_warning ("Model " ++ model_id ++ " not found") ;;; ret false
       else if (status response =? 403)%Z then
         log_warning ("Access denied to model " ++ model_id) ;;; ret false
       else
         log_warning ("Unexpected status " ++ str_Z (status response)
                      ++ " for model " ++ model_id) ;;;
         ret false)
      (fun e =>
         log_error ("Error checking CivitAI model access: " ++ str_exn e) ;;;
         ret false).

(** [TokenValidator.check_repo_access] *)
Definition check_repo_access (self : TokenValidator) (repo_id platform : string) : M bool :=
  if String.eqb platform "huggingface" then _check_hf_repo_access self repo_id
  else if String.eqb platform "civitai" then _check_civitai_model_access self repo_id
  else log_error ("Unknown platform: " ++ platform) ;;; ret false.

(** [TokenValidator.get_token_status] *)
Definition get_token_status (self : TokenValidator) : list (string * string) :=
  [("huggingface", if truthy (hf_token self) then "present" else "missing");
   ("civitai", if truthy (civitai_token self) then "present" else "missing")].

(** The URL each probe asks. *)
Definition probe_url (p : Platform) : string :=
  match p with
  | Hub => hf_whoami_url
  | Marketplace => civitai_probe_url
  end.

(** What a probe needs of the reply to answer true: status 200 and, for the
    hub, a body that is a JSON object. *)
Definition reply_accepts (p : Platform) (reply : Reply) : bool :=
  match reply with
  | NetError _ => false
  | NetReply r =>
      (status r =? 200)%Z &&
      match p with
      | Hub => match resp_json r with Ok (JObj _) => true | _ => false end
      | Marketplace => true
      end
  end.

(** The requests a computation adds to the trace when the token is set. *)
Definition requests_if (token : option string) (target : string) : list Event :=
  if truthy token then [ENet "GET" target] else [].

(** ** Observations on the adapters *)

(** The body of a reply: its chunks, one after the other. *)
Definition body_of (r : Response) : string :=
  fold_right String.append EmptyString (chunks r).

(** What the hub client is documented to do with the file it is asked for:
    [hf_hub_download] writes under a temporary name and moves the file to
    [local_dir / filename] once it is complete, so a call that does not hand
    back a path leaves at that path what was there; [repo_info] only asks the
    hub. *)
Definition client_moves_whole_files (rt : Runtime) (repo_id filename local_dir : string)
  : Prop :=
  let target := path_join local_dir filename in
  (forall w r w', repo_info rt repo_id w = (r, w') ->
                  exists_in w' target = exists_in w target) /\
  (forall w r w', hf_hub_download rt repo_id filename local_dir w = (r, w') ->
                  match r with Ok p => truthy p = false | Raise _ => True end ->
                  exists_in w' target = exists_in w target).

(** The temporary name of the hub client. *)
Definition incomplete_path (local_dir filename : string) : string :=
  local_dir ++ "/.cache/huggingface/download/" ++ filename ++ ".incomplete".

(** A hub client whose download breaks off after one chunk: the chunk is in
    the temporary file when the exception is raised. *)
Definition interrupted_client (chunk : string) (e : exn)
    (repo_id filename local_dir : string) : M (option string) :=
  let tmp := incomplete_path local_dir filename in
  open_wb tmp ;;; write tmp chunk ;;; raise e.

(** The runtime of the examples with that client. *)
Definition hub_runtime : Runtime :=
  mkRuntime (fun u => u) demo_url_path demo_path_name demo_path_parent
    (fun _ => None)
    (fun _ => ret tt)
    (interrupted_client "ab" (mkExn TimeoutError "timed out"))
    (fun _ => ret tt)
    (fun _ => Ok []) (fun _ => Ok []) 1000.

(** A reply that is Drive's virus-scan warning page, with the link [href] to
    confirm the download. *)
Definition warning_page (rt : Runtime) (r : Response) (href : string) : Prop :=
  status r = 200%Z /\
  exists content, resp_text r = Ok content /\
                  contains "Google Drive - Virus scan warning" content = true /\
                  confirm_href rt content = Some href.

(** The URL the adapter builds from the link of a warning page. *)
Definition confirm_url (href : string) : string := "https://drive.google.com" ++ href.

(** The requests of a chain of [k] confirmations that starts at [url]. *)
Definition confirm_requests (url href : string) (k : nat) : list Event :=
  match k with
  | O => []
  | S k' => ENet "GET" url :: replicate k' (ENet "GET" (confirm_url href))
  end.

(** The URL asked after [k] confirmations. *)
Definition confirmed_url (url href : string) (k : nat) : string :=
  match k with
  | O => url
  | S _ => confirm_url href
  end.

(** The status of the next reply is not 200, or there is no reply. *)
Definition next_reply_refuses (w : World) : Prop :=
  match net w with
  | NetReply r :: _ => status r <> 200%Z
  | _ => True
  end.
(** Between [w] and [w'] exactly one request was made, with the given method
    and URL, and nothing was done to the file system. *)
Definition asked_once (method target : string) (w w' : World) : Prop :=
  fs_untouched w w' /\ net w' = tl (net w) /\
  net_calls w' = (net_calls w ++ [ENet method target])%list.

(** A warning page and the link it carries, for the examples. *)
Definition demo_warning_text : string :=
  "<title>Google Drive - Virus scan warning</title>".

Definition demo_confirm_link : string := "/uc?export=download&confirm=t&id=F1".

(** The runtime of the examples, with a confirm pattern that finds
    [demo_confirm_link] in [demo_warning_text] and no link anywhere else. *)
Definition drive_runtime : Runtime :=
  mkRuntime (fun u => u) demo_url_path demo_path_name demo_path_parent
    (fun content => if String.eqb content demo_warning_text
                    then Some demo_confirm_link else None)
    (fun _ => raise (mkExn HubError "401 Client Error"))
    (fun _ _ _ => raise (mkExn HubError "404 Client Error"))
    (fun _ => raise (mkExn HubError "Invalid user token"))
    (fun _ => Ok []) (fun _ => Ok []) 1000.

Definition demo_warning_page : Response :=
  mkResponse 200 (Raise (mkExn JSONDecodeError "Expecting value")) (Ok demo_warning_text)
    (Ok 0%Z) None [] None.

(** ** Observations on the orchestrator *)

(** The exception Python raises when core.py calls the marketplace adapter:
    the call names a parameter the method does not have. *)
Definition civitai_call_error : exn :=
  mkExn TypeError
    "CivitAIDownloader.download() got an unexpected keyword argument 'version_id'".

(** The configuration a coroutine object was made for. *)
Definition coroutine_config (c : Coroutine) : ModelConfig :=
  match c with
  | CoHuggingFace mc | CoCivitAI mc | CoDirectURL mc => mc
  end.
(** [ModelSource.value] *)
Definition ModelSource_value (src : ModelSource) : string :=
  match src with
  | HUGGINGFACE => "huggingface"
  | CIVITAI => "civitai"
  | DIRECT_URL => "url"
  end.

(** The field [__post_init__] asks of a configuration, by its source. *)
Definition required_field (c : ModelConfig) : option string :=
  match source c with
  | HUGGINGFACE => repo c
  | CIVITAI => version_id c
  | DIRECT_URL => url c
  end.

(** [model_config.get("source", self._detect_source(model_config))] *)
Definition entry_source (d : RawModel) : string :=
  match r_source d with
  | Some v => v
  | None => _detect_source d
  end.

Section FileTasks.

Variable rt : Runtime.

(** The task [_create_download_task] returns for an entry, if any. *)
Definition file_task (self : ProvisioningSystem) (model_name : string)
    (entry : RawEntry) (dir : string) : option (M bool) :=
  match entry with
  | RawUrl _ => Some (_download_direct_url rt self model_name entry dir)
  | RawDict d =>
      if String.eqb (entry_source d) "huggingface" then
        Some (_download_huggingface_model rt self model_name d dir)
      else if String.eqb (entry_source d) "civitai" then
        Some (_download_civitai_model rt self model_name d dir)
      else if String.eqb (entry_source d) "url" then
        Some (_download_direct_url rt self model_name entry dir)
      else None
  end.

(** The tasks [_download_models] collects from a manifest, in order. *)
Definition file_tasks (self : ProvisioningSystem) (config : RawConfig) : list (M bool) :=
  flat_map
    (fun category =>
       flat_map
         (fun item =>
            match file_task self (fst item) (snd item)
                    (path_join (models_dir self) (_get_category_dir (fst category))) with
            | Some t => [t]
            | None => []
            end)
         (snd category))
    config.

End FileTasks.

(** A marketplace entry the parser accepts, [source = "civitai"] with
    [model_id = 12345], as core.py reads its table: of the keys it looks up
    the table has [source] only. *)
Definition marketplace_raw : RawModel :=
  mkRaw (Some "civitai") None None None None None None None.

(** ** config/parser.py: the manifest as [tomllib.loads] returns it *)

(** A TOML value.  A table is kept as its items, in order. *)
#[local] Unset Elimination Schemes.
Inductive TVal :=
| TStr (s : string)
| TInt (n : Z)
| TFloat (q : Q)
| TBool (b : bool)
| TDatetime (s : string)
| TArr (l : list TVal)
| TTable (m : list (string * TVal)).
#[local] Set Elimination Schemes.

(** [d[k] = v]: the item of an existing key keeps its place, a new key goes
    to the end. *)
Fixpoint setitem (k : string) (v : TVal) (d : list (string * TVal))
  : list (string * TVal) :=
  match d with
  | [] => [(k, v)]
  | (k', v') :: rest =>
      if String.eqb k k' then (k, v) :: rest else (k', v') :: setitem k v rest
  end.

(** [raise Exception(msg)] *)
Definition fail {A : Type} (msg : string) : Res A := Raise (mkExn GenericException msg).

(** [s.startswith("http://") or s.startswith("https://")] *)
Definition is_http (s : string) : bool :=
  String.prefix "http://" s || String.prefix "https://" s.

(** [v == s] for a string literal [s] *)
Definition is_str (v : TVal) (s : string) : bool :=
  match v with
  | TStr x => String.eqb x s
  | _ => false
  end.

(** [str(model_id)] for the values [isinstance(model_id, (str, int))] lets
    through; in Python [bool] is a subclass of [int]. *)
Definition str_of_id (v : TVal) : option string :=
  match v with
  | TStr s => Some s
  | TInt n => Some (str_Z n)
  | TBool true => Some "True"
  | TBool false => Some "False"
  | _ => None
  end.

(** Truthiness of a TOML value. *)
Definition tval_truthy (v : TVal) : bool :=
  match v with
  | TStr s => negb (is_empty s)
  | TInt n => negb (n =? 0)%Z
  | TFloat q => negb (Qeq_bool q 0)
  | TBool b => b
  | TDatetime _ => true
  | TArr l => match l with [] => false | _ => true end
  | TTable m => match m with [] => false | _ => true end
  end.

Module ConfigParser.

(** [ConfigParser._detect_source] *)
Definition _detect_source (model_config : list (string * TVal)) : string :=
  match assoc_get "repo" model_config with
  | Some _ => "huggingface"
  | None =>
      match assoc_get "model_id" model_config with
      | Some _ => "civitai"
      | None =>
          match assoc_get "url" model_config with
          | Some _ => "url"
          | None => "unknown"
          end
      end
  end.

(** [ConfigParser._validate_hf_config] *)
Definition _validate_hf_config (model_name : string) (config : list (string * TVal))
  : Res unit :=
  match assoc_get "repo" config with
  | None =>
      fail ("HuggingFace model '" ++ model_name ++ "' missing required 'repo' field")
  | Some repo =>
      if negb (match repo with TStr s => contains "/" s | _ => false end) then
        fail ("HuggingFace model '" ++ model_name
              ++ "' 'repo' must be in format 'user/repo'")
      else
        match assoc_get "file" config with
        | Some (TStr _) | None => Ok tt
        | Some _ =>
            fail ("HuggingFace model '" ++ model_name ++ "' 'file' must be a string")
        end
  end.

(** [ConfigParser._validate_civitai_config]; the result is the dict after the
    call, with [model_id] turned into a string. *)
Definition _validate_civitai_config (model_name : string)
    (config : list (string * TVal)) : Res (list (string * TVal)) :=
  match assoc_get "model_id" config with
  | None =>
      fail ("CivitAI model '" ++ model_name ++ "' missing required 'model_id' field")
  | Some model_id =>
      match str_of_id model_id with
      | None =>
          fail ("CivitAI model '" ++ model_name
                ++ "' 'model_id' must be string or integer")
      | Some s => Ok (setitem "model_id" (TStr s) config)
      end
  end.

(** [ConfigParser._validate_url_config] *)
Definition _validate_url_config (model_name : string) (config : list (string * TVal))
  : Res unit :=
  match assoc_get "url" config with
  | None => fail ("URL model '" ++ model_name ++ "' missing required 'url' field")
  | Some (TStr u) =>
      if negb (is_http u) then
        fail ("URL model '" ++ model_name
              ++ "' 'url' must start with http:// or https://")
      else Ok tt
  | Some _ => fail ("URL model '" ++ model_name ++ "' 'url' must be a string")
  end.

(** [model_config.get("source", self._detect_source(model_config))] *)
Definition source_of (d : list (string * TVal)) : TVal :=
  match assoc_get "source" d with
  | Some v => v
  | None => TStr (_detect_source d)
  end.

(** [ConfigParser._validate_model_config]; the result is the entry after the
    call. *)
Definition _validate_model_config (model_name : string) (model_config : TVal)
    (category : string) : Res TVal :=
  match model_config with
  | TStr u =>
      if negb (is_http u) then
        fail ("Model '" ++ model_name ++ "' URL must start with http:// or https://")
      else Ok model_config
  | TTable d =>
      let source := source_of d in
      if is_str source "huggingface" then
        match _validate_hf_config model_name d with
        | Ok _ => Ok model_config
        | Raise e => Raise e
        end
      else if is_str source "civitai" then
        match _validate_civitai_config model_name d with
        | Ok d' => Ok (TTable d')
        | Raise e => Raise e
        end
      else if is_str source "url" then
        match _validate_url_config model_name d with
        | Ok _ => Ok model_config
        | Raise e => Raise e
        end
      else fail ("Model '" ++ model_name ++ "' has unknown or missing source type")
  | _ => fail ("Model '" ++ model_name ++ "' config must be string or dictionary")
  end.

(** The inner loop of [_validate_config], over the items of one category. *)
Fixpoint validate_models (category : string) (model_list : list (string * TVal))
  : Res (list (string * TVal)) :=
  match model_list with
  | [] => Ok []
  | (model_name, model_config) :: rest =>
      match _validate_model_config model_name model_config category with
      | Raise e => Raise e
      | Ok v =>
          match validate_models category rest with
          | Raise e => Raise e
          | Ok rest' => Ok ((model_name, v) :: rest')
          end
      end
  end.

(** The outer loop of [_validate_config], over the categories. *)
Fixpoint validate_categories (models : list (string * TVal))
  : Res (list (string * TVal)) :=
  match models with
  | [] => Ok []
  | (category, model_list) :: rest =>
      match model_list with
      | TTable ml =>
          match validate_models category ml with
          | Raise e => Raise e
          | Ok ml' =>
              match validate_categories rest with
              | Raise e => Raise e
              | Ok rest' => Ok ((category, TTable ml') :: rest')
              end
          end
      | _ => fail ("Model category '" ++ category ++ "' must be a dictionary")
      end
  end.

(** [ConfigParser._validate_config].  The method returns nothing and changes
    the dict in place; the result here is the dict after the call.  When the
    method raises, both of its callers let the exception pass and the dict is
    dropped. *)
Definition _validate_config (config : list (string * TVal))
  : Res (list (string * TVal)) :=
  match assoc_get "models" config with
  | None => fail "Configuration missing required 'models' section"
  | Some (TTable models) =>
      match validate_categories models with
      | Raise e => Raise e
      | Ok models' => Ok (setitem "models" (TTable models') config)
      end
  | Some _ => fail "'models' section must be a dictionary"
  end.

(** [len(models) if isinstance(models, dict) else 0] *)
Definition count_of (models : TVal) : nat :=
  match models with
  | TTable m => length m
  | _ => O
  end.

(** The loop of [get_model_count]; the local variables are [counts] and
    [total]. *)
Definition count_step (acc : gmap string nat * nat) (item : string * TVal)
  : gmap string nat * nat :=
  (<[fst item := count_of (snd item)]> (fst acc), (snd acc + count_of (snd item))%nat).

(** [ConfigParser.get_model_count] *)
Definition get_model_count (config : list (string * TVal)) : Res (gmap string nat) :=
  match default (TTable []) (assoc_get "models" config) with
  | TTable categories =>
      let acc := fold_left count_step categories (∅, O) in
      Ok (<["total" := snd acc]> (fst acc))
  | _ => Raise (mkExn AttributeError "object has no attribute 'items'")
  end.

End ConfigParser.

(** What the validation leaves in an entry it accepted. *)
Definition entry_well_formed (v : TVal) : Prop :=
  match v with
  | TStr u => is_http u = true
  | TTable d =>
      (is_str (ConfigParser.source_of d) "huggingface" = true /\
       exists repo, assoc_get "repo" d = Some (TStr repo) /\ contains "/" repo = true) \/
      (is_str (ConfigParser.source_of d) "civitai" = true /\
       exists id, assoc_get "model_id" d = Some (TStr id)) \/
      (is_str (ConfigParser.source_of d) "url" = true /\
       exists u, assoc_get "url" d = Some (TStr u) /\ is_http u = true)
  | _ => False
  end.

(** Every category of [models] is a table of well-formed entries. *)
Definition models_well_formed (models : list (string * TVal)) : Prop :=
  Forall (fun category =>
            exists ml, snd category = TTable ml /\
                       Forall (fun item => entry_well_formed (snd item)) ml)
         models.

(** The sum of the counts of all categories. *)
Definition sum_counts (categories : list (string * TVal)) : nat :=
  fold_right (fun item n => (ConfigParser.count_of (snd item) + n)%nat) O categories.

(** A manifest for the examples: a marketplace entry whose [model_id] is an
    integer, and a direct URL. *)
Definition demo_manifest : list (string * TVal) :=
  [("models",
    TTable [("lora", TTable [("style", TTable [("model_id", TInt 12345)]);
                             ("detail", TStr "https://example.com/detail.safetensors")])])].

(** The table of [marketplace_raw] as the parser gets it. *)
Definition marketplace_table : TVal :=
  TTable [("source", TStr "civitai"); ("model_id", TInt 12345)].

(** ** cli.py *)

(** The namespace [parser.parse_args()] returns. *)
Record Args := mkArgs {
  args_config : string;
  args_dry_run : bool;
  args_workspace : option string
}.

(** [provisioner.dry_run = True] *)
Definition set_dry_run (self : ProvisioningSystem) : ProvisioningSystem :=
  mkSystem (workspace_dir self) (models_dir self) (logs_dir self) true
    (max_concurrent self) (token_validator self) (hf_downloader self).

(** The orchestrator [main] works with, once the constructor returned
    [created]. *)
Definition provisioner_of (args : Args) (created : ProvisioningSystem)
  : ProvisioningSystem :=
  if args_dry_run args then set_dry_run created else created.

(** [main]: the result is the status it hands to [sys.exit], which is not an
    [Exception] and so passes the handler; what it prints is left out.  The
    constructor is called outside the [try], so its exception is not caught. *)
Definition main (rt : Runtime) (environ : gmap string string) (available : bool)
    (args : Args) : Awaitable Z :=
  await* created :=
    returns (ProvisioningSystem_init rt environ available (args_workspace args) 5) in
  let provisioner := provisioner_of args created in
  try_except_a
    (await* success :=
       (if is_http (args_config args) then
          await* result := provision_from_url rt provisioner (args_config args) in
          returns (ret (failed_downloads result =? 0)%Z)
        else returns (provision_from_file rt provisioner (args_config args))) in
     returns (ret (if success then 0 else 1)%Z))
    (fun e => ret 1%Z).

(** ** utils/progress.py

    The tracker reads the clock with [time.time()]; each reading is an
    argument of the method that makes it.  Times and the quotients of [/] are
    rationals: the rounding of floats and their overflow are left out, the
    division by zero is kept. *)

Module Progress.

(** The value of an arithmetic expression, or the exception of a division by
    zero. *)
Inductive Arith (A : Type) :=
| Value (a : A)
| ZeroDivisionError.
Arguments Value {A} a.
Arguments ZeroDivisionError {A}.

(** [a / b] *)
Definition div (a b : Q) : Arith Q :=
  if Qeq_bool b 0 then ZeroDivisionError else Value (a / b)%Q.

(** [int(x)]: the integer part, toward zero. *)
Definition int (x : Q) : Z := Z.quot (Qnum x) (Zpos (Qden x)).

(** The dict kept for one download; [end_time] is there once it completed. *)
Record Download := mkDownload {
  start_time : Q;
  total_size : option Z;
  downloaded : Z;
  last_update : Q;
  status : string;
  end_time : option Q
}.

Record ProgressTracker := mkTracker {
  downloads : gmap string Download;
  tracker_start_time : Q
}.

(** [ProgressTracker.__init__] *)
Definition init (now : Q) : ProgressTracker := mkTracker ∅ now.

(** [ProgressTracker.start_download]; the clock is read twice. *)
Definition start_download (self : ProgressTracker) (model_name : string)
    (size : option Z) (now now' : Q) : ProgressTracker :=
  mkTracker
    (<[model_name := mkDownload now size 0 now' "downloading" None]> (downloads self))
    (tracker_start_time self).

(** [ProgressTracker.update_progress] *)
Definition update_progress (self : ProgressTracker) (model_name : string)
    (count : Z) (now : Q) : ProgressTracker :=
  match downloads self !! model_name with
  | Some d =>
      mkTracker
        (<[model_name := mkDownload (start_time d) (total_size d) count now (status d)
                           (end_time d)]> (downloads self))
        (tracker_start_time self)
  | None => self
  end.

(** [ProgressTracker.complete_download] *)
Definition complete_download (self : ProgressTracker) (model_name : string)
    (success : bool) (now : Q) : ProgressTracker :=
  match downloads self !! model_name with
  | Some d =>
      mkTracker
        (<[model_name := mkDownload (start_time d) (total_size d) (downloaded d)
                           (last_update d) (if success then "completed" else "failed")
                           (Some now)]> (downloads self))
        (tracker_start_time self)
  | None => self
  end.

(** [ProgressTracker.get_progress] *)
Definition get_progress (self : ProgressTracker) (model_name : string) : option Download :=
  downloads self !! model_name.

(** [download.get("total_size")] when it is truthy: not [None] and not 0. *)
Definition known_size (d : Download) : option Z :=
  match total_size d with
  | Some n => if (n =? 0)%Z then None else Some n
  | None => None
  end.

(** [ProgressTracker.get_progress_percentage] *)
Definition get_progress_percentage (self : ProgressTracker) (model_name : string)
  : Arith (option Z) :=
  match downloads self !! model_name with
  | None => Value None
  | Some download =>
      match known_size download with
      | None => Value None
      | Some size =>
          match div (inject_Z (downloaded download * 100)) (inject_Z size) with
          | Value q => Value (Some (int q))
          | ZeroDivisionError => ZeroDivisionError
          end
      end
  end.

(** [ProgressTracker.get_download_speed] *)
Definition get_download_speed (self : ProgressTracker) (model_name : string) (now : Q)
  : Arith (option Q) :=
  match downloads self !! model_name with
  | None => Value None
  | Some download =>
      let elapsed := (now - start_time download)%Q in
      if Qle_bool elapsed 0 then Value None
      else
        match div (inject_Z (downloaded download)) (inject_Z (1024 * 1024)) with
        | ZeroDivisionError => ZeroDivisionError
        | Value mb_downloaded =>
            match div mb_downloaded elapsed with
            | ZeroDivisionError => ZeroDivisionError
            | Value speed => Value (Some speed)
            end
        end
  end.

(** [ProgressTracker.get_eta] *)
Definition get_eta (self : ProgressTracker) (model_name : string) (now : Q)
  : Arith (option Z) :=
  match downloads self !! model_name with
  | None => Value None
  | Some download =>
      match known_size download with
      | None => Value None
      | Some size =>
          match get_download_speed self model_name now with
          | ZeroDivisionError => ZeroDivisionError
          | Value None => Value None
          | Value (Some speed) =>
              if Qeq_bool speed 0 || Qle_bool speed 0 then Value None
              else
                let remaining_bytes := (size - downloaded download)%Z in
                match div (inject_Z remaining_bytes) (inject_Z (1024 * 1024)) with
                | ZeroDivisionError => ZeroDivisionError
                | Value remaining_mb =>
                    match div remaining_mb speed with
                    | ZeroDivisionError => ZeroDivisionError
                    | Value eta => Value (Some (int eta))
                    end
                end
          end
      end
  end.

(** The dict [get_overall_progress] returns. *)
Record Overall := mkOverall {
  total : Z;
  completed : Z;
  succeeded : Z;
  failed : Z;
  active : Z;
  percentage : Z;
  elapsed_time : Q;
  total_size_mb : Q;
  downloaded_mb : Q
}.

(** [self.downloads.values()] *)
Definition values (self : ProgressTracker) : list Download :=
  map snd (map_to_list (downloads self)).

(** [sum(1 for d in ... if p d)] *)
Definition count (p : Download -> bool) (ds : list Download) : Z :=
  Z.of_nat (length (filter (fun d => p d = true) ds)).

Definition sum_Z (l : list Z) : Z := fold_right Z.add 0%Z l.

(** [ProgressTracker.get_overall_progress] *)
Definition get_overall_progress (self : ProgressTracker) (now : Q) : Arith Overall :=
  let total_downloads := Z.of_nat (length (values self)) in
  let completed :=
    count (fun d => String.eqb (status d) "completed" || String.eqb (status d) "failed")
      (values self) in
  let succeeded := count (fun d => String.eqb (status d) "completed") (values self) in
  let failed := count (fun d => String.eqb (status d) "failed") (values self) in
  let active := (total_downloads - completed)%Z in
  let size := sum_Z (map (fun d => default 0%Z (known_size d)) (values self)) in
  let total_downloaded := sum_Z (map downloaded (values self)) in
  let elapsed := (now - tracker_start_time self)%Q in
  match
    (if (0 <? size)%Z then
       match div (inject_Z (total_downloaded * 100)) (inject_Z size) with
       | Value q => Value (int q)
       | ZeroDivisionError => ZeroDivisionError
       end
     else if (0 <? total_downloads)%Z then
       match div (inject_Z (completed * 100)) (inject_Z total_downloads) with
       | Value q => Value (int q)
       | ZeroDivisionError => ZeroDivisionError
       end
     else Value 0%Z),
    (if (0 <? size)%Z then div (inject_Z size) (inject_Z (1024 * 1024)) else Value 0%Q),
    div (inject_Z total_downloaded) (inject_Z (1024 * 1024))
  with
  | Value overall_percentage, Value size_mb, Value done_mb =>
      Value (mkOverall total_downloads completed succeeded failed active
               overall_percentage elapsed size_mb done_mb)
  | _, _, _ => ZeroDivisionError
  end.

End Progress.

(** A download counts as active when it is neither completed nor failed. *)
Definition is_active (d : Progress.Download) : bool :=
  negb (String.eqb (Progress.status d) "completed"
        || String.eqb (Progress.status d) "failed").

(** ** utils/urls.py

    The three patterns of [process_url] are a literal followed by the group
    [([a-zA-Z0-9_-]+)]; [re.search] on such a pattern is written out below.
    The message the method logs is of level info, which the trace does not
    keep. *)

Module URLProcessor.

(** A character of the class [[a-zA-Z0-9_-]]. *)
Definition is_id_char (c : ascii) : bool :=
  let n := nat_of_ascii c in
  ((97 <=? n) && (n <=? 122))%nat || ((65 <=? n) && (n <=? 90))%nat
  || ((48 <=? n) && (n <=? 57))%nat || Ascii.eqb c "_" || Ascii.eqb c "-".

(** What the greedy [[a-zA-Z0-9_-]*] takes at the start of a string. *)
Fixpoint take_id (s : string) : string :=
  match s with
  | String c rest => if is_id_char c then String c (take_id rest) else EmptyString
  | EmptyString => EmptyString
  end.

(** The rest of [s] after the literal [lit], when [s] starts with it. *)
Fixpoint strip_prefix (lit s : string) : option string :=
  match lit with
  | EmptyString => Some s
  | String a lit' =>
      match s with
      | String b s' => if Ascii.eqb a b then strip_prefix lit' s' else None
      | EmptyString => None
      end
  end.

(** [re.match(lit + "([a-zA-Z0-9_-]+)", s)]: group 1 of the match. *)
Definition match_at (lit s : string) : option string :=
  match strip_prefix lit s with
  | Some rest =>
      match take_id rest with
      | EmptyString => None
      | file_id => Some file_id
      end
  | None => None
  end.

(** [re.search(lit + "([a-zA-Z0-9_-]+)", s)]: group 1 of the leftmost match. *)
Fixpoint search_id (lit s : string) : option string :=
  match match_at lit s with
  | Some file_id => Some file_id
  | None =>
      match s with
      | String _ rest => search_id lit rest
      | EmptyString => None
      end
  end.

Definition google_drive_patterns : list string :=
  ["drive.google.com/file/d/"; "drive.google.com/uc?id="; "docs.google.com/uc?id="].

Definition direct_url (file_id : string) : string :=
  "https://drive.google.com/uc?export=download&id=" ++ file_id.

(** The loop over the patterns of [process_url]. *)
Fixpoint first_match (patterns : list string) (url : string) : option string :=
  match patterns with
  | [] => None
  | pattern :: rest =>
      match search_id pattern url with
      | Some file_id => Some (direct_url file_id)
      | None => first_match rest url
      end
  end.

(** [URLProcessor.process_url] *)
Definition process_url (url : string) : string :=
  match first_match google_drive_patterns url with
  | Some direct => direct
  | None =>
      if contains "drive.google.com/uc" url && contains "export=download" url then url
      else url
  end.

(** [URLProcessor.is_google_drive_url] *)
Definition is_google_drive_url (url : string) : bool :=
  existsb (fun domain => contains domain url) ["drive.google.com"; "docs.google.com"].

(** [URLProcessor.is_s3_url] *)
Definition is_s3_url (url : string) : bool :=
  existsb (fun pattern => contains pattern url) ["amazonaws.com"; "s3."; ".s3-"].

(** [str(b)] *)
Definition str_bool (b : bool) : string := if b then "True" else "False".

(** [URLProcessor.get_url_info] *)
Definition get_url_info (url : string) : list (string * TVal) :=
  let info := [("type", TStr "generic"); ("url", TStr url)] in
  if is_google_drive_url url then
    let info := setitem "type" (TStr "google_drive") info in
    setitem "needs_processing" (TStr (str_bool (negb (contains "export=download" url)))) info
  else if is_s3_url url then setitem "type" (TStr "s3") info
  else if contains "github.com" url then setitem "type" (TStr "github") info
  else if contains "gitlab.com" url then setitem "type" (TStr "gitlab") info
  else info.

End URLProcessor.

(** Every character of [s] is of the class of file ids. *)
Definition is_file_id (s : string) : bool :=
  forallb URLProcessor.is_id_char (list_ascii_of_string s).

(** * Properties *)

(** ** The summary model *)

Lemma inject_Z_nonzero (z : Z) : z <> 0%Z -> ~ inject_Z z == 0.
Proof.
  intros Hz H. apply Hz. unfold Qeq, inject_Z in H. simpl in H. lia.
Qed.

Lemma new_location_exact (nb_steps : Z) : new_location nb_steps 0 = loc_Exact.
Proof.
  unfold new_location. destruct (Z.even nb_steps); reflexivity.
Qed.

(** The division of an integer by itself: 53 more bits of the dividend give
    the quotient [2 ^ 53] with no remainder. *)
Lemma div_core_same (p : positive) :
  SFdiv_core_binary 53 1024 (Zpos p) 0 (Zpos p) 0 = ((2 ^ 53)%Z, (-53)%Z, loc_Exact).
Proof.
  unfold SFdiv_core_binary.
  replace (Zdigits2 (Z.pos p) + 0 - (Zdigits2 (Z.pos p) + 0))%Z with 0%Z by lia.
  change (Z.min (fexp 53 1024 0) (0 - 0)) with (-53)%Z.
  change (0 - 0 - -53)%Z with 53%Z.
  cbv beta iota zeta.
  rewrite Z.shiftl_mul_pow2 by lia.
  assert (H : Z.div_eucl (Z.pos p * 2 ^ 53) (Z.pos p) = ((2 ^ 53)%Z, 0%Z)).
  { rewrite Z.mul_comm.
    pose proof (Z.div_mul (2 ^ 53) (Z.pos p) ltac:(lia)) as Hq.
    pose proof (Z.mod_mul (2 ^ 53) (Z.pos p) ltac:(lia)) as Hr.
    unfold Z.div in Hq. unfold Z.modulo in Hr.
    destruct (Z.div_eucl (2 ^ 53 * Z.pos p) (Z.pos p)) as [q r]. subst. reflexivity. }
  rewrite H. rewrite new_location_exact. reflexivity.
Qed.

Lemma int_truediv_same (n : Z) : n <> 0%Z -> int_truediv n n = Ok (float_of_Z 1).
Proof.
  intros Hn. unfold int_truediv. destruct (Z.eqb_spec n 0) as [E | _]; [contradiction |].
  destruct n as [| p | p]; [contradiction | |]; cbn [int_operand SFdiv];
    rewrite div_core_same; reflexivity.
Qed.

Lemma int_truediv_zero (n : Z) :
  n <> 0%Z -> int_truediv 0 n = Ok (S754_zero (n <? 0)%Z).
Proof.
  intros Hn. unfold int_truediv. destruct (Z.eqb_spec n 0) as [E | _]; [contradiction |].
  destruct n as [| p | p]; [contradiction | |]; reflexivity.
Qed.

Lemma success_rate_all (s : ProvisioningSummary) :
  total_models s <> 0%Z -> successful_downloads s = total_models s ->
  success_rate s = Ok (float_of_Z 100).
Proof.
  intros Hne Hall. unfold success_rate.
  destruct (Z.eqb_spec (total_models s) 0) as [E | _]; [contradiction |].
  rewrite Hall, (int_truediv_same _ Hne). reflexivity.
Qed.

(** ** Rounding to the nearest float *)

Section Rounding.
Local Open Scope Z_scope.

(** The number of bits of a positive integer. *)
Lemma digits2_pos_bounds (p : positive) :
  2 ^ (Z.pos (digits2_pos p) - 1) <= Z.pos p < 2 ^ Z.pos (digits2_pos p).
Proof.
  induction p as [p IH | p IH |]; cbn [digits2_pos].
  - rewrite Pos2Z.inj_succ, (Pos2Z.inj_xI p).
    replace (Z.succ (Z.pos (digits2_pos p)) - 1) with (Z.succ (Z.pos (digits2_pos p) - 1))
      by lia.
    rewrite !Z.pow_succ_r by lia.
    destruct IH as [Hlo Hhi]. revert Hlo Hhi.
    generalize (2 ^ (Z.pos (digits2_pos p) - 1)), (2 ^ Z.pos (digits2_pos p)). lia.
  - rewrite Pos2Z.inj_succ, (Pos2Z.inj_xO p).
    replace (Z.succ (Z.pos (digits2_pos p)) - 1) with (Z.succ (Z.pos (digits2_pos p) - 1))
      by lia.
    rewrite !Z.pow_succ_r by lia.
    destruct IH as [Hlo Hhi]. revert Hlo Hhi.
    generalize (2 ^ (Z.pos (digits2_pos p) - 1)), (2 ^ Z.pos (digits2_pos p)). lia.
  - cbn. lia.
Qed.

Lemma digits_unique (p : positive) (d : Z) :
  2 ^ (d - 1) <= Z.pos p < 2 ^ d -> 0 < d -> Z.pos (digits2_pos p) = d.
Proof.
  intros [Hlo Hhi] Hd. pose proof (digits2_pos_bounds p) as [Hlo' Hhi'].
  assert (H1 : d - 1 < Z.pos (digits2_pos p)).
  { apply (Z.pow_lt_mono_r_iff 2); lia. }
  assert (H2 : Z.pos (digits2_pos p) - 1 < d).
  { apply (Z.pow_lt_mono_r_iff 2); lia. }
  lia.
Qed.

Lemma shr_1_locates (mrs : shr_record) (N D : Z) :
  0 < D -> locates mrs N D -> locates (shr_1 mrs) N (2 * D).
Proof.
  intros HD. destruct mrs as [m r s]. unfold locates. cbn [shr_m shr_r shr_s].
  intros (Hm & Hbound & Hloc).
  destruct m as [| p | p]; [| | lia].
  - destruct r, s; cbn [shr_1 shr_m shr_r shr_s orb]; lia.
  - destruct p as [p | p |]; destruct r, s; cbn [shr_1 shr_m shr_r shr_s orb];
      rewrite ?(Pos2Z.inj_xI p), ?(Pos2Z.inj_xO p) in *; nia.
Qed.

Lemma iter_shr_1_locates (p : positive) (mrs : shr_record) (N D : Z) :
  0 < D -> locates mrs N D -> locates (SpecFloat.iter_pos shr_1 p mrs) N (2 ^ Z.pos p * D).
Proof.
  revert mrs D. induction p as [p IH | p IH |]; intros mrs D HD Hloc; cbn [SpecFloat.iter_pos].
  - rewrite (Pos2Z.inj_xI p).
    replace (2 ^ (2 * Z.pos p + 1) * D) with (2 ^ Z.pos p * (2 ^ Z.pos p * (2 * D))).
    2: { rewrite Z.pow_add_r, Z.pow_mul_r by lia. change (2 ^ 2) with 4.
         rewrite Z.pow_1_r.
         replace (4 ^ Z.pos p) with (2 ^ Z.pos p * 2 ^ Z.pos p).
         2: { rewrite <- Z.pow_mul_l. reflexivity. }
         ring. }
    apply IH; [nia |]. apply IH; [lia |]. apply shr_1_locates; assumption.
  - rewrite (Pos2Z.inj_xO p).
    replace (2 ^ (2 * Z.pos p) * D) with (2 ^ Z.pos p * (2 ^ Z.pos p * D)).
    2: { rewrite Z.pow_mul_r by lia. change (2 ^ 2) with 4.
         replace (4 ^ Z.pos p) with (2 ^ Z.pos p * 2 ^ Z.pos p).
         2: { rewrite <- Z.pow_mul_l. reflexivity. }
         ring. }
    apply IH; [nia |]. apply IH; assumption.
  - change (2 ^ 1) with 2. apply shr_1_locates; assumption.
Qed.

Lemma round_nearest_even_locates (mrs : shr_record) (N D : Z) :
  0 < D -> locates mrs N D ->
  shr_m mrs <= round_nearest_even (shr_m mrs) (loc_of_shr_record mrs) <= shr_m mrs + 1 /\
  2 * Z.abs (round_nearest_even (shr_m mrs) (loc_of_shr_record mrs) * D - N) <= D.
Proof.
  intros HD. destruct mrs as [m r s]. unfold locates. cbn [shr_m shr_r shr_s].
  intros (Hm & Hbound & Hloc).
  destruct r, s; cbn [loc_of_shr_record round_nearest_even];
    try destruct (Z.even m); split; lia.
Qed.

(** The shift that brings a mantissa of [d] bits down to 53 bits. *)
Lemma shr_locates (mrs : shr_record) (e n N D : Z) :
  0 < D -> 0 <= n -> locates mrs N D ->
  exists mrs', shr mrs e n = (mrs', e + n) /\ locates mrs' N (2 ^ n * D).
Proof.
  intros HD Hn Hloc. destruct n as [| p | p]; [| | lia].
  - exists mrs. cbn [shr]. rewrite Z.add_0_r, Z.pow_0_r, Z.mul_1_l. auto.
  - exists (SpecFloat.iter_pos shr_1 p mrs). cbn [shr]. split; [reflexivity |].
    apply iter_shr_1_locates; assumption.
Qed.

Lemma fexp_normal (e : Z) : -1074 <= e - 53 -> fexp 53 1024 e = e - 53.
Proof. intros He. unfold fexp, emin. lia. Qed.

(** Rounding a located fraction whose integer part has at least 53 bits,
    in the range of the normal numbers: the result is a float of 53 bits
    within half a unit in the last place of the fraction. *)
Lemma binary_round_aux_normal (sx : bool) (mx : positive) (ex : Z) (lx : location)
    (N D : Z) :
  0 < D ->
  locates (shr_record_of_loc (Z.pos mx) lx) N D ->
  shr_m (shr_record_of_loc (Z.pos mx) lx) = Z.pos mx ->
  2 ^ 52 <= Z.pos mx ->
  -1074 <= ex -> ex + Z.pos (digits2_pos mx) <= 1023 ->
  exists m k,
    binary_round_aux 53 1024 sx (Z.pos mx) ex lx = S754_finite sx m (ex + k) /\
    0 <= k <= Z.pos (digits2_pos mx) - 52 /\
    2 ^ 52 <= Z.pos m < 2 ^ 53 /\
    2 * Z.abs (Z.pos m * (2 ^ k * D) - N) <= 2 ^ k * D.
Proof.
  intros HD Hloc Hm Hmx Hex Hmax.
  pose proof (digits2_pos_bounds mx) as [Hdlo Hdhi].
  set (d := Z.pos (digits2_pos mx)) in *.
  assert (Hd : 53 <= d).
  { assert (52 < d); [| lia]. apply (Z.pow_lt_mono_r_iff 2); lia. }
  unfold binary_round_aux, shr_fexp. cbn [Zdigits2]. fold d.
  rewrite fexp_normal by lia.
  replace (d + ex - 53 - ex) with (d - 53) by lia.
  destruct (shr_locates _ ex (d - 53) N D HD ltac:(lia) Hloc) as (mrs' & -> & Hloc').
  set (n := d - 53) in *.
  assert (Hpow : 0 < 2 ^ n) by (apply Z.pow_pos_nonneg; lia).
  assert (Hd53 : 2 ^ d = 2 ^ n * 2 ^ 53).
  { rewrite <- Z.pow_add_r by lia. f_equal. lia. }
  assert (Hd52 : 2 ^ (d - 1) = 2 ^ n * 2 ^ 52).
  { rewrite <- Z.pow_add_r by lia. f_equal. lia. }
  assert (Hm' : 2 ^ 52 <= shr_m mrs' < 2 ^ 53).
  { destruct Hloc as (_ & Hb & _). destruct Hloc' as (_ & Hb' & _).
    rewrite Hm in Hb. rewrite Hd53 in Hdhi. rewrite Hd52 in Hdlo.
    revert Hpow Hb Hb' Hdhi Hdlo. generalize (2 ^ 52), (2 ^ 53), (2 ^ n), (shr_m mrs').
    intros a b c m' Hc Hb Hb' Hdhi Hdlo. split.
    - assert (a * (c * D) < (m' + 1) * (c * D)) by nia.
      assert (Hcd : 0 < c * D) by nia.
      assert (a < m' + 1); [| lia].
      apply (Z.mul_lt_mono_pos_r (c * D)); assumption.
    - assert (m' * (c * D) < b * (c * D)) by nia.
      assert (Hcd : 0 < c * D) by nia.
      apply (Z.mul_lt_mono_pos_r (c * D)); assumption. }
  destruct (round_nearest_even_locates mrs' N (2 ^ n * D) ltac:(nia) Hloc')
    as [Hr Herr].
  set (mr := round_nearest_even (shr_m mrs') (loc_of_shr_record mrs')) in *.
  destruct (Z.eq_dec mr (2 ^ 53)) as [Hcarry | Hnocarry].
  - (* the rounding carries into a 54th bit *)
    rewrite Hcarry in *. change (2 ^ 53) with (Z.pos (9007199254740992)).
    cbn [Zdigits2]. change (Z.pos (digits2_pos 9007199254740992)) with 54.
    rewrite fexp_normal by lia.
    replace (54 + (ex + n) - 53 - (ex + n)) with 1 by lia.
    cbn [shr shr_record_of_loc SpecFloat.iter_pos shr_1 shr_m].
    replace (ex + n + 1 <=? 1024 - 53) with true by (symmetry; apply Z.leb_le; lia).
    exists 4503599627370496%positive, (n + 1). split; [f_equal; lia |].
    split; [lia |]. split; [change (2 ^ 52) with 4503599627370496;
      change (2 ^ 53) with 9007199254740992; lia |].
    rewrite Z.pow_add_r, Z.pow_1_r by lia.
    change (2 ^ 53) with 9007199254740992 in Herr.
    revert Hpow Herr. generalize (2 ^ n). intros c Hc Herr. nia.
  - assert (Hmr : 2 ^ 52 <= mr < 2 ^ 53) by lia.
    destruct mr as [| q | q] eqn:Eq;
      [change (2 ^ 52) with 4503599627370496 in Hmr; lia | |
       change (2 ^ 52) with 4503599627370496 in Hmr; lia].
    cbn [Zdigits2]. rewrite (digits_unique q 53) by (change (53 - 1) with 52; lia).
    rewrite fexp_normal by lia.
    replace (53 + (ex + n) - 53 - (ex + n)) with 0 by lia.
    cbn [shr shr_record_of_loc shr_m].
    replace (ex + n <=? 1024 - 53) with true by (symmetry; apply Z.leb_le; lia).
    exists q, n. split; [reflexivity |]. split; [lia |]. split; [assumption |].
    exact Herr.
Qed.

Lemma shr_m_of_loc (m : Z) (l : location) : shr_m (shr_record_of_loc m l) = m.
Proof. destruct l as [| []]; reflexivity. Qed.

(** The location computed from the remainder of a division. *)
Lemma new_location_locates (b q r : Z) :
  0 < b -> 0 <= r < b -> 0 <= q ->
  locates (shr_record_of_loc q (new_location b r)) (b * q + r) b.
Proof.
  intros Hb Hr Hq. unfold new_location.
  destruct (Z.even b) eqn:Eb; unfold new_location_even, new_location_odd;
    destruct (Z.eqb_spec r 0) as [-> | Hr0].
  - unfold locates. cbn. lia.
  - destruct (Z.compare_spec (2 * r) b); unfold locates; cbn; lia.
  - unfold locates. cbn. lia.
  - assert (Hodd : Z.odd b = true) by (rewrite <- Z.negb_even, Eb; reflexivity).
    apply Z.odd_spec in Hodd. destruct Hodd as [c Hc].
    destruct (Z.compare_spec (2 * r + 1) b); unfold locates; cbn; lia.
Qed.

Lemma float_of_100 : float_of_Z 100 = S754_finite false 7036874417766400 (-46).
Proof. reflexivity. Qed.

(** The quotient of two positive integers below [2 ^ 53]: a float of 53
    bits within half a unit in the last place. *)
Lemma int_truediv_close (a b : positive) :
  Z.pos a < 2 ^ 53 -> Z.pos b < 2 ^ 53 ->
  exists m S k,
    int_truediv (Z.pos a) (Z.pos b) = Ok (S754_finite false m (k - S)) /\
    1 <= S <= 105 /\ 0 <= k <= 2 /\
    2 ^ 52 <= Z.pos m < 2 ^ 53 /\
    2 * Z.abs (Z.pos m * (2 ^ k * Z.pos b) - Z.pos a * 2 ^ S) <= 2 ^ k * Z.pos b.
Proof.
  intros Ha Hb.
  pose proof (digits2_pos_bounds a) as [Halo Hahi].
  pose proof (digits2_pos_bounds b) as [Hblo Hbhi].
  set (d1 := Z.pos (digits2_pos a)) in *. set (d2 := Z.pos (digits2_pos b)) in *.
  assert (Hd1 : 1 <= d1 <= 53).
  { split; [unfold d1; lia |]. assert (d1 - 1 < 53); [| lia].
    apply (Z.pow_lt_mono_r_iff 2); lia. }
  assert (Hd2 : 1 <= d2 <= 53).
  { split; [unfold d2; lia |]. assert (d2 - 1 < 53); [| lia].
    apply (Z.pow_lt_mono_r_iff 2); lia. }
  unfold int_truediv. cbn [Z.eqb int_operand SFdiv]. unfold SFdiv_core_binary.
  cbn [Zdigits2]. fold d1 d2.
  rewrite fexp_normal by lia.
  replace (Z.min (d1 + 0 - (d2 + 0) - 53) (0 - 0)) with (d1 - d2 - 53) by lia.
  set (S := 53 - d1 + d2).
  replace (0 - 0 - (d1 - d2 - 53)) with S by (unfold S; lia).
  assert (HS : 1 <= S <= 105) by (unfold S; lia).
  destruct S as [| pS | pS] eqn:ES; [lia | | lia]. rewrite <- ES in *.
  rewrite Z.shiftl_mul_pow2 by lia.
  pose proof (Z_div_mod (Z.pos a * 2 ^ S) (Z.pos b) ltac:(lia)) as Hdiv.
  destruct (Z.div_eucl (Z.pos a * 2 ^ S) (Z.pos b)) as [q r]. destruct Hdiv as [Hqr Hr].
  assert (HpS : 0 < 2 ^ S) by (apply Z.pow_pos_nonneg; lia).
  assert (Hlow : 2 ^ 52 * 2 ^ d2 <= Z.pos a * 2 ^ S).
  { replace (2 ^ 52 * 2 ^ d2) with (2 ^ (d1 - 1) * 2 ^ S).
    - apply Z.mul_le_mono_nonneg_r; lia.
    - rewrite <- !Z.pow_add_r by lia. f_equal. unfold S in *. lia. }
  assert (Hhigh : Z.pos a * 2 ^ S < 2 ^ 54 * 2 ^ (d2 - 1)).
  { replace (2 ^ 54 * 2 ^ (d2 - 1)) with (2 ^ d1 * 2 ^ S).
    - apply Z.mul_lt_mono_pos_r; lia.
    - rewrite <- !Z.pow_add_r by lia. f_equal. unfold S in *. lia. }
  assert (Hq : 2 ^ 52 <= q < 2 ^ 54).
  { rewrite Hqr in Hlow, Hhigh.
    change (2 ^ 52) with 4503599627370496 in *. change (2 ^ 54) with 18014398509481984 in *.
    assert (H1 : 4503599627370496 * Z.pos b <= 4503599627370496 * 2 ^ d2)
      by (apply Z.mul_le_mono_nonneg_l; lia).
    assert (H2 : 18014398509481984 * 2 ^ (d2 - 1) <= 18014398509481984 * Z.pos b)
      by (apply Z.mul_le_mono_nonneg_l; lia).
    split.
    - assert (4503599627370496 < q + 1); [| lia].
      apply (Z.mul_lt_mono_pos_r (Z.pos b)); lia.
    - apply (Z.mul_lt_mono_pos_r (Z.pos b)); lia. }
  destruct q as [| pq | pq];
    [change (2 ^ 52) with 4503599627370496 in Hq; lia | |
     change (2 ^ 52) with 4503599627370496 in Hq; lia].
  assert (Hdq : Z.pos (digits2_pos pq) <= 54).
  { pose proof (digits2_pos_bounds pq) as [Hqlo _].
    assert (Z.pos (digits2_pos pq) - 1 < 54); [| lia].
    apply (Z.pow_lt_mono_r_iff 2); lia. }
  destruct (binary_round_aux_normal (xorb false false) pq (d1 - d2 - 53)
              (new_location (Z.pos b) r) (Z.pos a * 2 ^ S) (Z.pos b))
    as (m & k & Hrun & Hk & Hm & Herr).
  - lia.
  - rewrite Hqr. apply new_location_locates; lia.
  - apply shr_m_of_loc.
  - lia.
  - lia.
  - lia.
  - rewrite Hrun. cbn [xorb]. exists m, S, k. split.
    + do 2 f_equal. unfold S in *. lia.
    + repeat split; lia.
Qed.

(** The product of a float of 53 bits and [100.0]. *)
Lemma float_mul_100_close (m1 : positive) (e1 : Z) :
  2 ^ 52 <= Z.pos m1 < 2 ^ 53 -> -105 <= e1 <= 1 ->
  exists m k,
    float_mul (S754_finite false m1 e1) (float_of_Z 100)
    = S754_finite false m (e1 - 46 + k) /\
    0 <= k <= 54 /\
    2 ^ 52 <= Z.pos m < 2 ^ 53 /\
    2 * Z.abs (Z.pos m * 2 ^ k - Z.pos m1 * 7036874417766400) <= 2 ^ k.
Proof.
  intros Hm1 He1. rewrite float_of_100. unfold float_mul. cbn [SFmul xorb].
  change (2 ^ 52) with 4503599627370496 in Hm1.
  change (2 ^ 53) with 9007199254740992 in Hm1.
  assert (Hd : Z.pos (digits2_pos (m1 * 7036874417766400)) <= 106).
  { pose proof (digits2_pos_bounds (m1 * 7036874417766400)) as [Hlo _].
    assert (Z.pos (digits2_pos (m1 * 7036874417766400)) - 1 < 106); [| lia].
    apply (Z.pow_lt_mono_r_iff 2); [lia | lia |].
    eapply Z.le_lt_trans; [exact Hlo |].
    change (2 ^ 106) with (9007199254740992 * 9007199254740992). lia. }
  destruct (binary_round_aux_normal false (m1 * 7036874417766400) (e1 + -46)
              loc_Exact (Z.pos (m1 * 7036874417766400)) 1)
    as (m & k & Hrun & Hk & Hm & Herr).
  - lia.
  - unfold locates. cbn. lia.
  - reflexivity.
  - change (2 ^ 52) with 4503599627370496. lia.
  - lia.
  - lia.
  - rewrite Hrun. exists m, k. split; [f_equal; lia |]. split; [lia |].
    split; [exact Hm |]. rewrite !Z.mul_1_r in Herr.
    rewrite Pos2Z.inj_mul in Herr. exact Herr.
Qed.

(** Two roundings, each within [2 ^ -53] of its result, stay within
    [2 ^ -51] of the exact value. *)
Lemma two_roundings (W Y P : Z) :
  9007199254740991 * Z.abs (W - Y) <= Y ->
  9007199254740991 * Z.abs (Y - P) <= P ->
  2 ^ 51 * Z.abs (W - P) <= P.
Proof. change (2 ^ 51) with 2251799813685248. lia. Qed.

Lemma close_in_Q (W P G : Z) :
  0 < G -> 2 ^ 51 * Z.abs (W - P) <= P ->
  (Qabs (inject_Z W / inject_Z G - inject_Z P / inject_Z G)
   <= inject_Z P / inject_Z G * (1 # 2 ^ 51))%Q.
Proof.
  intros HG Hclose. destruct G as [| g | g]; [lia | | lia].
  rewrite <- !Qmake_Qdiv. apply Qabs_Qle_condition.
  change (2 ^ 51) with 2251799813685248 in Hclose.
  unfold Qle, Qminus, Qplus, Qopp, Qmult. cbn [Qnum Qden].
  rewrite !Pos2Z.inj_mul. change (Z.pos (2 ^ 51)) with 2251799813685248.
  split; nia.
Qed.

Lemma Qpower_2_difference (k j : Z) :
  0 <= k -> 0 <= j -> (2 ^ (k - j) == inject_Z (2 ^ k) / inject_Z (2 ^ j))%Q.
Proof.
  intros Hk Hj. rewrite Qpower_minus by discriminate.
  rewrite !Zpower_Qpower by assumption. reflexivity.
Qed.

(** Between the end cases the rate is the exact percentage up to the two
    roundings of the division and of the product. *)
Lemma success_rate_close (s : ProvisioningSummary) :
  0 < successful_downloads s < 2 ^ 53 -> 0 < total_models s < 2 ^ 53 ->
  exists m e,
    success_rate s = Ok (S754_finite false m e) /\
    (Qabs (float_value (S754_finite false m e) - exact_percentage s)
     <= exact_percentage s * (1 # 2 ^ 51))%Q.
Proof.
  unfold exact_percentage, success_rate.
  destruct (successful_downloads s) as [| a | a]; [lia | | lia].
  destruct (total_models s) as [| b | b]; [lia | | lia].
  intros [_ Ha] [_ Hb]. cbn [Z.eqb].
  destruct (int_truediv_close a b Ha Hb) as (m1 & S & k1 & -> & HS & Hk1 & Hm1 & Herr1).
  destruct (float_mul_100_close m1 (k1 - S) Hm1 ltac:(lia))
    as (m2 & k2 & -> & Hk2 & Hm2 & Herr2).
  exists m2, (k1 - S - 46 + k2). split; [reflexivity |].
  assert (HK1 : 0 < 2 ^ k1) by (apply Z.pow_pos_nonneg; lia).
  assert (HK2 : 0 < 2 ^ k2) by (apply Z.pow_pos_nonneg; lia).
  assert (HG : 0 < 2 ^ S) by (apply Z.pow_pos_nonneg; lia).
  set (W := Z.pos m2 * 2 ^ k2 * (2 ^ k1 * Z.pos b)).
  set (Y := Z.pos m1 * (2 ^ k1 * Z.pos b) * 7036874417766400).
  set (P := Z.pos a * 2 ^ S * 7036874417766400).
  set (G := 2 ^ S * 70368744177664 * Z.pos b).
  assert (Hclose : 2 ^ 51 * Z.abs (W - P) <= P).
  { apply (two_roundings W Y P).
    - replace (W - Y)
        with ((Z.pos m2 * 2 ^ k2 - Z.pos m1 * 7036874417766400) * (2 ^ k1 * Z.pos b))
        by (unfold W, Y; ring).
      rewrite Z.abs_mul, (Z.abs_eq (2 ^ k1 * Z.pos b)) by lia.
      replace Y with (Z.pos m1 * 7036874417766400 * (2 ^ k1 * Z.pos b))
        by (unfold Y; ring).
      rewrite Z.mul_assoc. apply Z.mul_le_mono_nonneg_r; [lia |].
      assert (2 ^ 52 * 2 ^ k2 <= Z.pos m2 * 2 ^ k2)
        by (apply Z.mul_le_mono_nonneg_r; lia).
      change (2 ^ 52) with 4503599627370496 in *. lia.
    - replace (Y - P)
        with ((Z.pos m1 * (2 ^ k1 * Z.pos b) - Z.pos a * 2 ^ S) * 7036874417766400)
        by (unfold Y, P; ring).
      rewrite Z.abs_mul, (Z.abs_eq 7036874417766400) by lia.
      unfold P. rewrite Z.mul_assoc. apply Z.mul_le_mono_nonneg_r; [lia |].
      assert (2 ^ 52 * (2 ^ k1 * Z.pos b) <= Z.pos m1 * (2 ^ k1 * Z.pos b))
        by (apply Z.mul_le_mono_nonneg_r; lia).
      change (2 ^ 52) with 4503599627370496 in *. lia. }
  assert (HGpos : 0 < G) by (unfold G; lia).
  assert (Hvalue : (float_value (S754_finite false m2 (k1 - S - 46 + k2))
                    == inject_Z W / inject_Z G)%Q).
  { unfold float_value, W, G.
    replace (k1 - S - 46 + k2) with (k1 + k2 - (S + 46)) by lia.
    rewrite Qpower_2_difference by lia.
    rewrite !Z.pow_add_r by lia. change (2 ^ 46) with 70368744177664.
    rewrite !inject_Z_mult.
    assert ((0 < inject_Z (2 ^ S))%Q) by (unfold Qlt; cbn; lia).
    assert ((0 < inject_Z (Z.pos b))%Q) by (unfold Qlt; cbn; lia).
    field. repeat split; try discriminate; apply Qnot_eq_sym, Qlt_not_eq; assumption. }
  assert (Hexact : (100 * (inject_Z (Z.pos a) / inject_Z (Z.pos b))
                    == inject_Z P / inject_Z G)%Q).
  { unfold P, G. rewrite !inject_Z_mult.
    assert ((0 < inject_Z (2 ^ S))%Q) by (unfold Qlt; cbn; lia).
    assert ((0 < inject_Z (Z.pos b))%Q) by (unfold Qlt; cbn; lia).
    field. repeat split; try discriminate; apply Qnot_eq_sym, Qlt_not_eq; assumption. }
  rewrite Hvalue, Hexact. apply close_in_Q; assumption.
Qed.

End Rounding.

(** C5, as the code has it: the success rate of a summary is a percentage,
    not a ratio, and a binary float: it is [0.0] when no model was counted;
    otherwise it is the quotient of the successful downloads by the total,
    rounded to a float, times 100, rounded again.  That is exactly [100.0]
    when every download succeeded and a zero when none did; in between,
    for counts below [2 ^ 53], it is a positive float within a relative
    error of [2 ^ -51] of the exact percentage. *)
Theorem success_rate_percentage (s : ProvisioningSummary) :
  (total_models s = 0%Z -> success_rate s = Ok (float_of_Z 0)) /\
  (total_models s <> 0%Z ->
   (forall ratio,
      int_truediv (successful_downloads s) (total_models s) = Ok ratio ->
      success_rate s = Ok (float_mul ratio (float_of_Z 100))) /\
   (successful_downloads s = total_models s -> success_rate s = Ok (float_of_Z 100)) /\
   (successful_downloads s = 0%Z ->
    success_rate s = Ok (S754_zero (total_models s <? 0)%Z))) /\
  ((0 < successful_downloads s < 2 ^ 53)%Z -> (0 < total_models s < 2 ^ 53)%Z ->
   exists m e,
     success_rate s = Ok (S754_finite false m e) /\
     (Qabs (float_value (S754_finite false m e) - exact_percentage s)
      <= exact_percentage s * (1 # 2 ^ 51))%Q).
Proof.
  split; [| split].
  3: apply success_rate_close.
  - intros Hzero. unfold success_rate. rewrite Hzero. reflexivity.
  - intros Hne. split; [| split].
    + intros ratio Hratio. unfold success_rate.
      destruct (Z.eqb_spec (total_models s) 0) as [E | _]; [contradiction |].
      rewrite Hratio. reflexivity.
    + apply success_rate_all, Hne.
    + intros Hnone. unfold success_rate.
      destruct (Z.eqb_spec (total_models s) 0) as [E | _]; [contradiction |].
      rewrite Hnone, (int_truediv_zero _ Hne).
      destruct (total_models s <? 0)%Z; reflexivity.
Qed.

Lemma success_rate_percentage_witness :
  success_rate (mkSummary 4 4 0 0 []) = Ok (float_of_Z 100) /\
  success_rate (mkSummary 4 3 1 0 []) = Ok (float_of_Z 75) /\
  let third := mkSummary 3 1 2 0 [] in
  let rate := S754_finite false 4691249611844266 (-47) in
  success_rate third = Ok rate /\
  (exact_percentage third == 100 # 3)%Q /\
  (Qabs (float_value rate - exact_percentage third)
   <= exact_percentage third * (1 # 2 ^ 51))%Q.
Proof.
  destruct (success_rate_percentage (mkSummary 4 4 0 0 [])) as (_ & Hall & _).
  destruct (success_rate_percentage (mkSummary 4 3 1 0 [])) as (_ & Hsome & _).
  destruct (success_rate_percentage (mkSummary 3 1 2 0 [])) as (_ & _ & Hclose).
  split; [| split].
  - apply Hall; [discriminate | reflexivity].
  - destruct Hsome as [H _]; [discriminate |].
    rewrite (H (S754_finite false 6755399441055744 (-53)) eq_refl). reflexivity.
  - destruct Hclose as (m & e & Hrun & Hbound); [split; reflexivity .. |].
    vm_compute in Hrun. injection Hrun as <- <-.
    split; [reflexivity |]. split; [reflexivity | exact Hbound].
Defined.

(** C5 as the specification words it fails: with one success out of two
    models the rate is [50.0], not the quotient [0.5]. *)
Lemma success_rate_is_not_the_ratio :
  let s := mkSummary 2 1 1 0 [] in
  success_rate s = Ok (float_of_Z 50) /\
  int_truediv (successful_downloads s) (total_models s)
    = Ok (S754_finite false 4503599627370496 (-53)) /\
  success_rate s <> int_truediv (successful_downloads s) (total_models s).
Proof.
  split; [reflexivity |]. split; [reflexivity | discriminate].
Qed.

(** ** Results of the gathered tasks *)

Lemma gather_total {A : Type} (tasks : list (M A)) (w : World) :
  exists raw w', gather tasks w = (Ok raw, w') /\ length raw = length tasks.
Proof.
  revert w. induction tasks as [| t rest IH]; intros w; simpl.
  - exists [], w. split; reflexivity.
  - unfold bind, capture, ret. destruct (t w) as [r w1].
    destruct (IH w1) as (raw & w' & Hg & Hlen). rewrite Hg.
    exists (r :: raw), w'. split; [reflexivity | simpl; congruence].
Qed.

(** Each gathered result is what its task evaluated to, in some world. *)
Lemma gather_lookup {A : Type} (tasks : list (M A)) (w w' : World) (raw : list (Res A))
    (i : nat) (r : Res A) :
  gather tasks w = (Ok raw, w') -> raw !! i = Some r ->
  exists t wi wi', tasks !! i = Some t /\ t wi = (r, wi').
Proof.
  revert w raw i. induction tasks as [| t rest IH]; intros w raw i; simpl.
  - unfold ret. intros [= <- <-]. intros H. destruct i; discriminate H.
  - unfold bind, capture, ret. destruct (t w) as [r0 w1] eqn:Ht.
    destruct (gather rest w1) as [[rs | e] w2] eqn:Hg; [| discriminate].
    intros [= <- <-]. destruct i as [| i]; simpl.
    + intros [= <-]. exists t, w, w1. split; [reflexivity | exact Ht].
    + intros Hi. destruct (IH _ _ _ Hg Hi) as (t' & wi & wi' & Ht' & Hrun).
      exists t', wi, wi'. split; assumption.
Qed.

Lemma process_results_length (k : nat) (raw : list (Res PyObj)) :
  length (process_results k raw) = length raw.
Proof.
  revert k. induction raw as [| [v | e] rest IH]; intros k; simpl; [reflexivity | |];
    rewrite IH; reflexivity.
Qed.

Lemma process_results_lookup (k i : nat) (raw : list (Res PyObj)) (r : Res PyObj) :
  raw !! i = Some r ->
  process_results k raw !! i =
    Some (match r with
          | Ok v => v
          | Raise e => placeholder (k + i) e
          end).
Proof.
  revert k i. induction raw as [| r0 rest IH]; intros k i; [destruct i; discriminate |].
  destruct i as [| i]; simpl.
  - intros [= ->]. rewrite Nat.add_0_r. destruct r; reflexivity.
  - intros Hi. replace (k + S i)%nat with (S k + i)%nat by lia.
    destruct r0; simpl; apply IH; exact Hi.
Qed.

(** The gather of coroutines that all come back is the gather of their
    results. *)
Lemma gather_a_returns {A : Type} (tasks : list (M A)) (w : World) :
  gather_a (map returns tasks) w = Some (gather tasks w).
Proof.
  revert w. induction tasks as [| t rest IH]; intros w; [reflexivity |].
  cbn [map gather_a gather]. unfold returns at 1. unfold bind at 1, capture at 1.
  destruct (t w) as [r w1]. unfold bind_a, bind. rewrite IH.
  destruct (gather rest w1) as [[rs | e] w2]; reflexivity.
Qed.

(** A semaphore with a slot lets each task through in its turn. *)
Lemma semaphore_admits (self : ProvisioningSystem) (download_tasks : list (M PyObj)) :
  (0 < max_concurrent self)%nat ->
  map (download_with_semaphore self) download_tasks = map returns download_tasks.
Proof.
  intros Hslot. apply map_ext. intros task. unfold download_with_semaphore.
  destruct (max_concurrent self); [lia | reflexivity].
Qed.

(** A semaphore without a slot lets no task through: with a task to run, the
    gather never returns. *)
Lemma no_slot_no_result (self : ProvisioningSystem) (download_tasks : list (M PyObj))
    (w : World) :
  max_concurrent self = 0%nat -> download_tasks <> [] ->
  _execute_concurrent_downloads self download_tasks w = None.
Proof.
  intros Hnone Htasks. destruct download_tasks as [| t rest]; [contradiction |].
  unfold _execute_concurrent_downloads, bind_a. cbn [map gather_a].
  unfold download_with_semaphore at 1. rewrite Hnone. reflexivity.
Qed.

Lemma execute_concurrent_downloads_run (self : ProvisioningSystem)
    (download_tasks : list (M PyObj)) (w : World) :
  (0 < max_concurrent self)%nat ->
  exists raw w',
    gather download_tasks w = (Ok raw, w') /\
    _execute_concurrent_downloads self download_tasks w
      = Some (Ok (process_results 0 raw), w') /\
    length (process_results 0 raw) = length download_tasks.
Proof.
  intros Hslot. destruct (gather_total download_tasks w) as (raw & w' & Hg & Hlen).
  exists raw, w'. split; [exact Hg |]. split.
  - unfold _execute_concurrent_downloads, bind_a.
    rewrite (semaphore_admits self download_tasks Hslot), gather_a_returns, Hg.
    reflexivity.
  - rewrite process_results_length. exact Hlen.
Qed.

(** The digits [f"{i}"] writes are the decimal numeral of [i], so the index
    can be read back from them and no two indices are written alike. *)
Lemma str_nat_decimal (i : nat) :
  NilEmpty.uint_of_string (str_nat i) = Some (Nat.to_uint i).
Proof.
  unfold str_nat. apply NilEmpty.usu.
Qed.

Lemma str_nat_inj (i j : nat) : str_nat i = str_nat j -> i = j.
Proof.
  intros H. pose proof (str_nat_decimal i) as Hi. rewrite H, str_nat_decimal in Hi.
  injection Hi as Hi. rewrite <- (Unsigned.of_to i), <- (Unsigned.of_to j), Hi.
  reflexivity.
Qed.

(** C10: with a slot in its semaphore, [_execute_concurrent_downloads]
    returns one result per submitted task, in submission order; the result of
    a task that ended with an exception [e] is a failed [DownloadResult] whose
    name is [model_] followed by the decimal digits of the task's index, with
    [str(e)] as its message, and the result of any other task is passed
    through unchanged.  The model's own name plays no part. *)
Theorem exception_becomes_indexed_placeholder (self : ProvisioningSystem)
    (download_tasks : list (M PyObj)) (w : World) :
  (0 < max_concurrent self)%nat ->
  exists (raw : list (Res PyObj)) (w' : World),
    gather download_tasks w = (Ok raw, w') /\
    _execute_concurrent_downloads self download_tasks w
      = Some (Ok (process_results 0 raw), w') /\
    length (process_results 0 raw) = length download_tasks /\
    forall (i : nat) (r : Res PyObj),
      raw !! i = Some r ->
      (exists t wi wi', download_tasks !! i = Some t /\ t wi = (r, wi')) /\
      match r with
      | Raise e =>
          process_results 0 raw !! i = Some (placeholder i e) /\
          (forall d, placeholder i e = ODownloadResult d ->
                     model_name d = "model_" ++ str_nat i /\ success d = false /\
                     error_message d = Some (str_exn e)) /\
          NilEmpty.uint_of_string (str_nat i) = Some (Nat.to_uint i) /\
          (forall j, str_nat j = str_nat i -> j = i)
      | Ok v => process_results 0 raw !! i = Some v
      end.
Proof.
  intros Hslot.
  destruct (execute_concurrent_downloads_run self download_tasks w Hslot)
    as (raw & w' & Hg & Hrun & Hlen).
  exists raw, w'. split; [exact Hg |]. split; [exact Hrun |]. split; [exact Hlen |].
  intros i r Hi. split; [exact (gather_lookup _ _ _ _ _ _ Hg Hi) |].
  pose proof (process_results_lookup 0 i raw r Hi) as Hp. simpl in Hp.
  destruct r as [v | e]; [exact Hp |]. split; [exact Hp |]. split.
  - intros d [= <-]. simpl. repeat split.
  - split; [apply str_nat_decimal | intros j Hj; apply str_nat_inj, Hj].
Qed.

Lemma exception_becomes_indexed_placeholder_witness :
  let boom := mkExn TypeError "boom" in
  let sdxl := ODownloadResult (mkDownloadResult "sdxl" true None None None) in
  let failed name := ODownloadResult (mkDownloadResult name false (Some "boom") None None) in
  let self := mkSystem "/workspace" "/workspace/forge/models" "/workspace/logs" false 1
                (mkTokenValidator None None) (mkHF true (Some tt)) in
  exists results,
    _execute_concurrent_downloads self
      (raise boom :: (replicate 9 (ret sdxl) ++ [raise boom])%list) empty_world
    = Some (Ok results, empty_world) /\
    results !! 0%nat = Some (failed "model_0") /\
    results !! 1%nat = Some sdxl /\
    results !! 10%nat = Some (failed "model_10").
Proof.
  intros boom sdxl failed self.
  destruct (exception_becomes_indexed_placeholder self
              (raise boom :: (replicate 9 (ret sdxl) ++ [raise boom])%list) empty_world)
    as (raw & w' & Hg & Hrun & _ & Hall).
  { vm_compute. lia. }
  vm_compute in Hg. injection Hg as <- <-.
  eexists. split; [exact Hrun |].
  destruct (Hall 0%nat (Raise boom) eq_refl) as [_ [H0 _]].
  destruct (Hall 1%nat (Ok sdxl) eq_refl) as [_ H1].
  destruct (Hall 10%nat (Raise boom) eq_refl) as [_ [H10 _]].
  split; [exact H0 |]. split; [exact H1 | exact H10].
Defined.

(** ** Token validation *)

Lemma net_calls_snoc (f : gmap string string) (d : gset string) (n : list Reply)
    (tr : list Event) (e : Event) :
  net_calls (mkWorld f d n (tr ++ [e])) =
  (net_calls (mkWorld f d n tr) ++ (if is_net_call e then [e] else []))%list.
Proof.
  unfold net_calls. simpl. rewrite filter_app. f_equal.
  destruct e; reflexivity.
Qed.

(** C7: for each platform the probe never ends with an exception; without a
    token it answers false and makes no network call; and a reply whose
    status is outside 200..299 makes it answer false. *)
Theorem token_validation_contract (p : Platform) (self : TokenValidator) (w : World) :
  (exists b w', validate p self w = (Ok b, w')) /\
  (truthy (token_of p self) = false ->
   exists w', validate p self w = (Ok false, w') /\
              net_calls w' = net_calls w /\ net w' = net w) /\
  (forall r rest, net w = NetReply r :: rest ->
                  (status r < 200 \/ 300 <= status r)%Z ->
                  exists w', validate p self w = (Ok false, w')).
Proof.
  destruct p; simpl; unfold validate_hf_token, validate_civitai_token.
  - destruct (truthy (hf_token self)) eqn:Htok; simpl.
    + split; [| split; [discriminate |]].
      * unfold try_except, bind, request, lift, log_error, emit, ret.
        destruct (net w) as [| [e | r] rest]; simpl; eauto.
        destruct (status r =? 200)%Z; simpl; eauto.
        destruct (resp_json r) as [data | e]; simpl; eauto.
        destruct (jget data "name" (JStr "unknown")); simpl; eauto.
      * intros r rest Hnet Hst.
        unfold try_except, bind, request, lift, log_error, emit, ret.
        rewrite Hnet. simpl.
        destruct (Z.eqb_spec (status r) 200) as [E | _]; [lia |]. simpl. eauto.
    + split; [| split].
      * unfold bind, log_warning, emit, ret. simpl. eauto.
      * intros _. unfold bind, log_warning, emit, ret. simpl.
        eexists. split; [reflexivity |]. split; [| reflexivity].
        destruct w as [f d n tr]. simpl. rewrite net_calls_snoc. simpl.
        apply app_nil_r.
      * intros r rest _ _. unfold bind, log_warning, emit, ret. simpl. eauto.
  - destruct (truthy (civitai_token self)) eqn:Htok; simpl.
    + split; [| split; [discriminate |]].
      * unfold try_except, bind, request, lift, log_error, emit, ret.
        destruct (net w) as [| [e | r] rest]; simpl; eauto.
        destruct (status r =? 200)%Z; simpl; eauto.
      * intros r rest Hnet Hst.
        unfold try_except, bind, request, lift, log_error, emit, ret.
        rewrite Hnet. simpl.
        destruct (Z.eqb_spec (status r) 200) as [E | _]; [lia |]. simpl. eauto.
    + split; [| split].
      * unfold bind, log_warning, emit, ret. simpl. eauto.
      * intros _. unfold bind, log_warning, emit, ret. simpl.
        eexists. split; [reflexivity |]. split; [| reflexivity].
        destruct w as [f d n tr]. simpl. rewrite net_calls_snoc. simpl.
        apply app_nil_r.
      * intros r rest _ _. unfold bind, log_warning, emit, ret. simpl. eauto.
Qed.

Lemma token_validation_contract_witness :
  (exists w', validate Hub (mkTokenValidator None (Some "tok")) empty_world = (Ok false, w') /\
              net_calls w' = net_calls empty_world /\ net w' = net empty_world) /\
  (exists w', validate Marketplace (mkTokenValidator None (Some "tok"))
                (mkWorld ∅ ∅ [NetReply (plain_response 401)] []) = (Ok false, w')).
Proof.
  split.
  - destruct (token_validation_contract Hub (mkTokenValidator None (Some "tok")) empty_world)
      as (_ & H & _).
    apply H. reflexivity.
  - destruct (token_validation_contract Marketplace (mkTokenValidator None (Some "tok"))
                (mkWorld ∅ ∅ [NetReply (plain_response 401)] [])) as (_ & _ & H).
    apply (H (plain_response 401) []); [reflexivity | right; simpl; lia].
Defined.

(** ** Clean-up of partial files *)

Lemma exists_in_false (w : World) (p : string) :
  exists_in w p = false <-> (p ∉ dom (files w)) /\ (p ∉ dirs w).
Proof.
  unfold exists_in. rewrite orb_false_iff, !bool_decide_eq_false. reflexivity.
Qed.

Lemma cleanup_partial_spec (target : string) (w : World) :
  target ∉ dirs w ->
  exists w', cleanup_partial target w = (Ok tt, w') /\
             exists_in w' target = false /\ net w' = net w /\
             (target ∈ dom (files w) -> trace w' = (trace w ++ [EUnlink target])%list).
Proof.
  intros Hdir. unfold cleanup_partial, bind, path_exists, unlink, ret.
  destruct (exists_in w target) eqn:Hex.
  - unfold exists_in in Hex. rewrite (bool_decide_eq_false_2 _ Hdir), orb_false_r in Hex.
    rewrite Hex. eexists. split; [reflexivity |]. split; [| split; [reflexivity |]].
    + apply exists_in_false. simpl. split; [| exact Hdir].
      apply not_elem_of_dom, lookup_delete_eq.
    + intros _. reflexivity.
  - exists w. split; [reflexivity |]. split; [exact Hex |]. split; [reflexivity |].
    intros Hin. apply exists_in_false in Hex as [Hfile _]. contradiction.
Qed.

Lemma write_chunks_spec (p : string) (cs : list string) (w : World) :
  exists w', write_chunks p cs w = (Ok tt, w') /\
             dirs w' = dirs w /\ net w' = net w /\ trace w' = trace w /\
             (p ∈ dom (files w) -> p ∈ dom (files w')).
Proof.
  revert w. induction cs as [| c rest IH]; intros w; simpl.
  - exists w. repeat split. intros H; exact H.
  - unfold bind at 1. unfold write at 1.
    match goal with |- context [write_chunks p rest ?w1] =>
      destruct (IH w1) as (w' & Hrun & Hd & Hn & Ht & Hin) end.
    exists w'. rewrite Hrun. split; [reflexivity |]. repeat (split; [assumption |]).
    intros _. apply Hin. simpl. rewrite dom_insert_L. apply elem_of_union_l, elem_of_singleton.
    reflexivity.
Qed.

Lemma stream_to_spec (p : string) (r : Response) (w : World) :
  exists res w', stream_to p r w = (res, w') /\ dirs w' = dirs w /\ net w' = net w /\
    (p ∉ dirs w ->
     trace w' = (trace w ++ [EOpen p])%list /\ p ∈ dom (files w') /\
     res = match stream_error r with Some e => Raise e | None => Ok tt end).
Proof.
  unfold stream_to, bind at 1. unfold open_wb.
  destruct (bool_decide (p ∈ dirs w)) eqn:Hd.
  - eexists _, w. split; [reflexivity |]. split; [reflexivity |]. split; [reflexivity |].
    intros Hn. apply bool_decide_eq_true in Hd. contradiction.
  - unfold bind.
    match goal with |- context [write_chunks p (chunks r) ?w1] =>
      destruct (write_chunks_spec p (chunks r) w1) as (w' & Hrun & Hd' & Hn & Ht & Hin) end.
    rewrite Hrun. simpl in Hd', Hn, Ht, Hin.
    assert (Hp : p ∈ dom (files w')).
    { apply Hin. rewrite dom_insert_L. apply elem_of_union_l, elem_of_singleton. reflexivity. }
    destruct (stream_error r) as [e |]; unfold raise, ret;
      eexists _, w'; (split; [reflexivity |]); (split; [exact Hd' |]);
      (split; [exact Hn |]); intros _; (split; [exact Ht |]); (split; [exact Hp | reflexivity]).
Qed.

Section Transfer.

Variable rt : Runtime.

(** The part of both [_download_file] methods that follows a 200 reply. *)
Lemma save_response_spec (target : string) (r : Response) (w : World) :
  target ∉ dirs w -> path_parent rt target <> target ->
  exists res w',
    (let* total_size := lift (content_length r) in
     mkdir (path_parent rt target) ;;; stream_to target r ;;; ret true) w = (res, w') /\
    (target ∉ dirs w') /\ net w' = net w /\ res <> Ok false /\
    (forall n e, content_length r = Ok n -> stream_error r = Some e ->
                 path_parent rt target ∉ dom (files w) ->
                 res = Raise e /\ target ∈ dom (files w') /\
                 trace w' = (trace w ++ [EMkdir (path_parent rt target); EOpen target])%list).
Proof.
  intros Hdir Hpar. unfold bind at 1. unfold lift.
  destruct (content_length r) as [n | e].
  - unfold bind at 1. unfold mkdir.
    destruct (bool_decide (path_parent rt target ∈ dom (files w))) eqn:Hmk.
    + eexists _, w. split; [reflexivity |]. split; [exact Hdir |]. split; [reflexivity |].
      split; [discriminate |]. intros n' e' _ _ Hnot.
      apply bool_decide_eq_true in Hmk. contradiction.
    + unfold bind at 1.
      match goal with |- context [stream_to target r ?w1] =>
        destruct (stream_to_spec target r w1) as (res & w' & Hrun & Hd & Hn & Hok) end.
      rewrite Hrun. simpl in Hd, Hn, Hok.
      assert (Hdir1 : target ∉ {[path_parent rt target]} ∪ dirs w).
      { intros [E | H]%elem_of_union; [| contradiction].
        apply elem_of_singleton in E. congruence. }
      assert (Hdir' : target ∉ dirs w') by (rewrite Hd; exact Hdir1).
      destruct (Hok Hdir1) as (Htr & Hin & Hres).
      destruct res as [[] | e]; unfold ret; eexists _, w';
        (split; [reflexivity |]); (split; [exact Hdir' |]); (split; [exact Hn |]);
        (split; [discriminate |]); intros n' e' _ He _; rewrite He in Hres;
        try discriminate Hres.
      injection Hres as ->. split; [reflexivity |]. split; [exact Hin |].
      rewrite Htr, <- app_assoc. reflexivity.
  - eexists _, w. split; [reflexivity |]. split; [exact Hdir |]. split; [reflexivity |].
    split; [discriminate |]. intros n' e' Hcl. discriminate Hcl.
Qed.

(** Either [except] clause: log, remove the file if it is there, fail. *)
Lemma failure_handler_spec (msg target : string) (w : World) :
  target ∉ dirs w ->
  exists w', (log_error msg ;;; cleanup_partial target ;;; ret false) w = (Ok false, w') /\
             exists_in w' target = false /\ net w' = net w /\
             (target ∈ dom (files w) ->
              trace w' = (trace w ++ [ELogError msg; EUnlink target])%list).
Proof.
  intros Hdir. unfold bind at 1. unfold log_error, emit. unfold bind at 1.
  match goal with |- context [cleanup_partial target ?w1] =>
    destruct (cleanup_partial_spec target w1 Hdir) as (w' & Hrun & Hex & Hn & Htr) end.
  rewrite Hrun. unfold ret. exists w'. split; [reflexivity |]. split; [exact Hex |].
  split; [exact Hn |]. intros Hin. rewrite (Htr Hin). simpl. rewrite <- app_assoc. reflexivity.
Qed.

Ltac handle_failure target Hdir :=
  match goal with
  | |- context [bind (log_error ?m) _ ?w1] =>
      let w' := fresh "w'" in
      let Hrun := fresh "Hrun" in
      let Hex := fresh "Hex" in
      destruct (failure_handler_spec m target w1 Hdir) as (w' & Hrun & Hex & _);
      rewrite Hrun; exists false, w'; split; [reflexivity | intros _; exact Hex]
  end.

Lemma civitai_download_file_spec (url target model : string) (w : World) :
  exists_in w target = false -> path_parent rt target <> target ->
  exists b w', civitai_download_file rt url target model w = (Ok b, w') /\
               (b = false -> exists_in w' target = false).
Proof.
  intros Hex Hpar. pose proof Hex as Hex0. apply exists_in_false in Hex as [Hfile Hdir].
  unfold civitai_download_file, try_except. unfold bind at 1. unfold request.
  destruct (net w) as [| [e | r] rest]; cbv beta iota zeta.
  - handle_failure target Hdir.
  - handle_failure target Hdir.
  - destruct (status r =? 200)%Z; cbn [negb]; cbv beta iota zeta.
    + match goal with |- context [bind (lift (content_length r)) ?k ?w1] =>
        destruct (save_response_spec target r w1 Hdir Hpar)
          as (res & w1' & Hrun & Hdir' & _ & Hres & _) end.
      rewrite Hrun. destruct res as [b | e].
      * exists b, w1'. split; [reflexivity |]. intros ->. contradiction.
      * handle_failure target Hdir'.
    + unfold bind, log_error, emit, ret. simpl.
      eexists _, _. split; [reflexivity |]. intros _. exact Hex0.
Qed.

Lemma direct_download_file_spec (depth : nat) (url target model : string) (w : World) :
  exists_in w target = false -> path_parent rt target <> target ->
  exists b w', direct_download_file rt (S depth) url target model w = (Ok b, w') /\
               (b = false -> exists_in w' target = false).
Proof.
  intros Hex Hpar. revert url w Hex.
  induction depth as [| depth IH]; intros url w Hex.
  all: pose proof Hex as Hex0; apply exists_in_false in Hex as [Hfile Hdir].
  2: remember (S depth) as d eqn:Hd.
  all: cbn [direct_download_file]; unfold try_except; unfold bind at 1; unfold request.
  all: destruct (net w) as [| [e | r] rest]; cbv beta iota zeta;
       [handle_failure target Hdir | handle_failure target Hdir |].
  all: unfold bind at 1.
  all: set (w1 := mkWorld (files w) (dirs w) rest (trace w ++ [ENet "GET" url])%list).
  all: assert (Hex1 : exists_in w1 target = false) by exact Hex0.
  all: assert (Htail :
         exists b w',
           (let (r0, w'0) :=
              (if negb (status r =? 200)%Z
               then
                 log_error ("Download failed with status " ++ str_Z (status r)) ;;;
                 (if (status r =? 403)%Z
                  then log_error "Access forbidden - check authentication or permissions"
                  else if (status r =? 404)%Z then log_error "File not found" else ret tt) ;;;
                 ret false
               else
                 let* total_size := lift (content_length r) in
                 mkdir (path_parent rt target) ;;; stream_to target r ;;; ret true) w1 in
            match r0 with
            | Ok a => (Ok a, w'0)
            | Raise e =>
                (log_error (match exn_class e with
                            | TimeoutError => "Download timeout for " ++ model
                            | _ => "Download error: " ++ str_exn e
                            end) ;;; cleanup_partial target ;;; ret false) w'0
            end) = (Ok b, w') /\ (b = false -> exists_in w' target = false)).
  1, 3: destruct (status r =? 200)%Z; cbn [negb]; cbv beta iota zeta;
    [ destruct (save_response_spec target r w1 Hdir Hpar)
        as (res & w1' & Hrun & Hdir' & _ & Hres & _);
      rewrite Hrun; destruct res as [b | e];
      [ exists b, w1'; split; [reflexivity | intros ->; contradiction]
      | handle_failure target Hdir' ]
    | unfold bind, log_error, emit, ret;
      destruct (status r =? 403)%Z; [| destruct (status r =? 404)%Z];
      simpl; eexists _, _; (split; [reflexivity | intros _; exact Hex0]) ].
  all: destruct (contains "drive.google.com" url && (status r =? 200)%Z);
       [| exact Htail].
  all: unfold bind at 1; unfold lift; destruct (resp_text r) as [content | e];
       [| handle_failure target Hdir].
  all: destruct (contains "Google Drive - Virus scan warning" content); [| exact Htail].
  all: destruct (confirm_href rt content) as [href |]; [| exact Htail].
  all: unfold bind at 1.
  - cbn [direct_download_file]. unfold raise. handle_failure target Hdir.
  - subst d.
    destruct (IH ("https://drive.google.com" ++ href) w1 Hex1) as (b & w2 & Hrun & Hb).
    rewrite Hrun. unfold ret. exists b, w2. split; [reflexivity | exact Hb].
Qed.

End Transfer.

(** ** Transfers that break off *)

Section BrokenTransfer.

Variable rt : Runtime.
Variables (url target model : string) (w : World).
Variables (r : Response) (rest : list Reply) (n : Z) (e : exn).

Hypothesis Hnet : net w = NetReply r :: rest.
Hypothesis Hstatus : status r = 200%Z.
Hypothesis Hlength : content_length r = Ok n.
Hypothesis Hbroken : stream_error r = Some e.
Hypothesis Habsent : exists_in w target = false.
Hypothesis Hparent : path_parent rt target ∉ dom (files w).
Hypothesis Hdistinct : path_parent rt target <> target.

Lemma civitai_transfer_breaks :
  exists w', civitai_download_file rt url target model w = (Ok false, w') /\
             exists_in w' target = false /\
             trace w' = (trace w ++ [ENet "GET" url; EMkdir (path_parent rt target);
                                     EOpen target;
                                     ELogError ("Download error: " ++ str_exn e);
                                     EUnlink target])%list.
Proof.
  pose proof Habsent as Hex. apply exists_in_false in Hex as [Hfile Hdir].
  unfold civitai_download_file, try_except. unfold bind at 1. unfold request.
  rewrite Hnet, Hstatus. cbn [Z.eqb Pos.eqb negb]. cbv beta iota zeta.
  match goal with |- context [bind (lift (content_length r)) ?k ?w1] =>
    destruct (save_response_spec rt target r w1 Hdir Hdistinct)
      as (res & w1' & Hrun & Hdir' & _ & _ & Hsc) end.
  rewrite Hrun. destruct (Hsc n e Hlength Hbroken Hparent) as (-> & Hin & Htr).
  match goal with |- context [bind (log_error ?m) _ ?w1] =>
    destruct (failure_handler_spec m target w1 Hdir') as (w' & Hrun' & Hex' & _ & Htr') end.
  rewrite Hrun'. exists w'. split; [reflexivity |]. split; [exact Hex' |].
  rewrite (Htr' Hin), Htr. simpl. rewrite <- !app_assoc. reflexivity.
Qed.

Lemma direct_transfer_breaks (depth : nat) :
  contains "drive.google.com" url = false ->
  exists w', direct_download_file rt (S depth) url target model w = (Ok false, w') /\
             exists_in w' target = false /\
             trace w' = (trace w ++ [ENet "GET" url; EMkdir (path_parent rt target);
                                     EOpen target;
                                     ELogError (match exn_class e with
                                                | TimeoutError => "Download timeout for " ++ model
                                                | _ => "Download error: " ++ str_exn e
                                                end);
                                     EUnlink target])%list.
Proof.
  intros Hplain.
  pose proof Habsent as Hex. apply exists_in_false in Hex as [Hfile Hdir].
  cbn [direct_download_file]. unfold try_except. unfold bind at 1. unfold request.
  rewrite Hnet. cbv beta iota zeta. unfold bind at 1. rewrite Hplain.
  cbn [andb]. unfold ret at 1. cbv beta iota zeta.
  rewrite Hstatus. cbn [Z.eqb Pos.eqb negb]. cbv beta iota zeta.
  match goal with |- context [bind (lift (content_length r)) ?k ?w1] =>
    destruct (save_response_spec rt target r w1 Hdir Hdistinct)
      as (res & w1' & Hrun & Hdir' & _ & _ & Hsc) end.
  rewrite Hrun. destruct (Hsc n e Hlength Hbroken Hparent) as (-> & Hin & Htr).
  match goal with |- context [bind (log_error ?m) _ ?w1] =>
    destruct (failure_handler_spec m target w1 Hdir') as (w' & Hrun' & Hex' & _ & Htr') end.
  rewrite Hrun'. exists w'. split; [reflexivity |]. split; [exact Hex' |].
  rewrite (Htr' Hin), Htr. simpl. rewrite <- !app_assoc. reflexivity.
Qed.

End BrokenTransfer.

Lemma hf_download_returns (rt : Runtime) (self : HuggingFaceDownloader)
    (model repo_id fname dir : string) (gated : bool) (w : World) :
  exists b w', hf_download rt self model repo_id fname dir gated w = (Ok b, w').
Proof.
  unfold hf_download. destruct (HF_AVAILABLE self); cbn [negb].
  - unfold try_except.
    match goal with |- context [match ?body w with _ => _ end] =>
      destruct (body w) as [[b | e] w1] end; [eauto |].
    unfold bind, log_error, emit, ret. eauto.
  - unfold bind, log_error, emit, ret. eauto.
Qed.

(** The hub adapter writes nothing itself: it leaves at the target path what
    the calls of the hub client leave there.  So if the client, as it does,
    puts no file at the target path unless the download completed, a failed
    attempt of the hub adapter leaves none either. *)
Lemma hub_failure_leaves_no_file (rt : Runtime) (self : HuggingFaceDownloader)
    (model repo_id fname dir : string) (is_gated : bool) (w w' : World) :
  let target := path_join dir fname in
  (forall w0 r w1, repo_info rt repo_id w0 = (r, w1) ->
                   exists_in w0 target = false -> exists_in w1 target = false) ->
  (forall w0 r w1, hf_hub_download rt repo_id fname dir w0 = (r, w1) ->
                   exists_in w0 target = false ->
                   match r with Ok p => truthy p = false | Raise _ => True end ->
                   exists_in w1 target = false) ->
  exists_in w target = false ->
  hf_download rt self model repo_id fname dir is_gated w = (Ok false, w') ->
  exists_in w' target = false.
Proof.
  intros target Hinfo Hdownload Habsent. unfold hf_download.
  destruct (HF_AVAILABLE self); cbn [negb].
  - unfold try_except. unfold bind at 1. unfold path_exists at 1.
    fold target. rewrite Habsent. unfold bind at 1.
    assert (Hgate : exists denied w1,
               (if is_gated
                then let* can := hf_can_access_repo rt self repo_id in ret (negb can)
                else ret false) w = (Ok denied, w1) /\ exists_in w1 target = false).
    { destruct is_gated; [| exists false, w; split; [reflexivity | exact Habsent]].
      unfold hf_can_access_repo, bind, try_except, ret.
      destruct (api self); [| exists true, w; split; [reflexivity | exact Habsent]].
      destruct (repo_info rt repo_id w) as [[[] | e] w1] eqn:Hrun;
        eexists _, w1; (split; [reflexivity |]); exact (Hinfo _ _ _ Hrun Habsent). }
    destruct Hgate as (denied & w1 & -> & Habsent1).
    destruct denied.
    + unfold bind, log_error, emit, ret. cbn. intros [= <-]. exact Habsent1.
    + unfold bind at 1. unfold hf_download_sync, try_except.
      destruct (hf_hub_download rt repo_id fname dir w1) as [[p | e] w2] eqn:Hrun.
      * destruct (truthy p) eqn:Hp; unfold ret; [discriminate |].
        unfold bind, log_error, emit. cbn. intros [= <-].
        exact (Hdownload _ _ _ Hrun Habsent1 Hp).
      * unfold bind, log_error, emit, ret. cbn. intros [= <-].
        exact (Hdownload _ _ _ Hrun Habsent1 I).
  - unfold bind, log_error, emit, ret. cbn. intros [= <-]. exact Habsent.
Qed.

(** C6: a [_download_file] of the direct-URL or of the marketplace adapter
    that starts with no file at the target path always returns, and whenever
    it returns failure no file is at the target path.  In particular, when the
    body of a 200 reply breaks off after some chunks (a time-out included),
    the file that was opened is removed before the failure is returned.  The
    hub adapter transfers nothing itself: with a hub client that, as
    documented, moves only whole files to the target path, its [download]
    always returns too, and no file is at the target path when it returns
    failure. *)
Theorem failed_transfer_leaves_no_partial_file (rt : Runtime)
    (url target model : string) (w : World) :
  exists_in w target = false -> path_parent rt target <> target ->
  (exists b w', civitai_download_file rt url target model w = (Ok b, w') /\
                (b = false -> exists_in w' target = false)) /\
  (forall depth,
     exists b w', direct_download_file rt (S depth) url target model w = (Ok b, w') /\
                  (b = false -> exists_in w' target = false)) /\
  (forall r rest n e,
     net w = NetReply r :: rest -> status r = 200%Z -> content_length r = Ok n ->
     stream_error r = Some e -> path_parent rt target ∉ dom (files w) ->
     (exists w', civitai_download_file rt url target model w = (Ok false, w') /\
                 exists_in w' target = false /\
                 trace w' = (trace w ++ [ENet "GET" url; EMkdir (path_parent rt target);
                                         EOpen target;
                                         ELogError ("Download error: " ++ str_exn e);
                                         EUnlink target])%list) /\
     (contains "drive.google.com" url = false ->
      forall depth,
        exists w', direct_download_file rt (S depth) url target model w = (Ok false, w') /\
                   exists_in w' target = false /\
                   In (EOpen target) (trace w') /\ In (EUnlink target) (trace w'))) /\
  (forall self repo_id fname dir is_gated,
     path_join dir fname = target ->
     client_moves_whole_files rt repo_id fname dir ->
     exists b w', hf_download rt self model repo_id fname dir is_gated w = (Ok b, w') /\
                  (b = false -> exists_in w' target = false)).
Proof.
  intros Habsent Hdistinct. split; [| split; [| split]].
  - apply civitai_download_file_spec; assumption.
  - intros depth. apply direct_download_file_spec; assumption.
  - intros r rest n e Hnet Hst Hlen Hbr Hpar. split.
    + exact (civitai_transfer_breaks rt url target model w r rest n e
               Hnet Hst Hlen Hbr Habsent Hpar Hdistinct).
    + intros Hplain depth.
      destruct (direct_transfer_breaks rt url target model w r rest n e
                  Hnet Hst Hlen Hbr Habsent Hpar Hdistinct depth Hplain)
        as (w' & Hrun & Hex & Htr).
      exists w'. split; [exact Hrun |]. split; [exact Hex |].
      rewrite Htr. split; apply in_or_app; right; simpl; tauto.
  - intros self repo_id fname dir is_gated Htarget [Hinfo Hclient].
    destruct (hf_download_returns rt self model repo_id fname dir is_gated w)
      as (b & w' & Hrun).
    exists b, w'. split; [exact Hrun |]. intros ->. subst target.
    apply (hub_failure_leaves_no_file rt self model repo_id fname dir is_gated w w');
      [| | exact Habsent | exact Hrun].
    + intros w0 r w1 Hrun0 H0. rewrite (Hinfo _ _ _ Hrun0). exact H0.
    + intros w0 r w1 Hrun0 H0 Hr. rewrite (Hclient _ _ _ Hrun0 Hr). exact H0.
Qed.

(** The temporary file of the interrupted client is not the target. *)
Lemma interrupted_client_moves_nothing (chunk : string) (e : exn)
    (repo_id filename local_dir target : string) (w w' : World) (r : Res (option string)) :
  incomplete_path local_dir filename <> target ->
  interrupted_client chunk e repo_id filename local_dir w = (r, w') ->
  exists_in w' target = exists_in w target.
Proof.
  intros Hne. unfold interrupted_client, bind, open_wb, write, raise.
  destruct (bool_decide (incomplete_path local_dir filename ∈ dirs w)).
  - intros [= _ <-]. reflexivity.
  - intros [= _ <-]. unfold exists_in. cbn [files dirs]. f_equal.
    apply bool_decide_ext. rewrite !dom_insert, !elem_of_union, !elem_of_singleton.
    split; [intros [H | [H | H]]; [congruence | congruence | exact H] | auto].
Qed.

Lemma failed_transfer_leaves_no_partial_file_witness :
  let target := lora_dir ++ "/a.safetensors" in
  let broken := broken_response ["ab"; "cd"] (mkExn TimeoutError "timed out") in
  let w := mkWorld ∅ {[lora_dir]} [NetReply broken] [] in
  (exists w', direct_download_file (demo_runtime [] []) 1000 "https://host/a.safetensors"
                target "a" w = (Ok false, w') /\
              exists_in w' target = false /\
              In (EOpen target) (trace w') /\ In (EUnlink target) (trace w')) /\
  (exists w', hf_download hub_runtime (HuggingFaceDownloader_init true) "a" "org/a"
                "a.safetensors" lora_dir false w = (Ok false, w') /\
              exists_in w' target = false /\
              files w' !! incomplete_path lora_dir "a.safetensors" = Some "ab").
Proof.
  intros target broken w.
  assert (Habsent : exists_in w target = false) by (vm_compute; reflexivity).
  split.
  - assert (Hdistinct : path_parent (demo_runtime [] []) target <> target)
      by (vm_compute; discriminate).
    destruct (failed_transfer_leaves_no_partial_file (demo_runtime [] [])
                "https://host/a.safetensors" target "a" w Habsent Hdistinct)
      as (_ & _ & H & _).
    destruct (H broken [] 4096%Z (mkExn TimeoutError "timed out")
                eq_refl eq_refl eq_refl eq_refl) as [_ Hd].
    + apply not_elem_of_dom. reflexivity.
    + apply (Hd eq_refl 999%nat).
  - assert (Hdistinct : path_parent hub_runtime target <> target)
      by (vm_compute; discriminate).
    destruct (failed_transfer_leaves_no_partial_file hub_runtime
                "https://huggingface.co/org/a" target "a" w Habsent Hdistinct)
      as (_ & _ & _ & H).
    destruct (H (HuggingFaceDownloader_init true) "org/a" "a.safetensors" lora_dir false)
      as (b & w' & Hrun & Hfail).
    + vm_compute. reflexivity.
    + split.
      * intros w0 r w1 [= _ <-]. reflexivity.
      * intros w0 r w1 Hrun0 _.
        apply (interrupted_client_moves_nothing "ab" (mkExn TimeoutError "timed out")
                 "org/a" "a.safetensors" lora_dir _ w0 w1 r);
          [vm_compute; discriminate | exact Hrun0].
    + vm_compute in Hrun. injection Hrun as <- <-.
      eexists. split; [reflexivity |]. split; [apply Hfail; reflexivity |].
      vm_compute. reflexivity.
Defined.

(** ** Skipping a target that is already there *)

Section Skip.

Variable rt : Runtime.

Lemma hf_download_skips (self : HuggingFaceDownloader)
    (model repo_id fname dir : string) (is_gated : bool) (w : World) :
  HF_AVAILABLE self = true ->
  exists_in w (path_join dir fname) = true ->
  hf_download rt self model repo_id fname dir is_gated w = (Ok true, w).
Proof.
  intros Hav Hex. unfold hf_download. rewrite Hav. cbn [negb].
  unfold try_except, bind, path_exists. rewrite Hex. reflexivity.
Qed.

Lemma direct_download_skips_named (model u dir fname : string) (w : World) :
  is_empty fname = false ->
  exists_in w (path_join dir fname) = true ->
  direct_download rt model u dir fname w = (Ok true, w).
Proof.
  intros Hne Hex. unfold direct_download, direct_resolve_filename. rewrite Hne.
  unfold try_except, bind, ret, path_exists. rewrite Hex. reflexivity.
Qed.

(** What looking for the name does to the world: nothing when the URL's path
    gives the name, and otherwise the one HEAD request, whatever its answer. *)
Lemma direct_get_filename_run (u : string) (w : World) :
  exists found,
    direct_get_filename rt u w =
      (Ok found,
       match name_from_url rt u with
       | Some _ => w
       | None => mkWorld (files w) (dirs w) (tl (net w))
                   (trace w ++ [ENet "HEAD" u])%list
       end) /\
    (forall f, name_from_url rt u = Some f -> found = Some f).
Proof.
  unfold direct_get_filename, try_except, bind, ret, request.
  destruct (name_from_url rt u) as [f |].
  - exists (Some f). split; [reflexivity |]. intros f' [= <-]. reflexivity.
  - destruct (net w) as [| [e | r] rest]; cbn [tl].
    + exists None. split; [reflexivity | discriminate].
    + exists None. split; [reflexivity | discriminate].
    + destruct (status r =? 200)%Z; eexists; (split; [reflexivity | discriminate]).
Qed.

Lemma direct_download_skips_resolved (model u dir : string) (found : option string)
    (w w1 : World) :
  direct_get_filename rt (process_url rt u) w = (Ok found, w1) ->
  exists_in w1 (path_join dir (spec_resolve_filename EmptyString found model)) = true ->
  direct_download rt model u dir EmptyString w = (Ok true, w1).
Proof.
  intros Hget Hex. unfold direct_download, direct_resolve_filename. cbn [is_empty].
  unfold try_except. unfold bind at 1. unfold bind at 1. rewrite Hget.
  unfold ret at 1. unfold bind at 1. unfold path_exists.
  unfold spec_resolve_filename in Hex. cbn [is_empty negb] in Hex. rewrite Hex.
  reflexivity.
Qed.

Lemma civitai_download_skips (model model_id dir fname target : string) (w : World)
    (r : Response) (rest : list Reply) (data : JVal) (info : list (string * JVal)) :
  net w = NetReply r :: rest -> status r = 200%Z -> resp_json r = Ok data ->
  model_info_dict data = Ok info ->
  path_join_j dir (civitai_resolve_filename model fname info) = Ok target ->
  exists_in w target = true ->
  civitai_download rt model model_id dir fname w =
    (Ok true, mkWorld (files w) (dirs w) rest
                (trace w ++ [ENet "GET" (civitai_info_url model_id)])%list).
Proof.
  intros Hnet Hst Hjson Hinfo Hjoin Hex.
  assert (Hne : exists x l, info = x :: l).
  { unfold model_info_dict in Hinfo.
    destruct (jget data "files" _); [| discriminate].
    destruct (jindex0 _); [| discriminate].
    destruct (jget _ "name" _); [| discriminate].
    destruct (jget _ "sizeKB" _); [| discriminate].
    destruct (jget data "downloadUrl" _); [| discriminate].
    injection Hinfo as <-. eauto. }
  destruct Hne as (x & l & ->).
  unfold civitai_download, civitai_get_model_info.
  unfold try_except, bind, ret, request, lift, path_exists.
  rewrite Hnet, Hst. cbn [Z.eqb Pos.eqb]. rewrite Hjson, Hinfo, Hjoin.
  unfold exists_in in *. cbn [files dirs]. rewrite Hex. reflexivity.
Qed.

End Skip.

(** C3, as the code has it, for a target file that is there before the
    adapter is called.  The hub adapter (its library installed) and the
    direct-URL adapter with the file name given report success and touch
    neither the network nor anything else.  The direct-URL adapter without a
    given name first settles the name -- the name in the URL's path, with no
    request, or else what one HEAD request finds, or else, whatever that
    request answers, the model's name with [.safetensors] -- and then reports
    success without a transfer.  The marketplace adapter always asks for the
    metadata first; when that request is answered with status 200 and a JSON
    body from which [_get_model_info] can take the file entry, and the name it
    settles on is a string, it reports success without a transfer. *)
Theorem existing_target_is_skipped (rt : Runtime) (model dir : string) (w : World) :
  (forall self repo_id fname is_gated,
     HF_AVAILABLE self = true -> exists_in w (path_join dir fname) = true ->
     hf_download rt self model repo_id fname dir is_gated w = (Ok true, w)) /\
  (forall u fname,
     is_empty fname = false -> exists_in w (path_join dir fname) = true ->
     direct_download rt model u dir fname w = (Ok true, w)) /\
  (forall u,
     exists found w1,
       direct_get_filename rt (process_url rt u) w = (Ok found, w1) /\
       (forall f, name_from_url rt (process_url rt u) = Some f -> found = Some f) /\
       files w1 = files w /\ dirs w1 = dirs w /\
       net_calls w1 = (net_calls w ++ match name_from_url rt (process_url rt u) with
                                      | Some _ => []
                                      | None => [ENet "HEAD" (process_url rt u)]
                                      end)%list /\
       (exists_in w (path_join dir (spec_resolve_filename EmptyString found model)) = true ->
        direct_download rt model u dir EmptyString w = (Ok true, w1))) /\
  (forall model_id fname target r rest data info,
     net w = NetReply r :: rest -> status r = 200%Z -> resp_json r = Ok data ->
     model_info_dict data = Ok info ->
     path_join_j dir (civitai_resolve_filename model fname info) = Ok target ->
     exists_in w target = true ->
     exists w', civitai_download rt model model_id dir fname w = (Ok true, w') /\
                files w' = files w /\ dirs w' = dirs w /\
                net_calls w' = (net_calls w ++ [ENet "GET" (civitai_info_url model_id)])%list).
Proof.
  split; [| split; [| split]].
  - intros. apply hf_download_skips; assumption.
  - intros. apply direct_download_skips_named; assumption.
  - intros u. destruct (direct_get_filename_run rt (process_url rt u) w) as (found & Hget & Hname).
    eexists found, _. split; [exact Hget |]. split; [exact Hname |].
    destruct w as [fs ds nt tr].
    destruct (name_from_url rt (process_url rt u)) as [f |]; cbn [files dirs trace net].
    + split; [reflexivity |]. split; [reflexivity |]. split; [rewrite app_nil_r; reflexivity |].
      intros Hex. apply (direct_download_skips_resolved rt model u dir found _ _ Hget Hex).
    + split; [reflexivity |]. split; [reflexivity |].
      split; [rewrite net_calls_snoc; reflexivity |].
      intros Hex. apply (direct_download_skips_resolved rt model u dir found _ _ Hget).
      exact Hex.
  - intros model_id fname target r rest data info Hnet Hst Hjson Hinfo Hjoin Hex.
    rewrite (civitai_download_skips rt model model_id dir fname target w r rest data info
               Hnet Hst Hjson Hinfo Hjoin Hex).
    eexists. split; [reflexivity |]. cbn [files dirs]. split; [reflexivity |].
    split; [reflexivity |]. destruct w as [fs ds nt tr]. cbn [trace files dirs].
    rewrite net_calls_snoc. reflexivity.
Qed.

Lemma existing_target_is_skipped_witness :
  let rt := demo_runtime [] [] in
  let w := mkWorld {[ (lora_dir ++ "/a.safetensors") := "weights" ]} {[lora_dir]} [] [] in
  hf_download rt (HuggingFaceDownloader_init true) "a" "org/a" "a.safetensors" lora_dir false w
    = (Ok true, w) /\
  direct_download rt "a" "https://host/files/a.safetensors" lora_dir EmptyString w
    = (Ok true, w) /\
  direct_download rt "a" "https://host/download" lora_dir EmptyString w
    = (Ok true, mkWorld (files w) (dirs w) [] [ENet "HEAD" "https://host/download"]).
Proof.
  intros rt w.
  destruct (existing_target_is_skipped rt "a" lora_dir w) as (Hhub & _ & Hurl & _).
  split; [| split].
  - apply Hhub; vm_compute; reflexivity.
  - destruct (Hurl "https://host/files/a.safetensors") as (found & w1 & Hget & _ & _ & _ & _ & H).
    vm_compute in Hget. injection Hget as <- <-. apply H. vm_compute. reflexivity.
  - destruct (Hurl "https://host/download") as (found & w1 & Hget & _ & _ & _ & _ & H).
    vm_compute in Hget. injection Hget as <- <-. apply H. vm_compute. reflexivity.
Defined.

(** C3 as the specification words it fails for the marketplace adapter: with
    the file in place and its name given, the adapter still asks the
    marketplace for the model's metadata before it reports success, and
    reports failure when that request cannot be made. *)
Lemma marketplace_skip_calls_the_network :
  let rt := demo_runtime [] [] in
  let meta := JObj [("files", JArr [JObj [("name", JStr "a.safetensors")]])] in
  let w := mkWorld {[ (lora_dir ++ "/a.safetensors") := "weights" ]} {[lora_dir]}
             [NetReply (json_response meta)] [] in
  exists_in w (path_join lora_dir "a.safetensors") = true /\
  fst (civitai_download rt "a" "123" lora_dir "a.safetensors" w) = Ok true /\
  net_calls (snd (civitai_download rt "a" "123" lora_dir "a.safetensors" w))
    = [ENet "GET" "https://civitai.com/api/v1/model-versions/123"] /\
  net_calls w = [] /\
  fst (civitai_download rt "a" "123" lora_dir "a.safetensors"
         (mkWorld (files w) (dirs w) [] [])) = Ok false.
Proof.
  vm_compute. repeat split.
Qed.

(** ** The name of the downloaded file *)

Lemma direct_get_filename_total (rt : Runtime) (u : string) (w : World) :
  exists found w1, direct_get_filename rt u w = (Ok found, w1).
Proof.
  unfold direct_get_filename, try_except, bind, ret, request.
  destruct (name_from_url rt u); [eauto |].
  destruct (net w) as [| [e | r] rest]; [eauto | eauto |].
  destruct (status r =? 200)%Z; eauto.
Qed.

(** The metadata dict always has the key the marketplace adapter looks up, so
    the default it passes to [get] is never used. *)
Lemma model_info_has_filename (data : JVal) (info : list (string * JVal)) :
  model_info_dict data = Ok info -> exists v, assoc_get "filename" info = Some v.
Proof.
  unfold model_info_dict.
  destruct (jget data "files" _); [| discriminate].
  destruct (jindex0 _); [| discriminate].
  destruct (jget _ "name" _) as [v |]; [| discriminate].
  destruct (jget _ "sizeKB" _); [| discriminate].
  destruct (jget data "downloadUrl" _); [| discriminate].
  intros [= <-]. exists v. reflexivity.
Qed.

(** The two siblings of the hub adapter settle the name in the order of the
    specification: the direct-URL adapter takes the explicit name, else the
    name found in the URL or by the HEAD probe, else the model's name with
    [.safetensors]; the marketplace adapter takes the explicit name, else the
    name in the metadata when that is not empty. *)
Lemma sibling_adapters_resolve_the_name (rt : Runtime) (model : string) :
  (forall purl fname w,
     exists found w1,
       direct_get_filename rt purl w = (Ok found, w1) /\
       direct_resolve_filename rt model purl fname w =
         (Ok (spec_resolve_filename fname found model),
          if is_empty fname then w1 else w)) /\
  (forall fname info s,
     assoc_get "filename" info = Some (JStr s) ->
     is_empty fname = false \/ is_empty s = false ->
     civitai_resolve_filename model fname info =
       JStr (spec_resolve_filename fname (Some s) model)).
Proof.
  split.
  - intros purl fname w.
    destruct (direct_get_filename_total rt purl w) as (found & w1 & Hrun).
    exists found, w1. split; [exact Hrun |].
    unfold direct_resolve_filename, spec_resolve_filename.
    destruct (is_empty fname); cbn [negb]; [| reflexivity].
    unfold bind, ret. rewrite Hrun. reflexivity.
  - intros fname info s Hlookup Hsome.
    unfold civitai_resolve_filename, spec_resolve_filename. rewrite Hlookup.
    destruct (is_empty fname) eqn:Hf; cbn [negb]; [| reflexivity].
    destruct Hsome as [H | H]; [discriminate |].
    destruct s; [discriminate | reflexivity].
Qed.

(** C9 fails on the code for a hub entry without a [file] field.  Both
    download methods of the orchestrator hand the adapter the empty name, the
    path the adapter then looks for is the category directory itself, and as
    that directory is there, the adapter reports the model as already
    downloaded: whatever the hub client would do, it is not called, nothing is
    asked of the network and no file is written -- none under the model's name
    with [.safetensors] either. *)
Theorem hub_entry_without_file_downloads_nothing (rt : Runtime)
    (self : ProvisioningSystem) (model_name repo_id dir : string) (d : RawModel)
    (w : World) :
  HF_AVAILABLE (hf_downloader self) = true ->
  r_repo d = Some repo_id -> r_file d = None ->
  exists_in w dir = true ->
  _download_huggingface_model rt self model_name d dir w = (Ok true, w) /\
  (forall mc,
     name mc = model_name -> target_dir mc = dir -> file mc = None ->
     _download_huggingface_model_typed rt self mc w =
       (Ok (mkDownloadResult model_name true None (Some dir) None), w)) /\
  spec_resolve_filename (default EmptyString (r_file d)) None model_name
    = model_name ++ ".safetensors".
Proof.
  intros Hav Hrepo Hfile Hdir. split; [| split].
  - unfold _download_huggingface_model, try_except, bind, getitem.
    rewrite Hrepo, Hfile. unfold ret at 1. cbn [default].
    rewrite (hf_download_skips rt _ model_name repo_id EmptyString dir _ w Hav Hdir).
    reflexivity.
  - intros mc <- <- Hnone.
    unfold _download_huggingface_model_typed, try_except, bind. rewrite Hnone.
    cbn [or_empty].
    rewrite (hf_download_skips rt _ (name mc) _ EmptyString (target_dir mc) _ w Hav Hdir).
    reflexivity.
  - rewrite Hfile. reflexivity.
Qed.

Lemma hub_entry_without_file_downloads_nothing_witness :
  let rt := demo_runtime [] [] in
  let self := demo_system false 5 no_tokens in
  let d := mkRaw None (Some "org/sdxl") None None None None None None in
  let mc := mkModelConfig "sdxl" HUGGINGFACE lora_dir (Some "org/sdxl") None None None None
              false [] in
  let w := mkWorld ∅ {[lora_dir]} [] [] in
  post_init mc = Ok mc /\
  _download_huggingface_model rt self "sdxl" d lora_dir w = (Ok true, w) /\
  _download_huggingface_model_typed rt self mc w =
    (Ok (mkDownloadResult "sdxl" true None (Some lora_dir) None), w) /\
  exists_in w (path_join lora_dir "sdxl.safetensors") = false.
Proof.
  intros rt self d mc w.
  destruct (hub_entry_without_file_downloads_nothing rt self "sdxl" "org/sdxl" lora_dir d w)
    as (Hfile & Htyped & _); try reflexivity.
  split; [reflexivity |]. split; [exact Hfile |].
  split; [apply Htyped; reflexivity | reflexivity].
Defined.

(** The same entry through [provision_from_file]: the run makes the category
    directory, downloads nothing and answers True. *)
Lemma hub_entry_without_file_is_reported_done :
  let d := mkRaw None (Some "org/sdxl") None None None None None None in
  let raw := [("lora", [("sdxl", RawDict d)])] in
  let w := mkWorld {["/workspace/models.toml" := "[models.lora.sdxl]
repo = 'org/sdxl'"]}
             ({[models_root]} ∪ {["/workspace/logs"]}) [] [] in
  let run := provision_from_file (demo_runtime raw []) (demo_system false 5 no_tokens)
               "/workspace/models.toml" w in
  fst run = Ok true /\
  trace (snd run) = [EMkdir lora_dir] /\
  files (snd run) = files w.
Proof.
  vm_compute. repeat split.
Qed.

(** ** What a run leaves untouched *)

Lemma fs_writes_snoc (f : gmap string string) (d : gset string) (n : list Reply)
    (tr : list Event) (e : Event) :
  fs_writes (mkWorld f d n (tr ++ [e])) =
  (fs_writes (mkWorld f d n tr) ++ (if is_fs_write e then [e] else []))%list.
Proof.
  unfold fs_writes. simpl. rewrite filter_app. f_equal.
  destruct e; reflexivity.
Qed.

Lemma quiet_fs (w w' : World) : quiet w w' -> fs_untouched w w'.
Proof. intros [H _]. exact H. Qed.

Section Preserves.

Variable R : World -> World -> Prop.
Hypothesis R_refl : forall w, R w w.
Hypothesis R_trans : forall w1 w2 w3, R w1 w2 -> R w2 w3 -> R w1 w3.

Lemma preserves_ret {A : Type} (a : A) : preserves R (ret a).
Proof. intros w r w' [= <- <-]. apply R_refl. Qed.

Lemma preserves_raise {A : Type} (e : exn) : preserves R (@raise A e).
Proof. intros w r w' [= <- <-]. apply R_refl. Qed.

Lemma preserves_lift {A : Type} (x : Res A) : preserves R (lift x).
Proof. intros w r w' [= <- <-]. apply R_refl. Qed.

Lemma preserves_bind {A B : Type} (m : M A) (k : A -> M B) :
  preserves R m -> (forall a, preserves R (k a)) -> preserves R (bind m k).
Proof.
  intros Hm Hk w r w'. unfold bind. destruct (m w) as [[a | e] w1] eqn:Hrun.
  - intros Hrest. eapply R_trans; [exact (Hm _ _ _ Hrun) | exact (Hk _ _ _ _ Hrest)].
  - intros [= <- <-]. exact (Hm _ _ _ Hrun).
Qed.

Lemma preserves_try {A : Type} (body : M A) (handler : exn -> M A) :
  preserves R body -> (forall e, preserves R (handler e)) ->
  preserves R (try_except body handler).
Proof.
  intros Hb Hh w r w'. unfold try_except. destruct (body w) as [[a | e] w1] eqn:Hrun.
  - intros [= <- <-]. exact (Hb _ _ _ Hrun).
  - intros Hrest. eapply R_trans; [exact (Hb _ _ _ Hrun) | exact (Hh _ _ _ _ Hrest)].
Qed.

Lemma preserves_for_each {A : Type} (l : list A) (body : A -> M unit) :
  (forall x, preserves R (body x)) -> preserves R (for_each l body).
Proof.
  intros Hb. induction l as [| x rest IH]; simpl.
  - apply preserves_ret.
  - apply preserves_bind; [apply Hb | intros _; exact IH].
Qed.

Lemma preserves_fold_loop {A S : Type} (body : S -> A -> M S) (l : list A) (s : S) :
  (forall s x, preserves R (body s x)) -> preserves R (fold_loop body l s).
Proof.
  intros Hb. revert s. induction l as [| x rest IH]; intros s; simpl.
  - apply preserves_ret.
  - apply preserves_bind; [apply Hb | intros s'; apply IH].
Qed.

Lemma preserves_a_returns {A : Type} (m : M A) : preserves R m -> preserves_a R (returns m).
Proof.
  intros Hm w r w' [= H]. exact (Hm _ _ _ H).
Qed.

Lemma preserves_a_bind {A B : Type} (m : Awaitable A) (k : A -> Awaitable B) :
  preserves_a R m -> (forall a, preserves_a R (k a)) -> preserves_a R (bind_a m k).
Proof.
  intros Hm Hk w r w'. unfold bind_a.
  destruct (m w) as [[[a | e] w1] |] eqn:Hrun; [| | discriminate].
  - intros Hrest. exact (R_trans _ _ _ (Hm _ _ _ Hrun) (Hk a _ _ _ Hrest)).
  - intros [= <- <-]. exact (Hm _ _ _ Hrun).
Qed.

Lemma preserves_a_try {A : Type} (body : Awaitable A) (handler : exn -> M A) :
  preserves_a R body -> (forall e, preserves R (handler e)) ->
  preserves_a R (try_except_a body handler).
Proof.
  intros Hb Hh w r w'. unfold try_except_a.
  destruct (body w) as [[[a | e] w1] |] eqn:Hrun; [| | discriminate].
  - intros [= <- <-]. exact (Hb _ _ _ Hrun).
  - intros [= Hrest]. destruct (handler e w1) as [r1 w2] eqn:Hh1.
    injection Hrest as <- <-. exact (R_trans _ _ _ (Hb _ _ _ Hrun) (Hh e _ _ _ Hh1)).
Qed.

End Preserves.

Lemma fs_untouched_refl (w : World) : fs_untouched w w.
Proof. repeat split. Qed.

Lemma fs_untouched_trans (w1 w2 w3 : World) :
  fs_untouched w1 w2 -> fs_untouched w2 w3 -> fs_untouched w1 w3.
Proof. intros (A1 & B1 & C1) (A2 & B2 & C2). repeat split; congruence. Qed.

Lemma quiet_refl (w : World) : quiet w w.
Proof. repeat split. Qed.

Lemma quiet_trans (w1 w2 w3 : World) : quiet w1 w2 -> quiet w2 w3 -> quiet w1 w3.
Proof.
  intros [F1 (A1 & B1)] [F2 (A2 & B2)]. split.
  - eapply fs_untouched_trans; eassumption.
  - split; congruence.
Qed.

Lemma emit_quiet (e : Event) :
  is_net_call e = false -> is_fs_write e = false -> preserves quiet (emit e).
Proof.
  intros Hn Hf [f d n tr] r w' [= <- <-]. unfold quiet, fs_untouched, net_untouched.
  cbn [files dirs net]. rewrite fs_writes_snoc, net_calls_snoc, Hn, Hf, !app_nil_r.
  repeat split.
Qed.

Lemma log_error_quiet (msg : string) : preserves quiet (log_error msg).
Proof. apply emit_quiet; reflexivity. Qed.

Lemma log_warning_quiet (msg : string) : preserves quiet (log_warning msg).
Proof. apply emit_quiet; reflexivity. Qed.

Lemma preserves_quiet_fs {A : Type} (m : M A) :
  preserves quiet m -> preserves fs_untouched m.
Proof. intros H w r w' Hrun. exact (quiet_fs _ _ (H _ _ _ Hrun)). Qed.

Lemma request_fs (method target : string) : preserves fs_untouched (request method target).
Proof.
  intros [f d n tr] r w'. unfold request. cbn [net files dirs trace].
  destruct n as [| [e | resp] rest]; intros [= <- <-]; unfold fs_untouched;
    cbn [files dirs]; rewrite fs_writes_snoc; cbn [is_fs_write]; rewrite app_nil_r;
    repeat split.
Qed.

Ltac frame_fs :=
  repeat first
    [ apply preserves_ret; [apply fs_untouched_refl]
    | apply preserves_raise; [apply fs_untouched_refl]
    | apply preserves_lift; [apply fs_untouched_refl]
    | apply request_fs
    | apply preserves_quiet_fs, log_error_quiet
    | apply preserves_quiet_fs, log_warning_quiet
    | apply preserves_bind; [apply fs_untouched_trans | | intros ?]
    | apply preserves_try; [apply fs_untouched_trans | | intros ?]
    | apply preserves_for_each; [apply fs_untouched_refl | apply fs_untouched_trans | intros ?]
    | match goal with
      | |- preserves _ (if ?b then _ else _) => destruct b
      | |- preserves _ (match ?x with _ => _ end) => destruct x
      end ].

Ltac frame_quiet :=
  repeat first
    [ apply preserves_ret; [apply quiet_refl]
    | apply preserves_raise; [apply quiet_refl]
    | apply preserves_lift; [apply quiet_refl]
    | apply log_error_quiet
    | apply log_warning_quiet
    | apply preserves_bind; [apply quiet_trans | | intros ?]
    | apply preserves_try; [apply quiet_trans | | intros ?]
    | apply preserves_for_each; [apply quiet_refl | apply quiet_trans | intros ?]
    | match goal with
      | |- preserves _ (if ?b then _ else _) => destruct b
      | |- preserves _ (match ?x with _ => _ end) => destruct x
      end ].

Lemma validate_hf_token_fs (self : TokenValidator) :
  preserves fs_untouched (validate_hf_token self).
Proof. unfold validate_hf_token. frame_fs. Qed.

Lemma validate_civitai_token_fs (self : TokenValidator) :
  preserves fs_untouched (validate_civitai_token self).
Proof. unfold validate_civitai_token. frame_fs. Qed.

Lemma log_gated_model_error_quiet (model : RawModel) (platform : string) :
  preserves quiet (_log_gated_model_error model platform).
Proof. unfold _log_gated_model_error. frame_quiet. Qed.

Lemma validate_tokens_fs (self : ProvisioningSystem) (config : RawConfig) :
  preserves fs_untouched (_validate_tokens self config).
Proof.
  unfold _validate_tokens. destruct (_find_gated_models config) as [| m ms].
  - frame_fs.
  - apply preserves_bind; [apply fs_untouched_trans | |].
    + apply validate_hf_token_fs.
    + intros hf_valid.
      apply preserves_bind; [apply fs_untouched_trans | |].
      * frame_fs.
      * intros _.
        apply preserves_bind; [apply fs_untouched_trans | |].
        -- apply validate_civitai_token_fs.
        -- intros civitai_valid.
           apply preserves_bind; [apply fs_untouched_trans | |].
           ++ frame_fs.
           ++ intros _.
              apply preserves_for_each;
                [apply fs_untouched_refl | apply fs_untouched_trans |].
              intros model.
              destruct (_ && _); [apply preserves_quiet_fs, log_gated_model_error_quiet |].
              destruct (_ && _); [apply preserves_quiet_fs, log_gated_model_error_quiet |].
              frame_fs.
Qed.

Lemma fetch_and_parse_fs (rt : Runtime) (depth : nat) (config_url : string) :
  preserves fs_untouched (fetch_and_parse rt depth config_url).
Proof.
  revert config_url. induction depth as [| depth IH]; intros config_url;
    cbn [fetch_and_parse].
  - frame_fs.
  - apply preserves_try; [apply fs_untouched_trans | |].
    + apply preserves_bind; [apply fs_untouched_trans | |].
      * apply request_fs.
      * intros response. destruct (negb _); [frame_fs |].
        apply preserves_bind; [apply fs_untouched_trans | |].
        -- frame_fs.
        -- intros content. destruct (_ && _); [| frame_fs].
           destruct (confirm_href rt content); [apply IH | frame_fs].
    + intros e. frame_fs.
Qed.

(** ** The typed download loop *)

Lemma model_loop_spec (self : ProvisioningSystem) (dir : string)
    (items : list (string * ModelConfigPydantic))
    (acc : list ModelConfig * list (M PyObj)) (w : World) :
  exists w',
    fold_loop (typed_model_step self dir) items acc w =
      (Ok ((fst acc ++ constructible_in dir items)%list,
           if dry_run self then snd acc
           else (snd acc ++ map (_create_typed_download_task self)
                              (constructible_in dir items))%list), w') /\
    quiet w w'.
Proof.
  revert acc w. induction items as [| item rest IH]; intros acc w.
  - exists w. split; [| apply quiet_refl]. simpl. unfold ret.
    rewrite !app_nil_r. destruct acc, (dry_run self); reflexivity.
  - cbn [fold_loop constructible_in flat_map]. unfold bind at 1. unfold typed_model_step at 1.
    destruct (build_model_config (fst item) dir (snd item)) as [mc | e].
    + destruct (dry_run self) eqn:Hdry; unfold ret at 1.
      * destruct (IH ((fst acc ++ [mc])%list, snd acc) w) as (w' & Hrun & Hq).
        try rewrite Hdry in Hrun. exists w'. split; [| exact Hq].
        rewrite Hrun. cbn [fst snd]. rewrite <- app_assoc. reflexivity.
      * destruct (IH ((fst acc ++ [mc])%list,
                      (snd acc ++ [_create_typed_download_task self mc])%list) w)
          as (w' & Hrun & Hq).
        try rewrite Hdry in Hrun. exists w'. split; [| exact Hq].
        rewrite Hrun. cbn [fst snd map app]. rewrite <- !app_assoc. reflexivity.
    + unfold bind at 1.
      destruct (log_error ("Invalid model configuration for " ++ fst item ++ ": "
                           ++ str_exn e) w) as [r w1] eqn:Hlog.
      pose proof (log_error_quiet _ _ _ _ Hlog) as Hq1.
      unfold log_error, emit in Hlog. injection Hlog as <- Hw1. unfold ret at 1.
      destruct (IH acc w1) as (w' & Hrun & Hq). exists w'.
      split; [| eapply quiet_trans; eassumption].
      rewrite Hrun. cbn [app]. reflexivity.
Qed.

Lemma category_loop_dry (self : ProvisioningSystem) (config : ProvisionConfigPydantic)
    (acc : list ModelConfig * list (M PyObj)) (w : World) :
  dry_run self = true ->
  exists w',
    fold_loop (typed_category_step self) config acc w =
      (Ok ((fst acc ++ constructible self config)%list, snd acc), w') /\
    quiet w w'.
Proof.
  intros Hdry. revert acc w. induction config as [| category rest IH]; intros acc w.
  - exists w. split; [| apply quiet_refl]. simpl. unfold ret.
    rewrite app_nil_r. destruct acc; reflexivity.
  - cbn [fold_loop constructible flat_map]. unfold bind at 1.
    unfold typed_category_step at 1. rewrite Hdry. cbn [negb]. unfold bind at 1, ret at 1.
    destruct (model_loop_spec self
                (path_join (models_dir self) (_get_category_dir (fst category)))
                (snd category) acc w) as (w1 & Hrun & Hq1).
    rewrite Hdry in Hrun. rewrite Hrun.
    match goal with |- context [fold_loop _ rest ?a w1] =>
      destruct (IH a w1) as (w' & Hrun' & Hq) end.
    exists w'. split; [| eapply quiet_trans; eassumption].
    rewrite Hrun'. cbn [fst snd]. rewrite <- app_assoc. reflexivity.
Qed.

Lemma category_loop_spec (self : ProvisioningSystem) (config : ProvisionConfigPydantic)
    (acc acc' : list ModelConfig * list (M PyObj)) (w w' : World) :
  fold_loop (typed_category_step self) config acc w = (Ok acc', w') ->
  fst acc' = (fst acc ++ constructible self config)%list /\
  snd acc' = if dry_run self then snd acc
             else (snd acc ++ map (_create_typed_download_task self)
                                (constructible self config))%list.
Proof.
  revert acc w. induction config as [| category rest IH]; intros acc w.
  - simpl. unfold ret. intros [= <- <-]. rewrite !app_nil_r.
    destruct (dry_run self); split; reflexivity.
  - cbn [fold_loop constructible flat_map]. unfold bind at 1.
    unfold typed_category_step at 1. unfold bind at 1.
    match goal with |- context [(if negb (dry_run self) then ?a else ?b) w] =>
      destruct ((if negb (dry_run self) then a else b) w) as [[[] | e] w0];
        [| discriminate] end.
    destruct (model_loop_spec self
                (path_join (models_dir self) (_get_category_dir (fst category)))
                (snd category) acc w0) as (w1 & Hrun & _).
    rewrite Hrun. intros Hrest. apply IH in Hrest as [Hfst Hsnd].
    cbn [fst snd] in Hfst, Hsnd. rewrite Hfst, Hsnd, map_app.
    destruct (dry_run self); rewrite <- ?app_assoc; split; reflexivity.
Qed.

Lemma constructible_in_le (dir : string) (items : list (string * ModelConfigPydantic)) :
  (length (constructible_in dir items) <= length items)%nat.
Proof.
  induction items as [| item rest IH]; simpl; [lia |].
  rewrite length_app. destruct (build_model_config _ _ _); simpl; lia.
Qed.

Lemma constructible_le (self : ProvisioningSystem) (config : ProvisionConfigPydantic) :
  (length (constructible self config) <= length (entries config))%nat.
Proof.
  induction config as [| category rest IH]; simpl; [lia |].
  unfold entries in *. cbn [flat_map]. rewrite !length_app.
  pose proof (constructible_in_le
                (path_join (models_dir self) (_get_category_dir (fst category)))
                (snd category)). lia.
Qed.

Lemma count_successful_bounds (rs : list PyObj) (n : Z) (ds : list DownloadResult) :
  count_successful rs = Ok (n, ds) -> (0 <= n <= Z.of_nat (length rs))%Z.
Proof.
  revert n ds. induction rs as [| o rest IH]; intros n ds; simpl.
  - intros [= <- <-]. lia.
  - destruct o as [r | c]; simpl; [| discriminate].
    destruct (count_successful rest) as [[m rs'] | e]; [| discriminate].
    intros [= <- <-]. specialize (IH m rs' eq_refl). destruct (success r); lia.
Qed.

(** The counting code on a list of genuine results: every result is counted
    once, as a success or as a failure. *)
Lemma count_successful_results (ds : list DownloadResult) :
  count_successful (map ODownloadResult ds) =
    Ok (Z.of_nat (length (filter (fun d => success d = true) ds)), ds).
Proof.
  induction ds as [| d rest IH]; [reflexivity |].
  cbn [map count_successful get_success]. rewrite IH.
  rewrite filter_cons. destruct (success d) eqn:Hs.
  - rewrite decide_True by reflexivity. cbn [length]. f_equal. f_equal. lia.
  - rewrite decide_False by discriminate. f_equal.
Qed.

Lemma create_returns_coroutine (self : ProvisioningSystem) (mc : ModelConfig) (w : World) :
  exists c, _create_typed_download_task self mc w = (Ok (OCoroutine c), w).
Proof.
  unfold _create_typed_download_task, try_except, ret.
  destruct (source mc); eauto.
Qed.

(** Outside dry-run mode, a manifest with at least one entry that can be
    built never yields a summary: what [_create_typed_download_task] hands
    back is a coroutine object, which has no attribute [success]. *)
Lemma typed_path_returns_no_summary (self : ProvisioningSystem)
    (config : ProvisionConfigPydantic) (w w' : World) (s : ProvisioningSummary) :
  dry_run self = false -> constructible self config <> [] ->
  _download_models_typed self config w <> Some (Ok s, w').
Proof.
  intros Hdry Hne. unfold _download_models_typed. unfold bind_a at 1, returns at 1.
  destruct (fold_loop (typed_category_step self) config ([], []) w)
    as [[acc | e] w1] eqn:Hloop; [| discriminate].
  apply category_loop_spec in Hloop as [Hfst Hsnd]. rewrite Hdry in *.
  cbn [fst snd app] in Hfst, Hsnd. rewrite Hsnd.
  destruct (constructible self config) as [| mc mcs]; [contradiction |].
  cbn [map]. unfold bind_a at 1.
  destruct (Nat.eq_dec (max_concurrent self) 0) as [Hnone | Hslot].
  - rewrite (no_slot_no_result self _ w1 Hnone) by discriminate. discriminate.
  - destruct (execute_concurrent_downloads_run self
                (_create_typed_download_task self mc
                 :: map (_create_typed_download_task self) mcs) w1)
      as (raw & w2 & Hg & -> & _); [lia |].
    cbn [gather] in Hg. unfold bind at 1, capture at 1 in Hg.
    destruct (create_returns_coroutine self mc w1) as (c & Hc). rewrite Hc in Hg.
    unfold bind at 1 in Hg.
    match type of Hg with context [gather ?ts w1] =>
      destruct (gather_total ts w1) as (rest & w3 & Hrest & _) end.
    rewrite Hrest in Hg. unfold ret in Hg. injection Hg as <- <-.
    unfold returns, bind, lift. cbn [process_results count_successful get_success].
    discriminate.
Qed.

(** C1, as the code has it: whenever the download phase returns a summary,
    its total is the sum of its three counts, the skipped count is 0, and the
    total is the number of manifest entries for which a [ModelConfig] could
    be built -- the entries whose construction failed are logged and are in
    none of the counts.  In dry-run mode a summary is always returned. *)
Theorem summary_counts_constructed_entries (self : ProvisioningSystem)
    (config : ProvisionConfigPydantic) (w : World) :
  (forall s w',
     _download_models_typed self config w = Some (Ok s, w') ->
     total_models s = (successful_downloads s + failed_downloads s + skipped_models s)%Z /\
     skipped_models s = 0%Z /\
     (0 <= successful_downloads s)%Z /\ (0 <= failed_downloads s)%Z /\
     total_models s = Z.of_nat (length (constructible self config)) /\
     (total_models s <= Z.of_nat (length (entries config)))%Z) /\
  (dry_run self = true ->
   exists s w', _download_models_typed self config w = Some (Ok s, w')).
Proof.
  split.
  - intros s w'. pose proof (constructible_le self config) as Hle.
    unfold _download_models_typed. unfold bind_a at 1, returns at 1.
    destruct (fold_loop (typed_category_step self) config ([], []) w)
      as [[acc | e] w1] eqn:Hloop; [| discriminate].
    apply category_loop_spec in Hloop as [Hfst Hsnd]. cbn [fst snd app] in Hfst, Hsnd.
    destruct (dry_run self) eqn:Hdry.
    + unfold returns, ret. intros [= <- <-]. cbn. rewrite Hfst. repeat split; lia.
    + rewrite Hsnd.
      destruct (constructible self config) as [| mc mcs] eqn:Hc.
      * cbn [map]. unfold returns, bind, log_warning, emit, ret. intros [= <- <-]. cbn.
        repeat split; lia.
      * remember (map (_create_typed_download_task self) (mc :: mcs)) as ts eqn:Hts.
        assert (Hlen : length ts = length (mc :: mcs)) by (subst ts; apply length_map).
        destruct ts as [| t ts']; [discriminate Hlen |].
        unfold bind_a at 1.
        destruct (Nat.eq_dec (max_concurrent self) 0) as [Hnone | Hslot].
        { rewrite (no_slot_no_result self _ w1 Hnone) by discriminate. discriminate. }
        destruct (execute_concurrent_downloads_run self (t :: ts') w1)
          as (raw & w2 & _ & -> & Hlen'); [lia |].
        unfold returns. unfold bind at 1. unfold lift.
        destruct (count_successful (process_results 0 raw)) as [[n ds] | e] eqn:Hcount;
          [| discriminate].
        apply count_successful_bounds in Hcount.
        unfold ret. intros [= <- <-]. cbn. rewrite Hlen', Hlen in *. cbn [length] in *.
        repeat split; lia.
  - intros Hdry.
    destruct (category_loop_dry self config ([], []) w Hdry) as (w' & Hrun & _).
    unfold _download_models_typed. unfold bind_a at 1, returns at 1. rewrite Hrun, Hdry.
    unfold returns, ret. eauto.
Qed.

Lemma summary_counts_constructed_entries_witness :
  let self := demo_system true 5 no_tokens in
  let config := [("checkpoints", [("ok", good_entry); ("broken", bad_entry)])] in
  exists s w',
    _download_models_typed self config (demo_world []) = Some (Ok s, w') /\
    total_models s = (successful_downloads s + failed_downloads s + skipped_models s)%Z /\
    total_models s = 1%Z.
Proof.
  intros self config.
  destruct (summary_counts_constructed_entries self config (demo_world [])) as [H Hdry].
  destruct (Hdry eq_refl) as (s & w' & Hrun). exists s, w'. split; [exact Hrun |].
  destruct (H s w' Hrun) as (Hsum & _ & _ & _ & Htotal & _).
  split; [exact Hsum |]. rewrite Htotal. reflexivity.
Defined.

(** C1 as the specification words it fails: an entry whose [ModelConfig]
    cannot be built is in none of the counts, so the total falls short of the
    number of entries processed -- outside dry-run mode and in it. *)
Lemma failed_construction_is_not_counted :
  let one := [("checkpoints", [("broken", bad_entry)])] in
  let two := [("checkpoints", [("ok", good_entry); ("broken", bad_entry)])] in
  length (entries one) = 1%nat /\
  option_map fst
    (_download_models_typed (demo_system false 5 no_tokens) one (demo_world []))
    = Some (Ok (mkSummary 0 0 0 0 [])) /\
  length (entries two) = 2%nat /\
  option_map fst
    (_download_models_typed (demo_system true 5 no_tokens) two (demo_world []))
    = Some (Ok (mkSummary 1 1 0 0 [])) /\
  option_map fst
    (provision_from_url
       (demo_runtime [("checkpoints", [("broken", RawDict bad_raw)])] one)
       (demo_system false 5 no_tokens) "https://host/config.toml"
       (demo_world [NetReply (plain_response 200)]))
    = Some (Ok (mkSummary 0 0 0 0 [])).
Proof.
  vm_compute. repeat split.
Qed.

(** ** Dry-run mode *)

Lemma download_models_typed_dry (self : ProvisioningSystem)
    (config : ProvisionConfigPydantic) (w : World) :
  dry_run self = true ->
  exists w',
    _download_models_typed self config w =
      Some (Ok (mkSummary (Z.of_nat (length (constructible self config)))
                  (Z.of_nat (length (constructible self config))) 0 0 []), w') /\
    quiet w w'.
Proof.
  intros Hdry.
  destruct (category_loop_dry self config ([], []) w Hdry) as (w' & Hrun & Hq).
  exists w'. split; [| exact Hq].
  unfold _download_models_typed. unfold bind_a at 1, returns at 1.
  rewrite Hrun, Hdry. reflexivity.
Qed.

Lemma download_models_typed_dry_fs (self : ProvisioningSystem)
    (config : ProvisionConfigPydantic) :
  dry_run self = true -> preserves_a fs_untouched (_download_models_typed self config).
Proof.
  intros Hdry w r w' Hrun.
  destruct (download_models_typed_dry self config w Hdry) as (w1 & Hrun1 & Hq).
  rewrite Hrun1 in Hrun. injection Hrun as _ <-. apply quiet_fs, Hq.
Qed.

Lemma provision_from_url_dry_fs (rt : Runtime) (self : ProvisioningSystem)
    (config_url : string) :
  dry_run self = true -> preserves_a fs_untouched (provision_from_url rt self config_url).
Proof.
  intros Hdry. unfold provision_from_url.
  apply preserves_a_try; [apply fs_untouched_trans | |].
  - apply preserves_a_bind; [apply fs_untouched_trans | |].
    { apply preserves_a_returns, fetch_and_parse_fs. }
    intros config_dict.
    apply preserves_a_bind; [apply fs_untouched_trans | |].
    { apply preserves_a_returns, preserves_lift, fs_untouched_refl. }
    intros config.
    apply preserves_a_bind; [apply fs_untouched_trans | |].
    { apply preserves_a_returns, validate_tokens_fs. }
    intros _.
    apply preserves_a_bind; [apply fs_untouched_trans | |].
    { apply download_models_typed_dry_fs, Hdry. }
    intros summary. apply preserves_a_returns. frame_fs.
  - intros e. frame_fs.
Qed.

(** In dry-run mode nothing waits on the semaphore, so the run comes back. *)
Lemma provision_from_url_dry_returns (rt : Runtime) (self : ProvisioningSystem)
    (config_url : string) (w : World) :
  dry_run self = true ->
  exists r w', provision_from_url rt self config_url w = Some (r, w').
Proof.
  intros Hdry. unfold provision_from_url, try_except_a.
  unfold bind_a at 1, returns at 1.
  destruct (fetch_and_parse rt (recursion_limit rt) config_url w) as [[config_dict | e] w1];
    [| eauto].
  unfold bind_a at 1, returns at 1, lift at 1.
  destruct (pydantic_validate rt config_dict) as [config | e]; [| eauto].
  unfold bind_a at 1, returns at 1.
  destruct (_validate_tokens self config_dict w1) as [[[] | e] w2]; [| eauto].
  unfold bind_a at 1.
  destruct (download_models_typed_dry self config w2 Hdry) as (w3 & -> & _).
  unfold returns, bind, log_warning, emit, ret. cbn [failed_downloads Z.eqb]. eauto.
Qed.

Lemma parse_file_fs (rt : Runtime) (config_path : string) :
  preserves fs_untouched (parse_file rt config_path).
Proof.
  unfold parse_file.
  apply preserves_try; [apply fs_untouched_trans | |].
  - apply preserves_bind; [apply fs_untouched_trans | |].
    { intros w r w' [= <- <-]. apply fs_untouched_refl. }
    intros present. destruct (negb present); [frame_fs |].
    apply preserves_bind; [apply fs_untouched_trans | |].
    { intros w r w'. destruct (files w !! config_path); intros [= <- <-];
        apply fs_untouched_refl. }
    intros content. frame_fs.
  - intros e. frame_fs.
Qed.

Lemma download_models_dry_fs (rt : Runtime) (self : ProvisioningSystem) (config : RawConfig) :
  dry_run self = true -> preserves fs_untouched (_download_models rt self config).
Proof.
  intros Hdry. unfold _download_models.
  apply preserves_bind; [apply fs_untouched_trans | |].
  - apply preserves_fold_loop; [apply fs_untouched_refl | apply fs_untouched_trans |].
    intros tasks category. unfold file_category_step. rewrite Hdry. cbn [negb].
    apply preserves_bind; [apply fs_untouched_trans | |].
    { apply preserves_ret, fs_untouched_refl. }
    intros _.
    apply preserves_fold_loop; [apply fs_untouched_refl | apply fs_untouched_trans |].
    intros tasks' item. unfold file_model_step. rewrite Hdry.
    apply preserves_ret, fs_untouched_refl.
  - intros tasks. rewrite Hdry. apply preserves_ret, fs_untouched_refl.
Qed.

Lemma provision_from_file_dry_fs (rt : Runtime) (self : ProvisioningSystem)
    (config_path : string) :
  dry_run self = true -> preserves fs_untouched (provision_from_file rt self config_path).
Proof.
  intros Hdry. unfold provision_from_file.
  apply preserves_try; [apply fs_untouched_trans | |].
  - apply preserves_bind; [apply fs_untouched_trans | apply parse_file_fs |].
    intros config.
    apply preserves_bind; [apply fs_untouched_trans | apply validate_tokens_fs |].
    intros _.
    apply preserves_bind; [apply fs_untouched_trans | |].
    { apply download_models_dry_fs, Hdry. }
    intros ok. frame_fs.
  - intros e. frame_fs.
Qed.

(** C4, as the code has it: in dry-run mode both entry points leave the file
    system as it was (no directory made, no file opened or removed), and the
    download phase makes no request and returns a summary that counts every
    entry whose [ModelConfig] can be built as successful, with no failed and
    no skipped entry.  The requests that fetch the manifest and that probe
    the tokens of gated entries are still made. *)
Theorem dry_run_writes_nothing (rt : Runtime) (self : ProvisioningSystem) (w : World) :
  dry_run self = true ->
  (forall config,
     exists s w',
       _download_models_typed self config w = Some (Ok s, w') /\
       quiet w w' /\
       total_models s = Z.of_nat (length (constructible self config)) /\
       successful_downloads s = total_models s /\
       failed_downloads s = 0%Z /\ skipped_models s = 0%Z) /\
  (forall config_url,
     exists r w',
       provision_from_url rt self config_url w = Some (r, w') /\ fs_untouched w w') /\
  (forall config_path r w',
     provision_from_file rt self config_path w = (r, w') -> fs_untouched w w').
Proof.
  intros Hdry. split; [| split].
  - intros config.
    destruct (download_models_typed_dry self config w Hdry) as (w' & Hrun & Hq).
    eexists _, w'. split; [exact Hrun |]. split; [exact Hq |]. repeat split.
  - intros config_url.
    destruct (provision_from_url_dry_returns rt self config_url w Hdry) as (r & w' & Hrun).
    exists r, w'. split; [exact Hrun |].
    exact (provision_from_url_dry_fs rt self config_url Hdry _ _ _ Hrun).
  - intros config_path r w'. apply provision_from_file_dry_fs, Hdry.
Qed.

Lemma dry_run_writes_nothing_witness :
  let raw := [("checkpoints", [("gated", RawDict gated_raw)])] in
  let typed := [("checkpoints", [("gated", gated_entry)])] in
  let self := demo_system true 5 both_tokens in
  let w := demo_world [NetReply (plain_response 200);
                       NetReply (json_response (JObj [("name", JStr "user")]));
                       NetReply (plain_response 200)] in
  (exists r w', provision_from_url (demo_runtime raw typed) self
                  "https://host/config.toml" w = Some (r, w') /\ fs_untouched w w') /\
  exists s w', _download_models_typed self typed w = Some (Ok s, w') /\ quiet w w' /\
               successful_downloads s = 1%Z.
Proof.
  intros raw typed self w.
  destruct (dry_run_writes_nothing (demo_runtime raw typed) self w eq_refl)
    as (Hphase & Hurl & _).
  split.
  - apply Hurl.
  - destruct (Hphase typed) as (s & w' & Hrun & Hq & Htotal & Hsucc & _).
    exists s, w'. split; [exact Hrun |]. split; [exact Hq |].
    rewrite Hsucc, Htotal. reflexivity.
Defined.

(** C4 as the specification words it fails: a dry run of a manifest with a
    gated entry still goes to the network, once for the manifest and once for
    each token, before it reports the entry as successful. *)
Lemma dry_run_still_calls_the_network :
  let raw := [("checkpoints", [("gated", RawDict gated_raw)])] in
  let typed := [("checkpoints", [("gated", gated_entry)])] in
  let self := demo_system true 5 both_tokens in
  let w := demo_world [NetReply (plain_response 200);
                       NetReply (json_response (JObj [("name", JStr "user")]));
                       NetReply (plain_response 200)] in
  let run := provision_from_url (demo_runtime raw typed) self "https://host/config.toml" w in
  dry_run self = true /\
  option_map fst run = Some (Ok (mkSummary 1 1 0 0 [])) /\
  option_map (fun r => net_calls (snd r)) run
    = Some [ENet "GET" "https://host/config.toml";
            ENet "GET" hf_whoami_url;
            ENet "GET" civitai_probe_url] /\
  net_calls w = [].
Proof.
  vm_compute. repeat split.
Qed.

(** ** The concurrency limit *)

Lemma held_app (before after : list Program) (p : Program) (n : nat) :
  slots_held (mkSched n (before ++ p :: after)) =
  (length (filter (fun q => holds_slot q = true) before)
   + (if holds_slot p then 1 else 0)
   + length (filter (fun q => holds_slot q = true) after))%nat.
Proof.
  unfold slots_held. cbn [tasks]. rewrite filter_app, length_app, filter_cons.
  destruct (holds_slot p); case_decide; try discriminate; try contradiction;
    simpl; lia.
Qed.

Lemma slot_free_head (i : Instr) (body : Program) :
  slot_free (i :: body) -> (i = IEnter \/ i = IExit) /\ slot_free body.
Proof. intros H. inversion H; subst. split; assumption. Qed.

Lemma behind_semaphore_acquire (rest : Program) :
  behind_semaphore (IAcquire :: rest) ->
  behind_semaphore rest /\ holds_slot rest = true.
Proof.
  intros [H | (body & Hfree & [H | H])]; [discriminate | |].
  - injection H as ->. split.
    + right. exists body. split; [exact Hfree | right; reflexivity].
    + destruct body as [| i body']; [reflexivity |].
      apply slot_free_head in Hfree as [[-> | ->] _]; reflexivity.
  - destruct body as [| i body']; [discriminate |].
    injection H as <- _. apply slot_free_head in Hfree as [[E | E] _]; discriminate.
Qed.

Lemma behind_semaphore_release (rest : Program) :
  behind_semaphore (IRelease :: rest) -> rest = [].
Proof.
  intros [H | (body & Hfree & [H | H])]; [discriminate | discriminate |].
  destruct body as [| i body'].
  - injection H as ->. reflexivity.
  - injection H as <- _. apply slot_free_head in Hfree as [[E | E] _]; discriminate.
Qed.

Lemma behind_semaphore_body (i : Instr) (rest : Program) :
  i = IEnter \/ i = IExit ->
  behind_semaphore (i :: rest) ->
  behind_semaphore rest /\ holds_slot (i :: rest) = true /\ holds_slot rest = true.
Proof.
  intros Hi [H | (body & Hfree & [H | H])]; [discriminate | |].
  - injection H as -> _. destruct Hi; discriminate.
  - destruct body as [| j body'].
    + injection H as -> _. destruct Hi; discriminate.
    + injection H as <- ->. apply slot_free_head in Hfree as [_ Hfree].
      split; [| split].
      * right. exists body'. split; [exact Hfree | right; reflexivity].
      * destruct Hi as [-> | ->]; reflexivity.
      * destruct body' as [| k body'']; [reflexivity |].
        apply slot_free_head in Hfree as [[-> | ->] _]; reflexivity.
Qed.

(** What every step keeps true of a schedule whose tasks all run behind a
    semaphore of [limit] slots. *)
Lemma semaphore_invariant_step (limit : nat) (s s' : Sched) :
  sched_step s s' ->
  Forall behind_semaphore (tasks s) /\ (permits s + slots_held s = limit)%nat ->
  Forall behind_semaphore (tasks s') /\ (permits s' + slots_held s' = limit)%nat.
Proof.
  intros Hstep [Hwf Hsum].
  destruct Hstep as [n before rest after | n before rest after
                    | n before rest after | n before rest after];
    cbn [tasks permits] in *; rewrite held_app in *;
    apply Forall_app in Hwf as [Hb Hrest]; apply Forall_cons in Hrest as [Hp Ha].
  - apply behind_semaphore_acquire in Hp as [Hp Hh]. rewrite Hh. cbn [holds_slot] in Hsum.
    split; [apply Forall_app; split; [exact Hb | apply Forall_cons; split; assumption] | lia].
  - apply behind_semaphore_release in Hp as ->. cbn [holds_slot] in *.
    split; [apply Forall_app; split;
              [exact Hb | apply Forall_cons; split; [left; reflexivity | exact Ha]] | lia].
  - apply behind_semaphore_body in Hp as (Hp & Hh & Hh'); [| left; reflexivity].
    rewrite Hh in Hsum. rewrite Hh'.
    split; [apply Forall_app; split; [exact Hb | apply Forall_cons; split; assumption] | lia].
  - apply behind_semaphore_body in Hp as (Hp & Hh & Hh'); [| right; reflexivity].
    rewrite Hh in Hsum. rewrite Hh'.
    split; [apply Forall_app; split; [exact Hb | apply Forall_cons; split; assumption] | lia].
Qed.

Lemma in_flight_le_held (s : Sched) : (in_flight s <= slots_held s)%nat.
Proof.
  unfold in_flight, slots_held. induction (tasks s) as [| p rest IH]; [reflexivity |].
  rewrite !filter_cons.
  destruct p as [| [] p']; cbn [inside_call holds_slot];
    repeat case_decide; try discriminate; try contradiction; simpl; lia.
Qed.

Lemma initial_schedule_invariant (limit : nat) (bodies : list Program) :
  Forall slot_free bodies ->
  Forall behind_semaphore (map with_semaphore bodies) /\
  slots_held (mkSched limit (map with_semaphore bodies)) = 0%nat.
Proof.
  intros Hfree. unfold slots_held. cbn [tasks].
  induction Hfree as [| body rest Hb Hrest [IHwf IHheld]]; [split; [constructor | reflexivity] |].
  cbn [map]. split.
  - constructor; [| exact IHwf]. right. exists body. split; [exact Hb | left; reflexivity].
  - rewrite filter_cons. cbn [with_semaphore holds_slot].
    case_decide; [discriminate | exact IHheld].
Qed.

(** Behind the semaphore the limit holds: in every state that the schedule
    of [_execute_concurrent_downloads] can reach, whatever the task bodies
    call, the tasks inside an adapter call are at most [max_concurrent]. *)
Lemma semaphore_bounds_in_flight (self : ProvisioningSystem) (bodies : list Program)
    (s : Sched) :
  Forall slot_free bodies ->
  rtc sched_step (typed_schedule self bodies) s ->
  (in_flight s <= max_concurrent self)%nat.
Proof.
  intros Hfree Hreach.
  assert (Hinv : Forall behind_semaphore (tasks s) /\
                 (permits s + slots_held s = max_concurrent self)%nat).
  { revert s Hreach.
    apply (rtc_ind_r (fun s => Forall behind_semaphore (tasks s) /\
                               (permits s + slots_held s = max_concurrent self)%nat)).
    - destruct (initial_schedule_invariant (max_concurrent self) bodies Hfree)
        as [Hwf Hheld].
      unfold typed_schedule. cbn [tasks permits]. split; [exact Hwf |].
      unfold typed_schedule in Hheld. rewrite Hheld. lia.
    - intros s1 s2 _ Hstep IH. exact (semaphore_invariant_step _ _ _ Hstep IH). }
  pose proof (in_flight_le_held s). lia.
Qed.

(** The schedule of the typed path stays within the limit. *)
Lemma typed_path_respects_limit (self : ProvisioningSystem) (model_configs : list ModelConfig)
    (s : Sched) :
  rtc sched_step (typed_schedule self (map typed_task_steps model_configs)) s ->
  (in_flight s <= max_concurrent self)%nat.
Proof.
  apply semaphore_bounds_in_flight. apply Forall_map, Forall_forall.
  intros mc _. constructor.
Qed.

(** The steps kept for a task of the file path are those of the task
    [_create_download_task] builds: there is a task exactly when there are
    steps. *)
Lemma file_task_steps_dispatch (rt : Runtime) (self : ProvisioningSystem)
    (model_name dir : string) (entry : RawEntry) (w : World) :
  (exists task, fst (_create_download_task rt self model_name entry dir w) = Ok (Some task))
  <-> (exists steps, file_task_steps entry = Some steps).
Proof.
  unfold _create_download_task, file_task_steps.
  destruct entry as [u | d]; [split; intros _; eexists; reflexivity |].
  destruct (String.eqb _ "huggingface"); [split; intros _; eexists; reflexivity |].
  destruct (String.eqb _ "civitai"); [split; intros _; eexists; reflexivity |].
  destruct (String.eqb _ "url"); [split; intros _; eexists; reflexivity |].
  split; intros [x H]; discriminate H.
Qed.

(** Without the semaphore nothing bounds them: [k] tasks that each call an
    adapter can all be inside their call at once, whatever the limit. *)
Lemma ungated_tasks_all_in_flight (limit k : nat) (started : list Program) :
  rtc sched_step (mkSched limit (started ++ replicate k adapter_call))
                 (mkSched limit (started ++ replicate k [IExit])).
Proof.
  revert started. induction k as [| k IH]; intros started; [apply rtc_refl |].
  cbn [replicate]. eapply rtc_l.
  - apply (step_enter limit started [IExit] (replicate k adapter_call)).
  - specialize (IH (started ++ [[IExit]])%list). rewrite <- !app_assoc in IH. exact IH.
Qed.

Lemma in_flight_replicate (limit k : nat) :
  in_flight (mkSched limit (replicate k [IExit])) = k.
Proof.
  unfold in_flight. cbn [tasks]. induction k as [| k IH]; [reflexivity |].
  cbn [replicate]. rewrite filter_cons. cbn [inside_call].
  case_decide; [| contradiction]. simpl. rewrite IH. reflexivity.
Qed.

(** C2 fails on [provision_from_file]: with the limit set to 1, the two
    downloads of a two-entry manifest can both be inside their adapter call
    at once, because [_download_models] hands its tasks to [asyncio.gather]
    without the semaphore. *)
Theorem file_path_ignores_the_limit :
  let self := demo_system false 1 no_tokens in
  let config := [("lora", [("a", url_entry "https://host/a.safetensors");
                           ("b", url_entry "https://host/b.safetensors")])] in
  max_concurrent self = 1%nat /\
  tasks (file_schedule self config) = [adapter_call; adapter_call] /\
  exists s, rtc sched_step (file_schedule self config) s /\ in_flight s = 2%nat.
Proof.
  intros self config. split; [reflexivity |]. split; [reflexivity |].
  exists (mkSched 1 (replicate 2 [IExit])). split.
  - exact (ungated_tasks_all_in_flight 1 2 []).
  - apply in_flight_replicate.
Qed.

(** ** Gated entries *)

Lemma validate_never_raises (p : Platform) (self : TokenValidator) (w : World) :
  exists b w', validate p self w = (Ok b, w').
Proof.
  destruct p; cbn [validate]; unfold validate_hf_token, validate_civitai_token.
  - destruct (truthy (hf_token self)); cbn [negb].
    + unfold try_except, bind, request, lift, log_error, emit, ret.
      destruct (net w) as [| [e | r] rest]; simpl; eauto.
      destruct (status r =? 200)%Z; simpl; eauto.
      destruct (resp_json r) as [data | e]; simpl; eauto.
      destruct (jget data "name" (JStr "unknown")); simpl; eauto.
    + unfold bind, log_warning, emit, ret. simpl. eauto.
  - destruct (truthy (civitai_token self)); cbn [negb].
    + unfold try_except, bind, request, lift, log_error, emit, ret.
      destruct (net w) as [| [e | r] rest]; simpl; eauto.
      destruct (status r =? 200)%Z; simpl; eauto.
    + unfold bind, log_warning, emit, ret. simpl. eauto.
Qed.

Lemma trace_grows_refl (w : World) : trace_grows w w.
Proof. exists []. symmetry. apply app_nil_r. Qed.

Lemma trace_grows_trans (w1 w2 w3 : World) :
  trace_grows w1 w2 -> trace_grows w2 w3 -> trace_grows w1 w3.
Proof.
  intros [t1 H1] [t2 H2]. exists (t1 ++ t2)%list. rewrite H2, H1, app_assoc. reflexivity.
Qed.

Lemma log_gated_model_error_runs (model : RawModel) (platform : string) (w : World) :
  exists w' tr,
    _log_gated_model_error model platform w = (Ok tt, w') /\
    trace w' = (trace w ++ gated_denied :: tr)%list.
Proof.
  unfold _log_gated_model_error, bind, log_error, emit, ret.
  destruct (String.eqb platform "HuggingFace");
    [destruct (negb (is_empty (default EmptyString (r_repo model))))
    | destruct (String.eqb platform "CivitAI")];
    cbn [trace files dirs net]; eexists _, _; (split; [reflexivity |]);
    cbn [trace]; rewrite <- !app_assoc; reflexivity.
Qed.

(** The loop of [_validate_tokens] over the gated entries: it always
    completes, and it logs the denial for every entry whose [source] key names
    a platform whose token was found invalid. *)
Lemma gated_status_loop (hf_valid civitai_valid : bool) (gated_models : list RawModel)
    (w : World) :
  exists w',
    for_each gated_models
      (fun model =>
         let source := default "unknown" (r_source model) in
         if String.eqb source "huggingface" && negb hf_valid then
           _log_gated_model_error model "HuggingFace"
         else if String.eqb source "civitai" && negb civitai_valid then
           _log_gated_model_error model "CivitAI"
         else ret tt) w = (Ok tt, w') /\
    trace_grows w w' /\
    ((exists model, In model gated_models /\
        (r_source model = Some "huggingface" /\ hf_valid = false \/
         r_source model = Some "civitai" /\ civitai_valid = false)) ->
     exists tr, trace w' = (trace w ++ tr)%list /\ In gated_denied tr).
Proof.
  revert w. induction gated_models as [| m rest IH]; intros w.
  - exists w. split; [reflexivity |]. split; [apply trace_grows_refl |].
    intros (model & [] & _).
  - cbn [for_each]. unfold bind at 1.
    set (body := if String.eqb (default "unknown" (r_source m)) "huggingface" && negb hf_valid
                 then _log_gated_model_error m "HuggingFace"
                 else if String.eqb (default "unknown" (r_source m)) "civitai"
                         && negb civitai_valid
                      then _log_gated_model_error m "CivitAI"
                      else ret tt).
    assert (Hbody : exists w1 tr1,
               body w = (Ok tt, w1) /\ trace w1 = (trace w ++ tr1)%list /\
               ((r_source m = Some "huggingface" /\ hf_valid = false \/
                 r_source m = Some "civitai" /\ civitai_valid = false) ->
                In gated_denied tr1)).
    { subst body.
      destruct (String.eqb (default "unknown" (r_source m)) "huggingface" && negb hf_valid)
        eqn:Hhf.
      - destruct (log_gated_model_error_runs m "HuggingFace" w) as (w1 & tr & Hrun & Htr).
        exists w1, (gated_denied :: tr). split; [exact Hrun |]. split; [exact Htr |].
        intros _. left. reflexivity.
      - destruct (String.eqb (default "unknown" (r_source m)) "civitai" && negb civitai_valid)
          eqn:Hcv.
        + destruct (log_gated_model_error_runs m "CivitAI" w) as (w1 & tr & Hrun & Htr).
          exists w1, (gated_denied :: tr). split; [exact Hrun |]. split; [exact Htr |].
          intros _. left. reflexivity.
        + exists w, []. split; [reflexivity |]. split; [symmetry; apply app_nil_r |].
          intros [[Hs Hv] | [Hs Hv]]; rewrite Hs, Hv in *; discriminate. }
    destruct Hbody as (w1 & tr1 & Hrun & Htr1 & Hin1). fold body. rewrite Hrun.
    destruct (IH w1) as (w' & Hrest & [tr2 Htr2] & Hin2).
    exists w'. split; [exact Hrest |]. split.
    + exists (tr1 ++ tr2)%list. rewrite Htr2, Htr1, app_assoc. reflexivity.
    + intros (model & [<- | Hin] & Hcond).
      * exists (tr1 ++ tr2)%list. split; [rewrite Htr2, Htr1, app_assoc; reflexivity |].
        apply in_or_app. left. apply Hin1, Hcond.
      * destruct Hin2 as (tr & Htr & Hd); [exists model; split; assumption |].
        exists (tr1 ++ tr)%list. split; [rewrite Htr, Htr1, app_assoc; reflexivity |].
        apply in_or_app. right. exact Hd.
Qed.

(** [_validate_tokens] on a manifest with gated entries: it probes both
    tokens, always completes, and reports every gated entry whose [source] key
    names a platform whose probe answered false. *)
Lemma declared_gated_entry_is_reported (self : ProvisioningSystem) (config : RawConfig)
    (model : RawModel) (w : World) :
  In model (_find_gated_models config) ->
  exists hf_valid w1 civitai_valid w2 w',
    validate_hf_token (token_validator self) w = (Ok hf_valid, w1) /\
    validate_civitai_token (token_validator self)
      (if hf_valid then w1
       else snd (log_warning "⚠️  HuggingFace token is invalid or missing" w1))
      = (Ok civitai_valid, w2) /\
    _validate_tokens self config w = (Ok tt, w') /\
    (r_source model = Some "huggingface" /\ hf_valid = false \/
     r_source model = Some "civitai" /\ civitai_valid = false ->
     In gated_denied (trace w')).
Proof.
  intros Hin. unfold _validate_tokens.
  destruct (_find_gated_models config) as [| m ms] eqn:Hgated; [destruct Hin |].
  destruct (validate_never_raises Hub (token_validator self) w) as (hf & w1 & Hhf).
  cbn [validate] in Hhf. exists hf, w1.
  set (w1' := if hf then w1
              else snd (log_warning "⚠️  HuggingFace token is invalid or missing" w1)).
  destruct (validate_never_raises Marketplace (token_validator self) w1')
    as (cv & w2 & Hcv).
  cbn [validate] in Hcv. exists cv, w2.
  set (w2' := if cv then w2
              else snd (log_warning "⚠️  CivitAI token is invalid or missing" w2)).
  destruct (gated_status_loop hf cv (m :: ms) w2') as (w' & Hrun & _ & Hden).
  exists w'. split; [exact Hhf |]. split; [exact Hcv |]. split.
  - unfold bind at 1. rewrite Hhf. unfold bind at 1.
    assert (E1 : (if hf then ret tt
                  else log_warning "⚠️  HuggingFace token is invalid or missing") w1
                 = (Ok tt, w1')) by (subst w1'; destruct hf; reflexivity).
    rewrite E1. unfold bind at 1. rewrite Hcv. unfold bind at 1.
    assert (E2 : (if cv then ret tt
                  else log_warning "⚠️  CivitAI token is invalid or missing") w2
                 = (Ok tt, w2')) by (subst w2'; destruct cv; reflexivity).
    rewrite E2. exact Hrun.
  - intros Hcond. destruct Hden as (tr & -> & Hd).
    + exists model. split; [exact Hin | exact Hcond].
    + apply in_or_app. right. exact Hd.
Qed.

(** Which downloads are dispatched does not depend on the tokens: neither
    download phase looks at the validator. *)
Lemma tokens_play_no_part (rt : Runtime) (self : ProvisioningSystem)
    (tokens : TokenValidator) :
  (forall config,
     _download_models_typed (with_tokens self tokens) config
     = _download_models_typed self config) /\
  (forall config,
     _download_models rt (with_tokens self tokens) config = _download_models rt self config).
Proof.
  split; intros config; reflexivity.
Qed.

(** C8 fails where the entry leaves its source to be detected: for a gated
    hub entry without a [source] key and no hub token, [_validate_tokens]
    logs no error at all, although [_create_download_task] detects the hub as
    the source and dispatches the download.  With the key present the error
    is logged.  In both cases the download phases are the same whatever the
    tokens are. *)
Theorem gated_entry_without_source_is_not_reported :
  let self := demo_system false 5 no_tokens in
  let rt := demo_runtime [] [] in
  let w := demo_world [] in
  let sourceless := [("checkpoints", [("gated", RawDict sourceless_gated_raw)])] in
  let declared := [("checkpoints", [("gated", RawDict gated_raw)])] in
  _find_gated_models sourceless = [sourceless_gated_raw] /\
  _detect_source sourceless_gated_raw = "huggingface" /\
  fst (validate_hf_token (token_validator self) w) = Ok false /\
  error_logs (snd (_validate_tokens self sourceless w)) = [] /\
  (exists task,
     fst (_create_download_task rt self "gated" (RawDict sourceless_gated_raw)
            (path_join models_root "Stable-diffusion") w) = Ok (Some task)) /\
  tasks (file_schedule self sourceless) = [adapter_call] /\
  In gated_denied
     (error_logs (snd (_validate_tokens self declared w))) /\
  (forall tokens config,
     _download_models rt (with_tokens self tokens) config = _download_models rt self config).
Proof.
  intros self rt w sourceless declared.
  split; [reflexivity |]. split; [reflexivity |]. split; [reflexivity |].
  split; [vm_compute; reflexivity |].
  split; [eexists; reflexivity |].
  split; [reflexivity |].
  split; [vm_compute; left; reflexivity |].
  intros tokens config. apply (tokens_play_no_part rt self tokens).
Qed.

(** ** Token probes, continued *)

(** What one probe does to the world, whatever it answers. *)
Lemma validate_run (p : Platform) (self : TokenValidator) (w : World) :
  exists b w',
    validate p self w = (Ok b, w') /\
    b = truthy (token_of p self) && match net w with
                                   | reply :: _ => reply_accepts p reply
                                   | [] => false
                                   end /\
    files w' = files w /\ dirs w' = dirs w /\
    net w' = (if truthy (token_of p self) then tl (net w) else net w) /\
    net_calls w' = (net_calls w ++ requests_if (token_of p self) (probe_url p))%list.
Proof.
  destruct w as [f d n tr].
  destruct p; simpl; unfold validate_hf_token, validate_civitai_token, requests_if.
  - destruct (truthy (hf_token self)) eqn:Htok; simpl.
    + unfold try_except, bind, request, lift, log_error, emit, ret. simpl.
      destruct n as [| [e | r] rest]; simpl.
      * eexists _, _. split; [reflexivity |]. repeat (split; [reflexivity |]).
        rewrite !net_calls_snoc. simpl. rewrite app_nil_r. reflexivity.
      * eexists _, _. split; [reflexivity |]. repeat (split; [reflexivity |]).
        rewrite !net_calls_snoc. simpl. rewrite app_nil_r. reflexivity.
      * destruct (status r =? 200)%Z; simpl.
        -- destruct (resp_json r) as [data | e]; simpl.
           ++ destruct data; simpl;
                eexists _, _; (split; [reflexivity |]); repeat (split; [reflexivity |]);
                rewrite !net_calls_snoc; simpl; rewrite ?app_nil_r; reflexivity.
           ++ eexists _, _. split; [reflexivity |]. repeat (split; [reflexivity |]).
              rewrite !net_calls_snoc. simpl. rewrite app_nil_r. reflexivity.
        -- eexists _, _. split; [reflexivity |]. repeat (split; [reflexivity |]).
           rewrite !net_calls_snoc. simpl. rewrite app_nil_r. reflexivity.
    + unfold bind, log_warning, emit, ret. simpl.
      eexists _, _. split; [reflexivity |]. repeat (split; [reflexivity |]).
      rewrite net_calls_snoc. simpl. reflexivity.
  - destruct (truthy (civitai_token self)) eqn:Htok; simpl.
    + unfold try_except, bind, request, lift, log_error, emit, ret. simpl.
      destruct n as [| [e | r] rest]; simpl.
      * eexists _, _. split; [reflexivity |]. repeat (split; [reflexivity |]).
        rewrite !net_calls_snoc. simpl. rewrite app_nil_r. reflexivity.
      * eexists _, _. split; [reflexivity |]. repeat (split; [reflexivity |]).
        rewrite !net_calls_snoc. simpl. rewrite app_nil_r. reflexivity.
      * destruct (status r =? 200)%Z; simpl;
          eexists _, _; (split; [reflexivity |]); repeat (split; [reflexivity |]);
          rewrite !net_calls_snoc; simpl; rewrite ?app_nil_r; reflexivity.
    + unfold bind, log_warning, emit, ret. simpl.
      eexists _, _. split; [reflexivity |]. repeat (split; [reflexivity |]).
      rewrite net_calls_snoc. simpl. reflexivity.
Qed.

(** X1: a probe answers true exactly when its token is set and the reply to
    its request has status 200 -- and, for the hub, a body that is a JSON
    object; a transport error, another status or an unusable body all give
    false. *)
Theorem probe_answers_true_iff (p : Platform) (self : TokenValidator) (w : World) :
  fst (validate p self w) = Ok true <->
  truthy (token_of p self) = true /\
  exists reply rest, net w = reply :: rest /\ reply_accepts p reply = true.
Proof.
  destruct (validate_run p self w) as (b & w' & Hrun & Hb & _).
  rewrite Hrun. simpl. split.
  - intros [= ->]. symmetry in Hb. apply andb_true_iff in Hb as [Htok Hreply].
    split; [exact Htok |]. destruct (net w) as [| reply rest]; [discriminate |].
    exists reply, rest. split; [reflexivity | exact Hreply].
  - intros (Htok & reply & rest & Hnet & Hacc). rewrite Hnet, Htok, Hacc in Hb.
    subst b. reflexivity.
Qed.

(** X2: with its token set, a probe makes exactly one request, a GET to its
    platform's endpoint, uses up exactly one reply, and leaves the files and
    directories as they were. *)
Theorem probe_makes_one_request (p : Platform) (self : TokenValidator) (w : World) :
  truthy (token_of p self) = true ->
  let w' := snd (validate p self w) in
  net_calls w' = (net_calls w ++ [ENet "GET" (probe_url p)])%list /\
  net w' = tl (net w) /\ files w' = files w /\ dirs w' = dirs w.
Proof.
  intros Htok.
  destruct (validate_run p self w) as (b & w' & Hrun & _ & Hf & Hd & Hn & Hc).
  rewrite Hrun. simpl. unfold requests_if in Hc. rewrite Htok in Hn, Hc.
  repeat split; assumption.
Qed.

Lemma probe_makes_one_request_witness :
  let w := mkWorld ∅ ∅ [NetReply (plain_response 200); NetReply (plain_response 401)] [] in
  let w' := snd (validate Marketplace both_tokens w) in
  net_calls w' = (net_calls w ++ [ENet "GET" (probe_url Marketplace)])%list /\
  net w' = tl (net w) /\ files w' = files w /\ dirs w' = dirs w.
Proof.
  apply (probe_makes_one_request Marketplace both_tokens). reflexivity.
Defined.

Lemma check_access_run (token : option string) (target : string)
    (m404 m403 : string) (other : Z -> string) (prefix : string) (w : World) :
  exists b w',
    (if negb (truthy token) then ret false
     else
       try_except
         (let* response := request "GET" target in
          if (status response =? 200)%Z then ret true
          else if (status response =? 404)%Z then log_warning m404 ;;; ret false
          else if (status response =? 403)%Z then log_warning m403 ;;; ret false
          else log_warning (other (status response)) ;;; ret false)
         (fun e => log_error (prefix ++ str_exn e) ;;; ret false)) w = (Ok b, w') /\
    b = truthy token && match net w with
                        | NetReply r :: _ => (status r =? 200)%Z
                        | _ => false
                        end /\
    files w' = files w /\ dirs w' = dirs w /\
    net_calls w' = (net_calls w ++ requests_if token target)%list.
Proof.
  destruct w as [f d n tr]. unfold requests_if.
  destruct (truthy token); simpl.
  - unfold try_except, bind, request, log_error, log_warning, emit, ret. simpl.
    destruct n as [| [e | r] rest]; simpl.
    1, 2: eexists _, _; (split; [reflexivity |]); repeat (split; [reflexivity |]);
          rewrite !net_calls_snoc; simpl; rewrite app_nil_r; reflexivity.
    destruct (status r =? 200)%Z; [| destruct (status r =? 404)%Z;
                                      [| destruct (status r =? 403)%Z]]; simpl;
      eexists _, _; (split; [reflexivity |]); repeat (split; [reflexivity |]);
      rewrite !net_calls_snoc; simpl; rewrite ?app_nil_r; reflexivity.
  - unfold ret. eexists _, _. split; [reflexivity |]. repeat (split; [reflexivity |]).
    rewrite app_nil_r. reflexivity.
Qed.

(** X3: the access check never ends with an exception and never touches a
    file; it answers true only for one of the two known platforms, with that
    platform's token set and a reply of status 200; for any other platform
    name it answers false without a request. *)
Theorem check_repo_access_contract (self : TokenValidator) (repo_id platform : string)
    (w : World) :
  exists b w',
    check_repo_access self repo_id platform w = (Ok b, w') /\
    files w' = files w /\ dirs w' = dirs w /\
    (b = true ->
     (exists r rest, net w = NetReply r :: rest /\ status r = 200%Z) /\
     ((platform = "huggingface" /\ truthy (hf_token self) = true /\
       net_calls w' = (net_calls w ++ [ENet "GET" (hf_model_url repo_id)])%list) \/
      (platform = "civitai" /\ truthy (civitai_token self) = true /\
       net_calls w' = (net_calls w ++ [ENet "GET" (civitai_version_url repo_id)])%list))) /\
    (platform <> "huggingface" -> platform <> "civitai" ->
     b = false /\ net_calls w' = net_calls w /\ net w' = net w).
Proof.
  unfold check_repo_access.
  destruct (String.eqb_spec platform "huggingface") as [Ehf | Nhf];
    [| destruct (String.eqb_spec platform "civitai") as [Ecv | Ncv]].
  - unfold _check_hf_repo_access.
    match goal with |- context [log_error (?pre ++ str_exn _)] =>
      destruct (check_access_run (hf_token self) (hf_model_url repo_id)
                  ("Repository " ++ repo_id ++ " not found")
                  ("Access denied to repository " ++ repo_id)
                  (fun st => "Unexpected status " ++ str_Z st ++ " for " ++ repo_id)
                  pre w) as (b & w' & Hrun & Hb & Hf & Hd & Hc) end.
    exists b, w'. split; [exact Hrun |]. split; [exact Hf |]. split; [exact Hd |].
    split; [| intros N; contradiction].
    intros ->. symmetry in Hb. apply andb_true_iff in Hb as [Htok Hreply].
    split.
    + destruct (net w) as [| [e | r] rest]; try discriminate.
      exists r, rest. split; [reflexivity |]. apply Z.eqb_eq. exact Hreply.
    + left. split; [exact Ehf |]. split; [exact Htok |].
      unfold requests_if in Hc. rewrite Htok in Hc. exact Hc.
  - unfold _check_civitai_model_access.
    match goal with |- context [log_error (?pre ++ str_exn _)] =>
      destruct (check_access_run (civitai_token self) (civitai_version_url repo_id)
                  ("Model " ++ repo_id ++ " not found")
                  ("Access denied to model " ++ repo_id)
                  (fun st => "Unexpected status " ++ str_Z st ++ " for model " ++ repo_id)
                  pre w) as (b & w' & Hrun & Hb & Hf & Hd & Hc) end.
    exists b, w'. split; [exact Hrun |]. split; [exact Hf |]. split; [exact Hd |].
    split; [| intros _ N; contradiction].
    intros ->. symmetry in Hb. apply andb_true_iff in Hb as [Htok Hreply].
    split.
    + destruct (net w) as [| [e | r] rest]; try discriminate.
      exists r, rest. split; [reflexivity |]. apply Z.eqb_eq. exact Hreply.
    + right. split; [exact Ecv |]. split; [exact Htok |].
      unfold requests_if in Hc. rewrite Htok in Hc. exact Hc.
  - unfold bind, log_error, emit, ret. destruct w as [f d n tr]. simpl.
    eexists _, _. split; [reflexivity |]. split; [reflexivity |]. split; [reflexivity |].
    split; [discriminate |]. intros _ _. split; [reflexivity |]. split; [| reflexivity].
    rewrite net_calls_snoc. simpl. apply app_nil_r.
Qed.

Lemma check_repo_access_contract_witness :
  exists b w',
    check_repo_access both_tokens "org/model" "gitlab" empty_world = (Ok b, w') /\
    b = false /\ net_calls w' = net_calls empty_world /\ net w' = net empty_world.
Proof.
  destruct (check_repo_access_contract both_tokens "org/model" "gitlab" empty_world)
    as (b & w' & Hrun & _ & _ & _ & H).
  exists b, w'. split; [exact Hrun |]. apply H; discriminate.
Defined.

(** X4: validating all tokens never ends with an exception; it answers for
    both platforms, true only for a platform whose token is set; it sends one
    request per token that is set, the hub's first, and changes no file. *)
Theorem validate_all_tokens_contract (self : TokenValidator) (w : World) :
  exists hf_valid civitai_valid w',
    validate_all_tokens self w =
      (Ok [("huggingface", hf_valid); ("civitai", civitai_valid)], w') /\
    (hf_valid = true -> truthy (hf_token self) = true) /\
    (civitai_valid = true -> truthy (civitai_token self) = true) /\
    net_calls w' = (net_calls w ++ requests_if (hf_token self) hf_whoami_url
                                ++ requests_if (civitai_token self) civitai_probe_url)%list /\
    files w' = files w /\ dirs w' = dirs w.
Proof.
  unfold validate_all_tokens.
  destruct (validate_run Hub self w) as (hf & w1 & Hrun1 & Hb1 & Hf1 & Hd1 & _ & Hc1).
  destruct (validate_run Marketplace self w1) as (cv & w2 & Hrun2 & Hb2 & Hf2 & Hd2 & _ & Hc2).
  simpl in Hrun1, Hrun2, Hb1, Hb2, Hc1, Hc2.
  unfold bind at 1. rewrite Hrun1. unfold bind at 1. rewrite Hrun2.
  assert (Hlog : forall (m : M unit),
             (m = ret tt \/ exists msg, m = log_warning msg) ->
             exists w3, (m ;;; ret [("huggingface", hf); ("civitai", cv)]) w2
                        = (Ok [("huggingface", hf); ("civitai", cv)], w3) /\
                        files w3 = files w2 /\ dirs w3 = dirs w2 /\
                        net_calls w3 = net_calls w2).
  { intros m [-> | [msg ->]].
    - exists w2. repeat split.
    - unfold bind, log_warning, emit, ret. eexists. split; [reflexivity |].
      destruct w2 as [f d n tr]. simpl. split; [reflexivity |]. split; [reflexivity |].
      rewrite net_calls_snoc. simpl. apply app_nil_r. }
  match goal with |- context [bind ?m _ w2] =>
    destruct (Hlog m) as (w3 & Hrun3 & Hf3 & Hd3 & Hc3) end.
  { destruct (_ =? 0)%nat; [right; eauto |].
    destruct (_ =? _)%nat; [left; reflexivity | right; eauto]. }
  exists hf, cv, w3. split; [exact Hrun3 |].
  split; [intros ->; symmetry in Hb1; apply andb_true_iff in Hb1 as [H _]; exact H |].
  split; [intros ->; symmetry in Hb2; apply andb_true_iff in Hb2 as [H _]; exact H |].
  split; [rewrite Hc3, Hc2, Hc1, <- app_assoc; reflexivity |].
  split; congruence.
Qed.

Lemma validate_all_tokens_contract_witness :
  exists hf_valid civitai_valid w',
    validate_all_tokens (mkTokenValidator None (Some "tok"))
      (mkWorld ∅ ∅ [NetReply (plain_response 200)] []) =
      (Ok [("huggingface", hf_valid); ("civitai", civitai_valid)], w') /\
    net_calls w' = [ENet "GET" civitai_probe_url].
Proof.
  destruct (validate_all_tokens_contract (mkTokenValidator None (Some "tok"))
              (mkWorld ∅ ∅ [NetReply (plain_response 200)] []))
    as (hf & cv & w' & Hrun & _ & _ & Hc & _).
  exists hf, cv, w'. split; [exact Hrun | exact Hc].
Defined.

(** ** The adapters, continued *)

Lemma try_except_total {A : Type} (body : M A) (handler : exn -> M A) (w : World) :
  (forall e w1, exists a w', handler e w1 = (Ok a, w')) ->
  exists a w', try_except body handler w = (Ok a, w').
Proof.
  intros Hh. unfold try_except. destruct (body w) as [[a | e] w1]; eauto.
Qed.

Lemma log_then_false (msg : string) (w : World) :
  exists a w', (log_error msg ;;; ret false) w = (Ok a, w').
Proof.
  unfold bind, log_error, emit, ret. eauto.
Qed.

Lemma direct_download_total (rt : Runtime) (model u dir fname : string) (w : World) :
  exists b w', direct_download rt model u dir fname w = (Ok b, w').
Proof.
  unfold direct_download. apply try_except_total. intros e w1. apply log_then_false.
Qed.

Lemma civitai_download_total (rt : Runtime) (model model_id dir fname : string) (w : World) :
  exists b w', civitai_download rt model model_id dir fname w = (Ok b, w').
Proof.
  unfold civitai_download. apply try_except_total. intros e w1. apply log_then_false.
Qed.

(** X5: none of the three [download] methods ends with an exception, whatever
    the network, the file system and the hub client do -- a transfer that
    breaks, a reply that cannot be read, a recursion that goes too deep all
    come back as False. *)
Theorem adapter_downloads_never_raise (rt : Runtime) (self : HuggingFaceDownloader)
    (model id dir fname : string) (gated : bool) (w : World) :
  (exists b w', hf_download rt self model id fname dir gated w = (Ok b, w')) /\
  (exists b w', civitai_download rt model id dir fname w = (Ok b, w')) /\
  (exists b w', direct_download rt model id dir fname w = (Ok b, w')).
Proof.
  split; [apply hf_download_returns |].
  split; [apply civitai_download_total | apply direct_download_total].
Qed.

Lemma append_empty_r (s : string) : s ++ EmptyString = s.
Proof.
  induction s as [| c s' IH]; [reflexivity |].
  change (String c (s' ++ EmptyString) = String c s'). f_equal. exact IH.
Qed.

Lemma append_assoc_s (a b c : string) : (a ++ b) ++ c = a ++ (b ++ c).
Proof.
  induction a as [| x a' IH]; [reflexivity |].
  change (String x ((a' ++ b) ++ c) = String x (a' ++ (b ++ c))). f_equal. exact IH.
Qed.

Lemma write_chunks_content (p : string) (cs : list string) (s : string)
    (f : gmap string string) (d : gset string) (n : list Reply) (tr : list Event) :
  f !! p = Some s ->
  write_chunks p cs (mkWorld f d n tr) =
  (Ok tt, mkWorld (<[p := s ++ fold_right String.append EmptyString cs]> f) d n tr).
Proof.
  revert s f. induction cs as [| c rest IH]; intros s f Hs; simpl.
  - unfold ret. rewrite append_empty_r, insert_id by exact Hs. reflexivity.
  - unfold bind at 1. unfold write at 1. simpl. rewrite Hs. simpl.
    rewrite (IH (s ++ c)) by apply lookup_insert_eq.
    rewrite insert_insert_eq, append_assoc_s. reflexivity.
Qed.

Lemma stream_to_content (p : string) (r : Response) (w : World) :
  (p ∉ dirs w) -> stream_error r = None ->
  stream_to p r w =
  (Ok tt, mkWorld (<[p := body_of r]> (files w)) (dirs w) (net w)
            (trace w ++ [EOpen p])%list).
Proof.
  intros Hdir Hend. unfold stream_to. unfold bind at 1. unfold open_wb.
  rewrite (bool_decide_eq_false_2 _ Hdir). unfold bind at 1.
  rewrite (write_chunks_content p (chunks r) EmptyString) by apply lookup_insert_eq.
  rewrite Hend. unfold ret. rewrite insert_insert_eq. reflexivity.
Qed.

Section CompletedTransfer.

Variable rt : Runtime.
Variables (target : string) (r : Response) (n : Z) (w : World).

Hypothesis Hlength : content_length r = Ok n.
Hypothesis Hend : stream_error r = None.
Hypothesis Hdir : target ∉ dirs w.
Hypothesis Hparent : path_parent rt target ∉ dom (files w).
Hypothesis Hdistinct : path_parent rt target <> target.

Lemma save_response_ok :
  (let* total_size := lift (content_length r) in
   mkdir (path_parent rt target) ;;; stream_to target r ;;; ret true) w =
  (Ok true, mkWorld (<[target := body_of r]> (files w))
              ({[path_parent rt target]} ∪ dirs w) (net w)
              (trace w ++ [EMkdir (path_parent rt target); EOpen target])%list).
Proof.
  unfold bind at 1. unfold lift. rewrite Hlength. unfold bind at 1. unfold mkdir.
  rewrite (bool_decide_eq_false_2 _ Hparent). unfold bind at 1.
  rewrite stream_to_content.
  - unfold ret. simpl. rewrite <- app_assoc. reflexivity.
  - simpl. intros [E | H]%elem_of_union; [| contradiction].
    apply elem_of_singleton in E. congruence.
  - exact Hend.
Qed.

End CompletedTransfer.

(** X6: a transfer that completes stores the body as it was sent.  When the
    reply to the GET has status 200 and its stream ends normally, both
    [_download_file] methods (the direct one for a URL that is not a Drive
    URL) answer True, make the parent directory and leave in the target file
    exactly the chunks of the reply, in order -- replacing what the file held
    before. *)
Theorem completed_transfer_stores_the_body (rt : Runtime) (depth : nat)
    (u target model : string) (w : World) (r : Response) (rest : list Reply) (n : Z) :
  net w = NetReply r :: rest -> status r = 200%Z ->
  content_length r = Ok n -> stream_error r = None ->
  (target ∉ dirs w) -> (path_parent rt target ∉ dom (files w)) ->
  path_parent rt target <> target ->
  let w' := mkWorld (<[target := body_of r]> (files w))
              ({[path_parent rt target]} ∪ dirs w) rest
              (trace w ++ [ENet "GET" u; EMkdir (path_parent rt target); EOpen target])%list in
  civitai_download_file rt u target model w = (Ok true, w') /\
  (contains "drive.google.com" u = false ->
   direct_download_file rt (S depth) u target model w = (Ok true, w')).
Proof.
  intros Hnet Hst Hlen Hend Hdir Hpar Hne w'.
  set (w1 := mkWorld (files w) (dirs w) rest (trace w ++ [ENet "GET" u])%list).
  pose proof (save_response_ok rt target r n w1 Hlen Hend Hdir Hpar Hne) as Hsave.
  assert (Hw' : mkWorld (<[target := body_of r]> (files w1))
                  ({[path_parent rt target]} ∪ dirs w1) (net w1)
                  (trace w1 ++ [EMkdir (path_parent rt target); EOpen target])%list = w').
  { unfold w', w1. simpl. rewrite <- app_assoc. reflexivity. }
  rewrite Hw' in Hsave. split.
  - unfold civitai_download_file, try_except. unfold bind at 1. unfold request.
    rewrite Hnet. cbv beta iota zeta. rewrite Hst. cbn [Z.eqb Pos.eqb negb].
    fold w1. rewrite Hsave. reflexivity.
  - intros Hdrive. cbn [direct_download_file]. unfold try_except. unfold bind at 1.
    unfold request. rewrite Hnet. cbv beta iota zeta. rewrite Hdrive. cbn [andb].
    unfold bind at 1. unfold ret at 1. cbv beta iota zeta.
    rewrite Hst. cbn [Z.eqb Pos.eqb negb].
    fold w1. rewrite Hsave. reflexivity.
Qed.

Lemma completed_transfer_stores_the_body_witness :
  let rt := demo_runtime [] [] in
  let r := mkResponse 200 (Ok JNull) (Ok EmptyString) (Ok 6%Z) None ["abc"; "def"] None in
  let w := mkWorld {["/m/Lora/a.bin" := "old"]} ∅ [NetReply r] [] in
  exists w',
    direct_download_file rt 1 "https://example.com/a.bin" "/m/Lora/a.bin" "a" w
      = (Ok true, w') /\
    files w' !! "/m/Lora/a.bin" = Some "abcdef".
Proof.
  intros rt r w.
  destruct (completed_transfer_stores_the_body rt 0 "https://example.com/a.bin"
              "/m/Lora/a.bin" "a" w r [] 6%Z) as [_ H]; try reflexivity.
  - vm_compute. intros H. discriminate H.
  - vm_compute. intros H. discriminate H.
  - vm_compute. intros H. discriminate H.
  - eexists. split; [apply H; reflexivity |]. simpl. apply lookup_insert_eq.
Defined.
Lemma filter_all_false (p : Event -> bool) (logs : list Event) :
  Forall (fun e => p e = false) logs -> filter (fun e => p e = true) logs = [].
Proof.
  induction 1 as [| e l He _ IH]; [reflexivity |].
  rewrite filter_cons, IH. case_decide; [congruence | reflexivity].
Qed.

Lemma asked_once_intro (method target : string) (f : gmap string string) (d : gset string)
    (n : list Reply) (tr : list Event) (logs : list Event) :
  Forall (fun e => is_fs_write e = false /\ is_net_call e = false) logs ->
  asked_once method target (mkWorld f d n tr)
    (mkWorld f d (tl n) ((tr ++ [ENet method target]) ++ logs)%list).
Proof.
  intros Hlogs. unfold asked_once, fs_untouched, fs_writes, net_calls. simpl.
  rewrite !filter_app.
  rewrite (filter_all_false is_fs_write logs), (filter_all_false is_net_call logs).
  - rewrite !app_nil_r. repeat split; reflexivity.
  - eapply Forall_impl; [exact Hlogs | intros e [_ H]; exact H].
  - eapply Forall_impl; [exact Hlogs | intros e [H _]; exact H].
Qed.

Lemma asked_once_plain (method target : string) (f : gmap string string) (d : gset string)
    (n : list Reply) (tr : list Event) :
  asked_once method target (mkWorld f d n tr)
    (mkWorld f d (tl n) (tr ++ [ENet method target])%list).
Proof.
  rewrite <- (app_nil_r (tr ++ [ENet method target])%list).
  apply asked_once_intro. constructor.
Qed.

(** X7: a reply whose status is not 200 ends either [_download_file] with
    False after that one request, and nothing is done to the file system: no
    directory is made and no file is opened or removed. *)
Theorem refused_transfer_touches_nothing (rt : Runtime) (depth : nat)
    (u target model : string) (w : World) (r : Response) (rest : list Reply) :
  net w = NetReply r :: rest -> status r <> 200%Z ->
  (exists w', civitai_download_file rt u target model w = (Ok false, w') /\
              asked_once "GET" u w w') /\
  (exists w', direct_download_file rt (S depth) u target model w = (Ok false, w') /\
              asked_once "GET" u w w').
Proof.
  intros Hnet Hst. apply Z.eqb_neq in Hst. destruct w as [f d n tr]. simpl in Hnet.
  subst n. split.
  - unfold civitai_download_file, try_except, bind, request, log_error, emit, ret. simpl.
    rewrite Hst. simpl. eexists. split; [reflexivity |].
    apply (asked_once_intro "GET" u f d (NetReply r :: rest) tr [ELogError _]).
    repeat constructor.
  - cbn [direct_download_file].
    unfold try_except, bind, request, log_error, emit, ret. simpl.
    rewrite Hst, andb_false_r. simpl.
    destruct (status r =? 403)%Z; [| destruct (status r =? 404)%Z]; simpl;
      (eexists; split; [reflexivity |]).
    + rewrite <- app_assoc.
      apply (asked_once_intro "GET" u f d (NetReply r :: rest) tr
               [ELogError _; ELogError _]). repeat constructor.
    + rewrite <- app_assoc.
      apply (asked_once_intro "GET" u f d (NetReply r :: rest) tr
               [ELogError _; ELogError _]). repeat constructor.
    + apply (asked_once_intro "GET" u f d (NetReply r :: rest) tr [ELogError _]).
      repeat constructor.
Qed.

Lemma refused_transfer_touches_nothing_witness :
  let w := mkWorld ∅ ∅ [NetReply (plain_response 404)] [] in
  exists w', direct_download_file (demo_runtime [] []) 1 "https://example.com/a.bin"
               "/m/a.bin" "a" w = (Ok false, w') /\
             asked_once "GET" "https://example.com/a.bin" w w'.
Proof.
  intros w.
  destruct (refused_transfer_touches_nothing (demo_runtime [] []) 0
              "https://example.com/a.bin" "/m/a.bin" "a" w (plain_response 404) [])
    as [_ H]; [reflexivity | simpl; lia | exact H].
Defined.

(** X8: the marketplace adapter does nothing without the metadata of the
    version: when the reply to its metadata request is not a 200 (or the
    request fails), [download] answers False after that one request and the
    file system is as it was -- also when the caller gave the file's name. *)
Theorem marketplace_download_needs_metadata (rt : Runtime)
    (model model_id dir fname : string) (w : World) :
  next_reply_refuses w ->
  exists w', civitai_download rt model model_id dir fname w = (Ok false, w') /\
             asked_once "GET" (civitai_info_url model_id) w w'.
Proof.
  unfold next_reply_refuses. intros Hrefuse. destruct w as [f d n tr]. simpl in Hrefuse.
  unfold civitai_download, civitai_get_model_info.
  unfold try_except, bind, request, log_error, emit, ret. simpl.
  destruct n as [| [e | r] rest]; simpl.
  - eexists. split; [reflexivity |]. rewrite <- app_assoc.
    apply (asked_once_intro "GET" _ f d [] tr [ELogError _; ELogError _]).
    repeat constructor.
  - eexists. split; [reflexivity |]. rewrite <- app_assoc.
    apply (asked_once_intro "GET" _ f d (NetError e :: rest) tr [ELogError _; ELogError _]).
    repeat constructor.
  - apply Z.eqb_neq in Hrefuse. rewrite Hrefuse.
    destruct (status r =? 401)%Z; [| destruct (status r =? 404)%Z]; simpl;
      (eexists; split; [reflexivity |]); rewrite <- app_assoc;
      apply (asked_once_intro "GET" _ f d (NetReply r :: rest) tr
               [ELogError _; ELogError _]); repeat constructor.
Qed.

Lemma marketplace_download_needs_metadata_witness :
  let w := mkWorld {["/m/Lora/a.bin" := "weights"]} ∅ [NetReply (plain_response 401)] [] in
  exists w', civitai_download (demo_runtime [] []) "a" "12345" "/m/Lora" "a.bin" w
               = (Ok false, w') /\
             asked_once "GET" (civitai_info_url "12345") w w'.
Proof.
  intros w.
  apply (marketplace_download_needs_metadata (demo_runtime [] []) "a" "12345" "/m/Lora"
           "a.bin" w).
  unfold next_reply_refuses. simpl. lia.
Defined.

Lemma confirm_url_is_drive (href : string) :
  contains "drive.google.com" (confirm_url href) = true.
Proof.
  destruct href; vm_compute; reflexivity.
Qed.

Lemma confirmation_step (rt : Runtime) (depth : nat) (u href target model : string)
    (w : World) (r : Response) (rest : list Reply) (b : bool) (w' : World) :
  contains "drive.google.com" u = true ->
  net w = NetReply r :: rest -> warning_page rt r href ->
  direct_download_file rt (S depth) (confirm_url href) target model
    (mkWorld (files w) (dirs w) rest (trace w ++ [ENet "GET" u])%list) = (Ok b, w') ->
  direct_download_file rt (S (S depth)) u target model w = (Ok b, w').
Proof.
  intros Hdrive Hnet (Hst & content & Htext & Hwarn & Hhref) Hinner.
  remember (S depth) as d eqn:Hd. cbn [direct_download_file].
  unfold try_except. unfold bind at 1. unfold request. rewrite Hnet.
  cbv beta iota zeta. rewrite Hdrive, Hst. cbn [Z.eqb Pos.eqb andb].
  unfold bind at 1. unfold bind at 1. unfold lift. rewrite Htext.
  cbv beta iota zeta. rewrite Hwarn, Hhref. unfold bind at 1.
  unfold confirm_url in Hinner. rewrite Hinner. reflexivity.
Qed.

(** X9: the direct adapter follows Drive's confirmation pages one after the
    other, however many there are: after [k] warning pages in a row it has
    made [k] requests -- the first to the URL it was given, the others to the
    link of the page before -- and goes on from the next reply as a download
    of that link would; the only bound is the depth of the recursion. *)
Theorem drive_confirmations_are_followed (rt : Runtime) (k depth : nat)
    (u href target model : string) (w : World) (page : Response) (rest : list Reply)
    (b : bool) (w' : World) :
  contains "drive.google.com" u = true -> warning_page rt page href ->
  net w = (replicate k (NetReply page) ++ rest)%list ->
  direct_download_file rt (S depth) (confirmed_url u href k) target model
    (mkWorld (files w) (dirs w) rest (trace w ++ confirm_requests u href k)%list)
    = (Ok b, w') ->
  direct_download_file rt (k + S depth) u target model w = (Ok b, w').
Proof.
  intros Hdrive Hpage. revert u w Hdrive.
  induction k as [| k IH]; intros u w Hdrive Hnet Hlast.
  - destruct w as [f d n tr]. simpl in *. subst n. rewrite app_nil_r in Hlast.
    exact Hlast.
  - simpl in Hnet. replace (S k + S depth)%nat with (S (S (k + depth))) by lia.
    eapply confirmation_step; [exact Hdrive | exact Hnet | exact Hpage |].
    replace (S (k + depth)) with (k + S depth)%nat by lia.
    apply IH; [apply confirm_url_is_drive | reflexivity |].
    cbn [files dirs net trace].
    replace (confirmed_url (confirm_url href) href k) with (confirm_url href)
      by (destruct k; reflexivity).
    replace ((trace w ++ [ENet "GET" u]) ++ confirm_requests (confirm_url href) href k)%list
      with (trace w ++ confirm_requests u href (S k))%list.
    + exact Hlast.
    + rewrite <- app_assoc. destruct k; reflexivity.
Qed.

Lemma drive_confirmations_are_followed_witness :
  let u := "https://drive.google.com/uc?export=download&id=F1" in
  let w := mkWorld ∅ ∅ [NetReply demo_warning_page; NetReply demo_warning_page;
                        NetReply (plain_response 404)] [] in
  exists w', direct_download_file drive_runtime 3 u "/m/a.bin" "a" w = (Ok false, w') /\
             net_calls w' = [ENet "GET" u; ENet "GET" (confirm_url demo_confirm_link);
                             ENet "GET" (confirm_url demo_confirm_link)].
Proof.
  intros u w. eexists. split.
  - apply (drive_confirmations_are_followed drive_runtime 2 0 u demo_confirm_link
             "/m/a.bin" "a" w demo_warning_page [NetReply (plain_response 404)]).
    + reflexivity.
    + split; [reflexivity |]. exists demo_warning_text. repeat split; reflexivity.
    + reflexivity.
    + vm_compute. reflexivity.
  - vm_compute. reflexivity.
Defined.

(** X10: the hub adapter asks for the repository before it downloads a gated
    model: when the target is not there yet and [repo_info] fails, [download]
    logs the two lines about the Terms of Service and answers False, and
    [hf_hub_download] is not called -- the world is the one [repo_info] left.
    For a model that is not gated the repository is not asked about: the
    outcome depends on the runtime through [hf_hub_download] only. *)
Theorem gated_download_stops_at_the_access_check (rt : Runtime)
    (self : HuggingFaceDownloader) (model repo_id fname dir : string) (w : World) :
  HF_AVAILABLE self = true -> api self = Some tt ->
  exists_in w (path_join dir fname) = false ->
  (forall e w1, repo_info rt repo_id w = (Raise e, w1) ->
     hf_download rt self model repo_id fname dir true w =
     (Ok false,
      mkWorld (files w1) (dirs w1) (net w1)
        (trace w1 ++ [ELogError ("🔒 Cannot access gated repository: " ++ repo_id);
                      ELogError ("    Visit https://huggingface.co/" ++ repo_id
                                 ++ " to accept Terms of Service")])%list)) /\
  (forall rt', hf_hub_download rt' = hf_hub_download rt ->
     hf_download rt' self model repo_id fname dir false w =
     hf_download rt self model repo_id fname dir false w).
Proof.
  intros Havail Hapi Habsent. split.
  - intros e w1 Hinfo. unfold hf_download. rewrite Havail. cbn [negb].
    unfold try_except. unfold bind at 1. unfold path_exists. rewrite Habsent.
    cbv beta iota zeta. unfold bind at 1. unfold bind at 1.
    unfold hf_can_access_repo. rewrite Hapi. unfold try_except at 1.
    unfold bind at 1. rewrite Hinfo. unfold ret at 1. unfold ret at 1.
    cbn [negb]. unfold bind, log_error, emit, ret. simpl.
    rewrite <- app_assoc. reflexivity.
  - intros rt' Hsame. unfold hf_download, hf_download_sync. rewrite Hsame. reflexivity.
Qed.

Lemma gated_download_stops_at_the_access_check_witness :
  exists w',
    hf_download (demo_runtime [] []) (HuggingFaceDownloader_init true) "gated" "org/gated"
      "weights.bin" lora_dir true empty_world = (Ok false, w') /\
    net_calls w' = [] /\ files w' = ∅.
Proof.
  destruct (gated_download_stops_at_the_access_check (demo_runtime [] [])
              (HuggingFaceDownloader_init true) "gated" "org/gated" "weights.bin" lora_dir
              empty_world eq_refl eq_refl eq_refl) as [H _].
  eexists. split.
  - apply (H (mkExn HubError "401 Client Error") empty_world). reflexivity.
  - split; reflexivity.
Defined.

(** X11: looking for the file's name never ends with an exception and never
    changes a file; when the URL's path gives a name nothing is asked, and
    otherwise exactly one HEAD request is made, whose reply gives the name
    only with status 200 and a usable Content-Disposition. *)
Theorem filename_discovery_contract (rt : Runtime) (u : string) (w : World) :
  exists found w',
    direct_get_filename rt u w = (Ok found, w') /\
    match name_from_url rt u with
    | Some f => found = Some f /\ w' = w
    | None =>
        asked_once "HEAD" u w w' /\
        (forall f, found = Some f ->
           exists r rest, net w = NetReply r :: rest /\ status r = 200%Z /\
                          cd_filename r = Some f)
    end.
Proof.
  unfold direct_get_filename. destruct (name_from_url rt u) as [f |].
  - exists (Some f), w. split; [reflexivity |]. split; reflexivity.
  - destruct w as [f d n tr].
    unfold try_except, bind, request, ret. simpl.
    destruct n as [| [e | r] rest]; simpl.
    + eexists _, _. split; [reflexivity |]. split; [| discriminate].
      apply (asked_once_plain "HEAD" u f d [] tr).
    + eexists _, _. split; [reflexivity |]. split; [| discriminate].
      apply (asked_once_plain "HEAD" u f d (NetError e :: rest) tr).
    + destruct (Z.eqb_spec (status r) 200) as [Hst | Hst]; simpl;
        eexists _, _; (split; [reflexivity |]);
        (split; [apply (asked_once_plain "HEAD" u f d (NetReply r :: rest) tr) |]).
      * intros f0 Hf. exists r, rest. repeat split; assumption.
      * discriminate.
Qed.

(** ** The orchestrator, continued *)

Lemma civitai_download_call_raises (rt : Runtime) (model_name version_id dir fname : string)
    (w : World) :
  civitai_download_call rt model_name version_id dir fname w = (Raise civitai_call_error, w).
Proof.
  reflexivity.
Qed.

Lemma download_civitai_model_typed_run (rt : Runtime) (self : ProvisioningSystem)
    (mc : ModelConfig) (w : World) :
  _download_civitai_model_typed rt self mc w =
  (Ok (mkDownloadResult (name mc) false
         (Some ("CivitAI download failed: " ++ str_exn civitai_call_error)) None None),
   w).
Proof.
  unfold _download_civitai_model_typed, try_except.
  unfold bind at 1. rewrite civitai_download_call_raises. reflexivity.
Qed.

Lemma log_then_false_quiet (msg : string) : preserves quiet (log_error msg ;;; ret false).
Proof.
  apply (preserves_bind quiet quiet_trans); [apply log_error_quiet |].
  intros []. apply (preserves_ret quiet quiet_refl).
Qed.

Lemma download_civitai_model_run (rt : Runtime) (self : ProvisioningSystem)
    (model_name : string) (config : RawModel) (dir : string) (w : World) :
  exists w', _download_civitai_model rt self model_name config dir w = (Ok false, w') /\
             quiet w w'.
Proof.
  unfold _download_civitai_model, try_except.
  unfold bind at 1. unfold getitem.
  destruct (r_version_id config) as [v |].
  - unfold ret at 1. rewrite civitai_download_call_raises.
    eexists. split; [reflexivity |]. eapply log_then_false_quiet. reflexivity.
  - unfold raise at 1.
    eexists. split; [reflexivity |]. eapply log_then_false_quiet. reflexivity.
Qed.

(** X12: the orchestrator never reaches the marketplace adapter.  Its call
    passes [version_id] where the method's parameter is [model_id], so on the
    file path [_download_civitai_model] answers False for every entry without
    a request or a change to a file, and on the typed path the result of
    [_download_civitai_model_typed] is always a failure that carries the
    TypeError of the call. *)
Theorem orchestrator_never_reaches_marketplace (rt : Runtime) (self : ProvisioningSystem) :
  (forall model_name config dir w,
     exists w', _download_civitai_model rt self model_name config dir w = (Ok false, w') /\
                quiet w w') /\
  (forall mc w,
     _download_civitai_model_typed rt self mc w =
     (Ok (mkDownloadResult (name mc) false
            (Some ("CivitAI download failed: " ++ str_exn civitai_call_error)) None None),
      w)).
Proof.
  split.
  - intros model_name config dir w. apply download_civitai_model_run.
  - intros mc w. apply download_civitai_model_typed_run.
Qed.

(** X13: awaiting any of the three typed download methods gives a result and
    never an exception.  The result carries the name of its configuration and
    no size; its path is the target directory exactly when it succeeded; and
    a hub or direct result never carries an error message, failed or not,
    while a marketplace result is always the failure of the call. *)
Theorem typed_download_result_shape (rt : Runtime) (self : ProvisioningSystem)
    (c : Coroutine) (w : World) :
  exists r w',
    run_coroutine rt self c w = (Ok r, w') /\
    model_name r = name (coroutine_config c) /\
    size_bytes r = None /\
    file_path r = (if success r then Some (target_dir (coroutine_config c)) else None) /\
    match c with
    | CoCivitAI _ =>
        success r = false /\ w' = w /\
        error_message r = Some ("CivitAI download failed: " ++ str_exn civitai_call_error)
    | _ => error_message r = None
    end.
Proof.
  destruct c as [mc | mc | mc]; cbn [run_coroutine coroutine_config].
  - unfold _download_huggingface_model_typed, try_except. unfold bind at 1.
    destruct (hf_download_returns rt (hf_downloader self) (name mc) (or_empty (repo mc))
                (or_empty (file mc)) (target_dir mc) (gated mc) w) as (b & w1 & ->).
    unfold ret. eexists _, _. split; [reflexivity |]. destruct b; repeat split.
  - rewrite download_civitai_model_typed_run.
    eexists _, _. split; [reflexivity |]. repeat split.
  - unfold _download_direct_url_typed, try_except. unfold bind at 1.
    destruct (direct_download_total rt (name mc) (or_empty (url mc)) (target_dir mc)
                (or_empty (filename mc)) w) as (b & w1 & ->).
    unfold ret. eexists _, _. split; [reflexivity |]. destruct b; repeat split.
Qed.

Lemma validate_tokens_total (self : ProvisioningSystem) (config : RawConfig) (w : World) :
  exists w', _validate_tokens self config w = (Ok tt, w').
Proof.
  unfold _validate_tokens. destruct (_find_gated_models config) as [| m ms] eqn:Hg.
  - exists w. reflexivity.
  - destruct (declared_gated_entry_is_reported self config m w) as
      (hf & w1 & cv & w2 & w' & _ & _ & Hrun & _).
    + rewrite Hg. left. reflexivity.
    + exists w'. unfold _validate_tokens in Hrun. rewrite Hg in Hrun. exact Hrun.
Qed.

(** X14: [provision_from_file] never ends with an exception: whatever goes
    wrong comes back as False.  In particular, when there is nothing at the
    path of the manifest it answers False without a request and without
    touching the file system. *)
Theorem provision_from_file_never_raises (rt : Runtime) (self : ProvisioningSystem)
    (config_path : string) (w : World) :
  (exists b w', provision_from_file rt self config_path w = (Ok b, w')) /\
  (exists_in w config_path = false ->
   exists w', provision_from_file rt self config_path w = (Ok false, w') /\ quiet w w').
Proof.
  split.
  - unfold provision_from_file. apply try_except_total. intros e w1. apply log_then_false.
  - intros Habsent. unfold provision_from_file, try_except. unfold bind at 1.
    unfold parse_file, try_except. unfold bind at 1. unfold path_exists.
    rewrite Habsent. cbn [negb]. unfold raise at 1. unfold bind at 1.
    unfold log_error at 1, emit at 1. unfold raise at 1.
    eexists. split; [reflexivity |].
    eapply quiet_trans; [| eapply log_then_false_quiet; reflexivity].
    eapply log_error_quiet. reflexivity.
Qed.

Lemma provision_from_file_never_raises_witness :
  exists w', provision_from_file (demo_runtime [] []) (demo_system false 5 no_tokens)
               "/workspace/missing.toml" (demo_world []) = (Ok false, w') /\
             quiet (demo_world []) w'.
Proof.
  destruct (provision_from_file_never_raises (demo_runtime [] [])
              (demo_system false 5 no_tokens) "/workspace/missing.toml" (demo_world []))
    as [_ H].
  apply H. vm_compute. reflexivity.
Defined.

(** X15: every exception that leaves [provision_from_url] is a
    ProvisioningError that wraps its cause, whose message is logged before.
    In particular a manifest URL that is answered with a status other than
    200 gives the ProvisioningError for that status after the one request,
    and nothing is done to the file system. *)
Theorem provision_from_url_raises_provisioning_error (rt : Runtime)
    (self : ProvisioningSystem) (config_url : string) (w : World) :
  (forall e w', provision_from_url rt self config_url w = Some (Raise e, w') ->
     exn_class e = ProvisioningError /\
     exists cause,
       exn_msg e = "Provisioning from URL failed: " ++ str_exn cause /\
       In (ELogError ("Provisioning failed: " ++ str_exn cause)) (trace w')) /\
  (forall r rest, recursion_limit rt <> O -> net w = NetReply r :: rest ->
     status r <> 200%Z ->
     exists w',
       provision_from_url rt self config_url w =
         Some (Raise (mkExn ProvisioningError
                        ("Provisioning from URL failed: Failed to fetch config: HTTP "
                         ++ str_Z (status r))), w') /\
       asked_once "GET" (process_url rt config_url) w w').
Proof.
  split.
  - intros e w'. unfold provision_from_url, try_except_a.
    match goal with |- context [match ?body w with _ => _ end] =>
      destruct (body w) as [[[s | cause] w1] |] end; [discriminate | | discriminate].
    unfold bind, log_error, emit, raise. intros [= <- <-]. simpl.
    split; [reflexivity |]. exists cause. split; [reflexivity |].
    apply in_or_app. right. left. reflexivity.
  - intros r rest Hlimit Hnet Hst. apply Z.eqb_neq in Hst.
    destruct (recursion_limit rt) as [| depth] eqn:Hdepth; [contradiction |].
    unfold provision_from_url, try_except_a. unfold bind_a at 1, returns at 1.
    rewrite Hdepth.
    cbn [fetch_and_parse]. unfold try_except. unfold bind at 1. unfold request.
    destruct w as [f d n tr]. simpl in Hnet. subst n. cbv beta iota zeta.
    cbn [net files dirs trace]. rewrite Hst. cbn [negb].
    unfold raise at 1. unfold bind at 1. unfold log_error at 1, emit at 1.
    unfold raise at 1. unfold bind at 1. unfold log_error at 1, emit at 1.
    unfold raise. cbn [files dirs net trace str_exn exn_msg].
    eexists. split; [reflexivity |].
    rewrite <- app_assoc.
    apply (asked_once_intro "GET" _ f d (NetReply r :: rest) tr [ELogError _; ELogError _]).
    repeat constructor.
Qed.

Lemma provision_from_url_raises_provisioning_error_witness :
  let w := demo_world [NetReply (plain_response 503)] in
  exists w',
    provision_from_url (demo_runtime [] []) (demo_system false 5 no_tokens)
      "https://example.com/models.toml" w =
      Some (Raise (mkExn ProvisioningError
                     "Provisioning from URL failed: Failed to fetch config: HTTP 503"), w') /\
    asked_once "GET" "https://example.com/models.toml" w w'.
Proof.
  intros w.
  destruct (provision_from_url_raises_provisioning_error (demo_runtime [] [])
              (demo_system false 5 no_tokens) "https://example.com/models.toml" w)
    as [_ H].
  apply (H (plain_response 503) []); [discriminate | reflexivity | simpl; lia].
Defined.
(** Case analysis on a string against the literals of a [match]: one
    character at a time, all 256 values of each. *)
Ltac string_cases n s leaf :=
  lazymatch n with
  | O => idtac
  | S ?n' =>
      let a := fresh "a" in
      let s' := fresh "s" in
      destruct s as [| a s'];
      [ try solve [leaf]
      | destruct a as [[] [] [] [] [] [] [] []]; try solve [leaf];
        string_cases n' s' leaf ]
  end.

Lemma ModelSource_of_inv (s : string) (src : ModelSource) :
  ModelSource_of (Some s) = Ok src -> s = ModelSource_value src.
Proof.
  string_cases 13%nat s
    ltac:(cbn; intros H; first [discriminate H | injection H as <-; reflexivity]).
Qed.

Lemma ModelSource_of_value (src : ModelSource) :
  ModelSource_of (Some (ModelSource_value src)) = Ok src.
Proof.
  destruct src; reflexivity.
Qed.

(** X16: the typed loop builds a [ModelConfig] for an entry exactly when the
    entry's source is one of the three enum values and the field that source
    needs is there and not empty; the configuration it builds has the name
    and directory it was given, the source the entry names, and that field
    set. *)
Theorem model_config_is_built_iff (model_name dir : string) (data : ModelConfigPydantic) :
  ((exists mc, build_model_config model_name dir data = Ok mc) <->
   (p_source data = Some "huggingface" /\ truthy (p_repo data) = true) \/
   (p_source data = Some "civitai" /\ truthy (p_version_id data) = true) \/
   (p_source data = Some "url" /\ truthy (p_url data) = true)) /\
  (forall mc, build_model_config model_name dir data = Ok mc ->
     name mc = model_name /\ target_dir mc = dir /\
     p_source data = Some (ModelSource_value (source mc)) /\
     truthy (required_field mc) = true).
Proof.
  unfold build_model_config. split; [split |].
  - intros [mc Hmc]. destruct (p_source data) as [s |]; [| discriminate Hmc].
    destruct (ModelSource_of (Some s)) as [src | e] eqn:Hsrc; [| discriminate Hmc].
    apply ModelSource_of_inv in Hsrc. subst s.
    unfold post_init in Hmc. cbn [source repo version_id url] in Hmc.
    destruct src; cbn [ModelSource_value].
    + left. split; [reflexivity |]. destruct (truthy (p_repo data)); [reflexivity |].
      discriminate Hmc.
    + right; left. split; [reflexivity |].
      destruct (truthy (p_version_id data)); [reflexivity | discriminate Hmc].
    + right; right. split; [reflexivity |].
      destruct (truthy (p_url data)); [reflexivity | discriminate Hmc].
  - intros [[Hs Ht] | [[Hs Ht] | [Hs Ht]]]; rewrite Hs; cbn [ModelSource_of];
      unfold post_init; cbn [source repo version_id url]; rewrite ?Ht; cbn [negb];
      rewrite ?Ht; eexists; reflexivity.
  - intros mc Hmc. destruct (p_source data) as [s |]; [| discriminate Hmc].
    destruct (ModelSource_of (Some s)) as [src | e] eqn:Hsrc; [| discriminate Hmc].
    apply ModelSource_of_inv in Hsrc. subst s.
    unfold post_init in Hmc. cbn [source repo version_id url] in Hmc.
    destruct src.
    + destruct (truthy (p_repo data)) eqn:Ht; [| discriminate Hmc].
      injection Hmc as <-. repeat split. exact Ht.
    + destruct (truthy (p_version_id data)) eqn:Ht; [| discriminate Hmc].
      injection Hmc as <-. repeat split. exact Ht.
    + destruct (truthy (p_url data)) eqn:Ht; [| discriminate Hmc].
      cbn [negb] in Hmc. rewrite Ht in Hmc. cbn [negb] in Hmc.
      injection Hmc as <-. repeat split. exact Ht.
Qed.

(** X17: the mapping from a category to its directory is idempotent: a
    directory name it produces maps to itself, so a manifest may name a
    category by its key or by its directory. *)
Theorem category_dir_is_idempotent (category : string) :
  _get_category_dir (_get_category_dir category) = _get_category_dir category.
Proof.
  string_cases 15%nat category ltac:(reflexivity).
Qed.

Lemma warn_unless (b : bool) (msg : string) (w : World) :
  exists w', (if b then ret tt else log_warning msg) w = (Ok tt, w') /\ quiet w w'.
Proof.
  destruct b.
  - exists w. split; [reflexivity | apply quiet_refl].
  - eexists. split; [reflexivity |]. eapply log_warning_quiet. reflexivity.
Qed.

Lemma gated_loop_quiet (hf_valid civitai_valid : bool) (gated_models : list RawModel) :
  preserves quiet
    (for_each gated_models
       (fun model =>
          let source := default "unknown" (r_source model) in
          if String.eqb source "huggingface" && negb hf_valid then
            _log_gated_model_error model "HuggingFace"
          else if String.eqb source "civitai" && negb civitai_valid then
            _log_gated_model_error model "CivitAI"
          else ret tt)).
Proof.
  apply (preserves_for_each quiet quiet_refl quiet_trans). intros model. cbv zeta.
  destruct (_ && _); [apply log_gated_model_error_quiet |].
  destruct (_ && _); [apply log_gated_model_error_quiet |].
  apply (preserves_ret quiet quiet_refl).
Qed.

(** X18: the token check never ends with an exception and never touches the
    file system, and it goes to the network only for a manifest with a gated
    entry: then it sends one probe per token that is set, the hub's first,
    and otherwise none. *)
Theorem tokens_are_probed_only_for_gated_entries (self : ProvisioningSystem)
    (config : RawConfig) (w : World) :
  exists w',
    _validate_tokens self config w = (Ok tt, w') /\
    fs_untouched w w' /\
    net_calls w' =
      (net_calls w ++
       match _find_gated_models config with
       | [] => []
       | _ => requests_if (hf_token (token_validator self)) hf_whoami_url
              ++ requests_if (civitai_token (token_validator self)) civitai_probe_url
       end)%list.
Proof.
  destruct (validate_tokens_total self config w) as (w' & Hrun).
  exists w'. split; [exact Hrun |]. split; [eapply validate_tokens_fs; exact Hrun |].
  revert Hrun. unfold _validate_tokens.
  destruct (_find_gated_models config) as [| m ms].
  - intros [= <-]. rewrite app_nil_r. reflexivity.
  - remember (m :: ms) as gated_models eqn:Hg.
    destruct (validate_run Hub (token_validator self) w)
      as (hf & w1 & Hrun1 & _ & _ & _ & _ & Hc1).
    cbn [validate token_of probe_url] in Hrun1, Hc1.
    unfold bind at 1. rewrite Hrun1. unfold bind at 1.
    destruct (warn_unless hf "⚠️  HuggingFace token is invalid or missing" w1)
      as (w1' & -> & (_ & _ & Hq1)).
    destruct (validate_run Marketplace (token_validator self) w1')
      as (cv & w2 & Hrun2 & _ & _ & _ & _ & Hc2).
    cbn [validate token_of probe_url] in Hrun2, Hc2.
    unfold bind at 1. rewrite Hrun2. unfold bind at 1.
    destruct (warn_unless cv "⚠️  CivitAI token is invalid or missing" w2)
      as (w2' & -> & (_ & _ & Hq2)).
    intros Hloop. apply gated_loop_quiet in Hloop as (_ & _ & Hq3).
    rewrite Hq3, Hq2, Hc2, Hq1, Hc1, <- app_assoc. reflexivity.
Qed.

(** X19: a summary the typed download phase returns never reports a failure:
    its failed count is 0 and its result list is empty, and its success rate
    is the float 0.0 when it counted no entry and the float 100.0 otherwise. *)
Theorem typed_summary_reports_no_failure (self : ProvisioningSystem)
    (config : ProvisionConfigPydantic) (w w' : World) (s : ProvisioningSummary) :
  _download_models_typed self config w = Some (Ok s, w') ->
  failed_downloads s = 0%Z /\ results s = [] /\
  success_rate s = Ok (if (total_models s =? 0)%Z then float_of_Z 0 else float_of_Z 100).
Proof.
  intros Hrun. destruct (dry_run self) eqn:Hdry.
  - destruct (download_models_typed_dry self config w Hdry) as (w0 & Hrun0 & _).
    rewrite Hrun in Hrun0. injection Hrun0 as -> _. cbn.
    split; [reflexivity |]. split; [reflexivity |].
    destruct (Z.eqb_spec (Z.of_nat (length (constructible self config))) 0) as [E | N].
    + unfold success_rate. cbn [total_models]. rewrite E. reflexivity.
    + apply success_rate_all; [exact N | reflexivity].
  - destruct (constructible self config) as [| mc mcs] eqn:Hc.
    + revert Hrun. unfold _download_models_typed. unfold bind_a at 1, returns at 1.
      destruct (fold_loop (typed_category_step self) config ([], []) w)
        as [[acc | e] w1] eqn:Hloop; [| discriminate].
      apply category_loop_spec in Hloop as [_ Hsnd]. rewrite Hdry, Hc in *.
      cbn [snd app map] in Hsnd. rewrite Hsnd.
      unfold returns, bind, log_warning, emit, ret. intros [= <- <-]. cbn.
      repeat split; reflexivity.
    + exfalso. eapply (typed_path_returns_no_summary self config w w' s Hdry);
        [rewrite Hc; discriminate | exact Hrun].
Qed.

Lemma typed_summary_reports_no_failure_witness :
  let self := demo_system true 5 no_tokens in
  let config := [("lora", [("good", good_entry); ("bad", bad_entry)])] in
  exists s w',
    _download_models_typed self config (demo_world []) = Some (Ok s, w') /\
    failed_downloads s = 0%Z /\ success_rate s = Ok (float_of_Z 100).
Proof.
  intros self config.
  destruct (_download_models_typed self config (demo_world [])) as [[r w'] |] eqn:Hrun;
    [| vm_compute in Hrun; discriminate Hrun].
  assert (exists s, r = Ok s /\ total_models s = 1%Z) as (s & -> & Ht).
  { vm_compute in Hrun. injection Hrun as <- _. eexists. split; reflexivity. }
  exists s, w'. split; [reflexivity |].
  destruct (typed_summary_reports_no_failure self config _ _ _ Hrun) as (Hf & _ & Hr).
  split; [exact Hf |]. rewrite Hr, Ht. reflexivity.
Defined.

Lemma create_download_task_run (rt : Runtime) (self : ProvisioningSystem)
    (model_name : string) (entry : RawEntry) (dir : string) (w : World) :
  exists w', _create_download_task rt self model_name entry dir w
             = (Ok (file_task rt self model_name entry dir), w').
Proof.
  unfold _create_download_task, file_task, entry_source.
  destruct entry as [u | d]; [exists w; reflexivity |].
  destruct (String.eqb _ "huggingface"); [exists w; reflexivity |].
  destruct (String.eqb _ "civitai"); [exists w; reflexivity |].
  destruct (String.eqb _ "url"); [exists w; reflexivity |].
  unfold bind, log_error, emit, ret. eexists. reflexivity.
Qed.

Lemma file_model_loop_tasks (rt : Runtime) (self : ProvisioningSystem) (dir : string)
    (items : list (string * RawEntry)) (acc acc' : list (M bool)) (w w' : World) :
  dry_run self = false ->
  fold_loop (file_model_step rt self dir) items acc w = (Ok acc', w') ->
  acc' = (acc ++ flat_map (fun item => match file_task rt self (fst item) (snd item) dir with
                                       | Some t => [t]
                                       | None => []
                                       end) items)%list.
Proof.
  intros Hdry. revert acc w. induction items as [| item rest IH]; intros acc w.
  - cbn. unfold ret. intros [= <- <-]. rewrite app_nil_r. reflexivity.
  - cbn [fold_loop flat_map]. unfold bind at 1. unfold file_model_step at 1.
    rewrite Hdry. unfold bind at 1.
    destruct (create_download_task_run rt self (fst item) (snd item) dir w) as (w1 & ->).
    destruct (file_task rt self (fst item) (snd item) dir) as [t |]; unfold ret at 1;
      intros Hrest; apply IH in Hrest; rewrite Hrest.
    + rewrite <- app_assoc. reflexivity.
    + reflexivity.
Qed.

Lemma file_category_loop_tasks (rt : Runtime) (self : ProvisioningSystem)
    (config : RawConfig) (acc acc' : list (M bool)) (w w' : World) :
  dry_run self = false ->
  fold_loop (file_category_step rt self) config acc w = (Ok acc', w') ->
  acc' = (acc ++ file_tasks rt self config)%list.
Proof.
  intros Hdry. revert acc w. induction config as [| category rest IH]; intros acc w.
  - cbn. unfold ret. intros [= <- <-]. rewrite app_nil_r. reflexivity.
  - cbn [fold_loop]. unfold bind at 1. unfold file_category_step at 1.
    rewrite Hdry. cbn [negb]. unfold bind at 1.
    destruct (mkdir _ w) as [[[] | e] w1]; [| discriminate].
    destruct (fold_loop (file_model_step rt self _) (snd category) acc w1)
      as [[acc1 | e] w2] eqn:Hinner; [| discriminate].
    apply (file_model_loop_tasks rt self _ _ _ _ _ _ Hdry) in Hinner.
    intros Hrest. apply IH in Hrest. rewrite Hrest, Hinner.
    unfold file_tasks. cbn [flat_map]. rewrite <- app_assoc. reflexivity.
Qed.

Lemma filter_length_le {A : Type} (p : A -> bool) (l : list A) :
  (length (filter (fun x => p x = true) l) <= length l)%nat.
Proof.
  induction l as [| x l IH]; [reflexivity |].
  rewrite filter_cons. case_decide; simpl; lia.
Qed.

Lemma no_failures_iff_all {A : Type} (p : A -> bool) (l : list A) :
  (length l - length (filter (fun x => p x = true) l) =? 0)%nat = forallb p l.
Proof.
  induction l as [| x l IH]; [reflexivity |].
  rewrite filter_cons. pose proof (filter_length_le p l) as Hle.
  case_decide as Hx; cbn [forallb length].
  - rewrite Hx. cbn [andb]. rewrite <- IH. reflexivity.
  - destruct (p x); [congruence |]. cbn [andb]. apply Nat.eqb_neq. lia.
Qed.

Lemma forallb_lookup_false {A : Type} (p : A -> bool) (l : list A) (i : nat) (x : A) :
  l !! i = Some x -> p x = false -> forallb p l = false.
Proof.
  revert i. induction l as [| y l IH]; intros i; [destruct i; discriminate |].
  destruct i as [| i]; cbn.
  - intros [= ->] ->. reflexivity.
  - intros Hi Hx. rewrite (IH i Hi Hx). apply andb_false_r.
Qed.

(** What [_download_models] answers outside dry-run mode: whether every one
    of the tasks it collected came back with True. *)
Lemma download_models_outcome (rt : Runtime) (self : ProvisioningSystem)
    (config : RawConfig) (w w' : World) (b : bool) :
  dry_run self = false ->
  _download_models rt self config w = (Ok b, w') ->
  exists results w1,
    gather (file_tasks rt self config) w1 = (Ok results, w') /\
    b = forallb is_True results.
Proof.
  intros Hdry. unfold _download_models. unfold bind at 1.
  destruct (fold_loop (file_category_step rt self) config [] w)
    as [[tasks | e] w1] eqn:Hloop; [| discriminate].
  apply (file_category_loop_tasks rt self _ _ _ _ _ Hdry) in Hloop. cbn [app] in Hloop.
  subst tasks. rewrite Hdry.
  destruct (file_tasks rt self config) as [| t ts] eqn:Htasks.
  - unfold bind, log_warning, emit, ret. intros [= <- <-].
    eexists [], _. split; reflexivity.
  - unfold bind at 1.
    destruct (gather (t :: ts) w1) as [[results | e] w2] eqn:Hg; [| discriminate].
    unfold ret. intros [= <- <-]. exists results, w1.
    rewrite no_failures_iff_all. split; [exact Hg | reflexivity].
Qed.

(** X20: outside dry-run mode a manifest file never provisions successfully
    when one of its entries is routed to the marketplace adapter: whatever the
    other entries, the tokens and the network do, [provision_from_file]
    answers False.  core.py routes an entry there when its [source] key says
    [civitai], or when it has no [source] and no [repo] key but a
    [version_id] key; an entry without any of the keys [source], [repo],
    [version_id] and [url] -- such as one the parser takes for a marketplace
    entry by its [model_id] alone -- is given no task. *)
Theorem marketplace_entry_fails_file_provisioning (rt : Runtime)
    (self : ProvisioningSystem) (config_path : string) (w w1 : World) (config : RawConfig)
    (category : string) (items : list (string * RawEntry)) (model_name : string)
    (d : RawModel) :
  dry_run self = false ->
  parse_file rt config_path w = (Ok config, w1) ->
  In (category, items) config -> In (model_name, RawDict d) items ->
  entry_source d = "civitai" ->
  (exists w', provision_from_file rt self config_path w = (Ok false, w')) /\
  (r_source d = Some "civitai" \/
   (r_source d = None /\ r_repo d = None /\ r_version_id d <> None)) /\
  (forall d0 dir,
     r_source d0 = None -> r_repo d0 = None -> r_version_id d0 = None -> r_url d0 = None ->
     file_task rt self model_name (RawDict d0) dir = None).
Proof.
  intros Hdry Hparse Hcat Hitem Hsrc. split; [| split].
  2: { unfold entry_source, _detect_source in Hsrc.
       destruct (r_source d) as [v |]; [left; congruence | right].
       destruct (r_repo d); [discriminate |].
       destruct (r_version_id d); [repeat split; discriminate |].
       destruct (r_url d); discriminate. }
  2: { intros d0 dir H1 H2 H3 H4. unfold file_task, entry_source, _detect_source.
       rewrite H1, H2, H3, H4. reflexivity. }
  unfold provision_from_file, try_except. unfold bind at 1. rewrite Hparse.
  unfold bind at 1. destruct (validate_tokens_total self config w1) as (w2 & ->).
  unfold bind at 1.
  destruct (_download_models rt self config w2) as [[ok | e] w3] eqn:Hrun.
  2: { unfold bind, log_error, emit, ret. eexists. reflexivity. }
  destruct (download_models_outcome rt self config w2 w3 ok Hdry Hrun)
    as (results & w4 & Hg & Hok).
  set (dir := path_join (models_dir self) (_get_category_dir category)).
  assert (Hin : In (_download_civitai_model rt self model_name d dir)
                  (file_tasks rt self config)).
  { unfold file_tasks. apply in_flat_map. exists (category, items).
    split; [exact Hcat |]. apply in_flat_map. exists (model_name, RawDict d).
    split; [exact Hitem |]. cbn [fst snd file_task]. rewrite Hsrc. cbn. left. reflexivity. }
  apply list_elem_of_In, list_elem_of_lookup_1 in Hin as [i Hi].
  destruct (gather_total (file_tasks rt self config) w4) as (raw & w5 & Hg' & Hlen).
  rewrite Hg in Hg'. injection Hg' as <- <-.
  destruct (lookup_lt_is_Some_2 results i) as [r Hr].
  { rewrite Hlen. eapply lookup_lt_Some. exact Hi. }
  destruct (gather_lookup _ _ _ _ _ _ Hg Hr) as (t & wi & wi' & Ht & Hti).
  assert (E : Some t = Some (_download_civitai_model rt self model_name d dir))
    by (etransitivity; [symmetry; exact Ht | exact Hi]).
  injection E as ->.
  destruct (download_civitai_model_run rt self model_name d dir wi) as (wj & Hj & _).
  rewrite Hj in Hti. injection Hti as <- _.
  assert (Hfalse : ok = false).
  { rewrite Hok. eapply forallb_lookup_false; [exact Hr | reflexivity]. }
  rewrite Hfalse. unfold bind, log_warning, emit, ret. eexists. reflexivity.
Qed.

Lemma marketplace_entry_fails_file_provisioning_witness :
  let raw := [("lora", [("style", RawDict marketplace_raw)])] in
  let w := mkWorld {["/workspace/models.toml" := "[models.lora.style]
source = 'civitai'
model_id = 12345"]}
             ({[models_root]} ∪ {["/workspace/logs"]}) [] [] in
  ConfigParser._validate_model_config "style" marketplace_table "lora"
    = Ok (TTable [("source", TStr "civitai"); ("model_id", TStr "12345")]) /\
  exists w', provision_from_file (demo_runtime raw []) (demo_system false 5 both_tokens)
               "/workspace/models.toml" w = (Ok false, w').
Proof.
  intros raw w. split; [reflexivity |].
  destruct (marketplace_entry_fails_file_provisioning (demo_runtime raw [])
              (demo_system false 5 both_tokens) "/workspace/models.toml" w w raw
              "lora" [("style", RawDict marketplace_raw)] "style" marketplace_raw)
    as [Hrun _].
  - reflexivity.
  - vm_compute. reflexivity.
  - left. reflexivity.
  - left. reflexivity.
  - reflexivity.
  - exact Hrun.
Defined.

(** ** The manifest parser *)

Lemma assoc_get_setitem_same (k : string) (v : TVal) (d : list (string * TVal)) :
  assoc_get k (setitem k v d) = Some v.
Proof.
  induction d as [| [k' v'] rest IH]; cbn.
  - rewrite String.eqb_refl. reflexivity.
  - destruct (String.eqb k k') eqn:E; cbn.
    + rewrite String.eqb_refl. reflexivity.
    + rewrite E. exact IH.
Qed.

Lemma assoc_get_setitem_other (k k0 : string) (v : TVal) (d : list (string * TVal)) :
  k0 <> k -> assoc_get k0 (setitem k v d) = assoc_get k0 d.
Proof.
  intros Hne. apply String.eqb_neq in Hne.
  induction d as [| [k' v'] rest IH]; cbn.
  - rewrite Hne. reflexivity.
  - destruct (String.eqb k k') eqn:E; cbn.
    + apply String.eqb_eq in E. subst k'. rewrite Hne. reflexivity.
    + destruct (String.eqb k0 k'); [reflexivity | exact IH].
Qed.

Lemma setitem_setitem (k : string) (v v0 : TVal) (d : list (string * TVal)) :
  setitem k v (setitem k v0 d) = setitem k v d.
Proof.
  induction d as [| [k' v'] rest IH]; cbn.
  - rewrite String.eqb_refl. reflexivity.
  - destruct (String.eqb k k') eqn:E; cbn.
    + rewrite String.eqb_refl. reflexivity.
    + rewrite E, IH. reflexivity.
Qed.

Lemma setitem_same (k : string) (v : TVal) (d : list (string * TVal)) :
  assoc_get k d = Some v -> setitem k v d = d.
Proof.
  induction d as [| [k' v'] rest IH]; cbn; [discriminate |].
  destruct (String.eqb k k') eqn:E.
  - apply String.eqb_eq in E. subst k'. intros [= ->]. reflexivity.
  - intros H. rewrite (IH H). reflexivity.
Qed.

(** Normalising [model_id] changes neither the source of an entry nor which
    keys it has. *)
Lemma source_of_normalised (s : string) (d : list (string * TVal)) :
  assoc_get "model_id" d <> None ->
  ConfigParser.source_of (setitem "model_id" (TStr s) d) = ConfigParser.source_of d.
Proof.
  intros Hid. unfold ConfigParser.source_of, ConfigParser._detect_source.
  rewrite !(assoc_get_setitem_other "model_id") by discriminate.
  rewrite assoc_get_setitem_same.
  destruct (assoc_get "model_id" d); [reflexivity | contradiction].
Qed.

Lemma validate_model_config_idem (model_name category : string) (v v' : TVal) :
  ConfigParser._validate_model_config model_name v category = Ok v' ->
  ConfigParser._validate_model_config model_name v' category = Ok v'.
Proof.
  destruct v as [u | | | | | | d]; cbn; try discriminate.
  - destruct (is_http u) eqn:Hu; cbn; [| discriminate].
    intros [= <-]. cbn. rewrite Hu. reflexivity.
  - destruct (is_str (ConfigParser.source_of d) "huggingface") eqn:Hhf.
    { destruct (ConfigParser._validate_hf_config model_name d) eqn:Hv; [| discriminate].
      intros [= <-]. cbn. rewrite Hhf, Hv. reflexivity. }
    destruct (is_str (ConfigParser.source_of d) "civitai") eqn:Hcv.
    { unfold ConfigParser._validate_civitai_config.
      destruct (assoc_get "model_id" d) as [id |] eqn:Hid; [| discriminate].
      destruct (str_of_id id) as [s |]; [| discriminate].
      intros [= <-]. cbn.
      rewrite source_of_normalised by (rewrite Hid; discriminate).
      rewrite Hhf, Hcv. unfold ConfigParser._validate_civitai_config.
      rewrite assoc_get_setitem_same. cbn. rewrite setitem_setitem. reflexivity. }
    destruct (is_str (ConfigParser.source_of d) "url") eqn:Hurl; [| discriminate].
    destruct (ConfigParser._validate_url_config model_name d) eqn:Hv; [| discriminate].
    intros [= <-]. cbn. rewrite Hhf, Hcv, Hurl, Hv. reflexivity.
Qed.

Lemma validate_models_idem (category : string) (ml ml' : list (string * TVal)) :
  ConfigParser.validate_models category ml = Ok ml' ->
  ConfigParser.validate_models category ml' = Ok ml'.
Proof.
  revert ml'. induction ml as [| [model_name v] rest IH]; intros ml'; cbn.
  - intros [= <-]. reflexivity.
  - destruct (ConfigParser._validate_model_config model_name v category) as [v' | e] eqn:Hv;
      [| discriminate].
    destruct (ConfigParser.validate_models category rest) as [rest' | e] eqn:Hrest;
      [| discriminate].
    intros [= <-]. cbn.
    rewrite (validate_model_config_idem _ _ _ _ Hv), (IH rest' eq_refl). reflexivity.
Qed.

Lemma validate_categories_idem (models models' : list (string * TVal)) :
  ConfigParser.validate_categories models = Ok models' ->
  ConfigParser.validate_categories models' = Ok models'.
Proof.
  revert models'. induction models as [| [category v] rest IH]; intros models'; cbn.
  - intros [= <-]. reflexivity.
  - destruct v as [ | | | | | | ml]; try discriminate.
    destruct (ConfigParser.validate_models category ml) as [ml' | e] eqn:Hml;
      [| discriminate].
    destruct (ConfigParser.validate_categories rest) as [rest' | e] eqn:Hrest;
      [| discriminate].
    intros [= <-]. cbn.
    rewrite (validate_models_idem _ _ _ Hml), (IH rest' eq_refl). reflexivity.
Qed.

(** X21: validating a manifest twice is the same as validating it once: a
    manifest that passed, with its [model_id] values turned into strings as
    the validation left them, passes again and is not changed again. *)
Theorem manifest_validation_is_idempotent (config config' : list (string * TVal)) :
  ConfigParser._validate_config config = Ok config' ->
  ConfigParser._validate_config config' = Ok config'.
Proof.
  unfold ConfigParser._validate_config.
  destruct (assoc_get "models" config) as [v |]; [| discriminate].
  destruct v as [ | | | | | | models]; try discriminate.
  destruct (ConfigParser.validate_categories models) as [models' | e] eqn:Hv;
    [| discriminate].
  intros [= <-]. rewrite assoc_get_setitem_same.
  rewrite (validate_categories_idem _ _ Hv), setitem_setitem. reflexivity.
Qed.

Lemma manifest_validation_is_idempotent_witness :
  exists config',
    ConfigParser._validate_config demo_manifest = Ok config' /\
    config' <> demo_manifest /\
    ConfigParser._validate_config config' = Ok config'.
Proof.
  eexists. split; [reflexivity |]. split; [discriminate |].
  apply (manifest_validation_is_idempotent demo_manifest). reflexivity.
Defined.

Lemma validate_model_config_sound (model_name category : string) (v v' : TVal) :
  ConfigParser._validate_model_config model_name v category = Ok v' ->
  entry_well_formed v'.
Proof.
  destruct v as [u | | | | | | d]; cbn; try discriminate.
  - destruct (is_http u) eqn:Hu; cbn; [| discriminate]. intros [= <-]. exact Hu.
  - destruct (is_str (ConfigParser.source_of d) "huggingface") eqn:Hhf.
    { unfold ConfigParser._validate_hf_config.
      destruct (assoc_get "repo" d) as [repo |] eqn:Hrepo; [| discriminate].
      destruct repo as [r | | | | | |]; cbn; try discriminate.
      destruct (contains "/" r) eqn:Hslash; cbn; [| discriminate].
      destruct (assoc_get "file" d) as [[] |]; try discriminate.
      all: intros [= <-]; cbn; left; (split; [exact Hhf |]);
        exists r; (split; [exact Hrepo | exact Hslash]). }
    destruct (is_str (ConfigParser.source_of d) "civitai") eqn:Hcv.
    { unfold ConfigParser._validate_civitai_config.
      destruct (assoc_get "model_id" d) as [id |] eqn:Hid; [| discriminate].
      destruct (str_of_id id) as [s |]; [| discriminate].
      intros [= <-]. cbn. right; left.
      rewrite source_of_normalised by (rewrite Hid; discriminate).
      split; [exact Hcv |]. exists s. apply assoc_get_setitem_same. }
    destruct (is_str (ConfigParser.source_of d) "url") eqn:Hurl; [| discriminate].
    unfold ConfigParser._validate_url_config.
    destruct (assoc_get "url" d) as [u |] eqn:Hu; [| discriminate].
    destruct u as [u | | | | | |]; try discriminate.
    destruct (is_http u) eqn:Hhttp; cbn; [| discriminate].
    intros [= <-]. cbn. right; right. split; [exact Hurl |].
    exists u. split; [exact Hu | exact Hhttp].
Qed.

Lemma validate_models_sound (category : string) (ml ml' : list (string * TVal)) :
  ConfigParser.validate_models category ml = Ok ml' ->
  Forall (fun item => entry_well_formed (snd item)) ml' /\ map fst ml' = map fst ml.
Proof.
  revert ml'. induction ml as [| [model_name v] rest IH]; intros ml'; cbn.
  - intros [= <-]. split; [constructor | reflexivity].
  - destruct (ConfigParser._validate_model_config model_name v category) as [v' | e] eqn:Hv;
      [| discriminate].
    destruct (ConfigParser.validate_models category rest) as [rest' | e] eqn:Hrest;
      [| discriminate].
    intros [= <-]. destruct (IH rest' eq_refl) as [Hall Hkeys]. split.
    + constructor; [exact (validate_model_config_sound _ _ _ _ Hv) | exact Hall].
    + cbn. rewrite Hkeys. reflexivity.
Qed.

Lemma validate_categories_sound (models models' : list (string * TVal)) :
  ConfigParser.validate_categories models = Ok models' ->
  models_well_formed models' /\ map fst models' = map fst models.
Proof.
  unfold models_well_formed.
  revert models'. induction models as [| [category v] rest IH]; intros models'; cbn.
  - intros [= <-]. split; [constructor | reflexivity].
  - destruct v as [ | | | | | | ml]; try discriminate.
    destruct (ConfigParser.validate_models category ml) as [ml' | e] eqn:Hml;
      [| discriminate].
    destruct (ConfigParser.validate_categories rest) as [rest' | e] eqn:Hrest;
      [| discriminate].
    intros [= <-]. destruct (IH rest' eq_refl) as [Hall Hkeys]. split.
    + constructor; [| exact Hall]. exists ml'. split; [reflexivity |].
      apply (validate_models_sound _ _ _ Hml).
    + cbn. rewrite Hkeys. reflexivity.
Qed.

(** X22: what a manifest that passed the validation holds: a [models] table
    with the categories it had, each a table, and every entry either a string
    that starts with http:// or https://, or a table whose source is the hub
    with a string [repo] that has a slash, the marketplace with a string
    [model_id], or a URL with a string [url] that starts with http:// or
    https://.  The marketplace entry is known by [model_id]: the key the
    orchestrator reads, [version_id], plays no part. *)
Theorem validated_manifest_is_well_formed (config config' : list (string * TVal)) :
  ConfigParser._validate_config config = Ok config' ->
  exists models models',
    assoc_get "models" config = Some (TTable models) /\
    assoc_get "models" config' = Some (TTable models') /\
    map fst models' = map fst models /\
    models_well_formed models'.
Proof.
  unfold ConfigParser._validate_config.
  destruct (assoc_get "models" config) as [v |]; [| discriminate].
  destruct v as [ | | | | | | models]; try discriminate.
  destruct (ConfigParser.validate_categories models) as [models' | e] eqn:Hv;
    [| discriminate].
  intros [= <-]. exists models, models'. split; [reflexivity |].
  split; [apply assoc_get_setitem_same |].
  destruct (validate_categories_sound _ _ Hv) as [Hwf Hkeys]. split; assumption.
Qed.

Lemma validated_manifest_is_well_formed_witness :
  exists models',
    (exists config', ConfigParser._validate_config demo_manifest = Ok config' /\
                     assoc_get "models" config' = Some (TTable models')) /\
    models_well_formed models'.
Proof.
  destruct (validated_manifest_is_well_formed demo_manifest
              (setitem "models"
                 (TTable [("lora",
                           TTable [("style", TTable [("model_id", TStr "12345")]);
                                   ("detail", TStr "https://example.com/detail.safetensors")])])
                 demo_manifest) eq_refl)
    as (models & models' & _ & Hget & _ & Hwf).
  exists models'. split; [| exact Hwf]. eexists. split; [reflexivity | exact Hget].
Defined.

Lemma count_loop_total (categories : list (string * TVal)) (acc : gmap string nat * nat) :
  snd (fold_left ConfigParser.count_step categories acc)
  = (snd acc + sum_counts categories)%nat.
Proof.
  revert acc. induction categories as [| item rest IH]; intros acc.
  - unfold sum_counts. cbn. lia.
  - cbn [fold_left]. rewrite IH. unfold sum_counts, ConfigParser.count_step.
    cbn [fold_right snd fst]. lia.
Qed.

Lemma count_loop_absent (categories : list (string * TVal)) (acc : gmap string nat * nat)
    (c : string) :
  c ∉ map fst categories ->
  fst (fold_left ConfigParser.count_step categories acc) !! c = fst acc !! c.
Proof.
  revert acc. induction categories as [| item rest IH]; intros acc Hc; cbn.
  - reflexivity.
  - cbn in Hc. apply not_elem_of_cons in Hc as [Hne Hrest].
    rewrite (IH _ Hrest). cbn. apply lookup_insert_ne. congruence.
Qed.

Lemma count_loop_present (categories : list (string * TVal)) (acc : gmap string nat * nat)
    (c : string) (v : TVal) :
  NoDup (map fst categories) -> In (c, v) categories ->
  fst (fold_left ConfigParser.count_step categories acc) !! c
  = Some (ConfigParser.count_of v).
Proof.
  revert acc. induction categories as [| item rest IH]; intros acc Hnd Hin; cbn.
  - destruct Hin.
  - cbn in Hnd. apply NoDup_cons in Hnd as [Hfresh Hnd]. destruct Hin as [-> | Hin].
    + rewrite count_loop_absent by exact Hfresh. cbn. apply lookup_insert_eq.
    + apply (IH _ Hnd Hin).
Qed.

(** X23: in the counts of a manifest the entry [total] is the sum of the
    counts of all categories, a category that is not a table counting 0, and
    every category with another name has its own number of entries -- so a
    category that is itself named total is reported with the overall sum and
    not with its own count. *)
Theorem model_count_total (config : list (string * TVal)) (categories : list (string * TVal)) :
  assoc_get "models" config = Some (TTable categories) ->
  NoDup (map fst categories) ->
  exists counts,
    ConfigParser.get_model_count config = Ok counts /\
    counts !! "total" = Some (sum_counts categories) /\
    (forall c v, In (c, v) categories -> c <> "total" ->
                 counts !! c = Some (ConfigParser.count_of v)) /\
    (forall c, c <> "total" -> c ∉ map fst categories -> counts !! c = None).
Proof.
  intros Hmodels Hnd. unfold ConfigParser.get_model_count. rewrite Hmodels. cbn.
  eexists. split; [reflexivity |]. split; [| split].
  - rewrite lookup_insert_eq, count_loop_total. reflexivity.
  - intros c v Hin Hne. rewrite lookup_insert_ne by congruence.
    apply count_loop_present; assumption.
  - intros c Hne Hc. rewrite lookup_insert_ne by congruence.
    rewrite count_loop_absent by exact Hc. apply lookup_empty.
Qed.

Lemma model_count_total_witness :
  let categories := [("total", TTable [("a", TStr "https://example.com/a")]);
                     ("lora", TTable [("b", TStr "https://example.com/b");
                                      ("c", TStr "https://example.com/c")])] in
  exists counts,
    ConfigParser.get_model_count [("models", TTable categories)] = Ok counts /\
    counts !! "total" = Some 3%nat /\ counts !! "lora" = Some 2%nat.
Proof.
  intros categories.
  destruct (model_count_total [("models", TTable categories)] categories eq_refl)
    as (counts & Hrun & Htotal & Hcat & _).
  - repeat constructor; cbn; intros H; repeat (apply elem_of_cons in H as [H | H];
      [discriminate H |]); apply elem_of_nil in H; exact H.
  - exists counts. split; [exact Hrun |]. split; [exact Htotal |].
    apply (Hcat "lora" (TTable [("b", TStr "https://example.com/b");
                                ("c", TStr "https://example.com/c")])).
    + right. left. reflexivity.
    + discriminate.
Defined.

(** ** The command line *)

Lemma returned_summary_has_no_failure (self : ProvisioningSystem)
    (config : ProvisionConfigPydantic) (w w' : World) (s : ProvisioningSummary) :
  _download_models_typed self config w = Some (Ok s, w') -> failed_downloads s = 0%Z.
Proof.
  intros Hrun. destruct (dry_run self) eqn:Hdry.
  - destruct (download_models_typed_dry self config w Hdry) as (w0 & Hrun0 & _).
    rewrite Hrun in Hrun0. injection Hrun0 as -> _. reflexivity.
  - destruct (constructible self config) as [| mc mcs] eqn:Hc.
    + revert Hrun. unfold _download_models_typed. unfold bind_a at 1, returns at 1.
      destruct (fold_loop (typed_category_step self) config ([], []) w)
        as [[acc | e] w1] eqn:Hloop; [| discriminate].
      apply category_loop_spec in Hloop as [_ Hsnd]. rewrite Hdry, Hc in *.
      cbn [snd app map] in Hsnd. rewrite Hsnd.
      unfold returns, bind, log_warning, emit, ret. intros [= <- <-]. reflexivity.
    + exfalso. eapply (typed_path_returns_no_summary self config w w' s Hdry);
        [rewrite Hc; discriminate | exact Hrun].
Qed.

Lemma provision_from_url_no_failure (rt : Runtime) (self : ProvisioningSystem)
    (config_url : string) (w w' : World) (s : ProvisioningSummary) :
  provision_from_url rt self config_url w = Some (Ok s, w') -> failed_downloads s = 0%Z.
Proof.
  unfold provision_from_url, try_except_a. unfold bind_a at 1, returns at 1.
  destruct (fetch_and_parse rt (recursion_limit rt) config_url w) as [[cfg | e] w1].
  2: { unfold bind, log_error, emit, raise. discriminate. }
  unfold bind_a at 1, returns at 1. unfold lift.
  destruct (pydantic_validate rt cfg) as [config | e].
  2: { unfold bind, log_error, emit, raise. discriminate. }
  unfold bind_a at 1, returns at 1. destruct (validate_tokens_total self cfg w1) as (w2 & ->).
  unfold bind_a at 1.
  destruct (_download_models_typed self config w2) as [[[summary | e] w3] |] eqn:Hrun.
  3: discriminate.
  2: { unfold bind, log_error, emit, raise. discriminate. }
  apply returned_summary_has_no_failure in Hrun. rewrite Hrun. cbn [Z.eqb].
  unfold returns, bind, ret. intros [= <- <-]. exact Hrun.
Qed.

Ltac comes_back :=
  unfold returns;
  match goal with
  | |- exists r w', Some ?m = Some (r, w') => destruct m as [? ?]; eexists _, _; reflexivity
  end.

(** With a slot in the semaphore the download phase comes back, with a
    summary or with an exception. *)
Lemma download_models_typed_returns (self : ProvisioningSystem)
    (config : ProvisionConfigPydantic) (w : World) :
  (0 < max_concurrent self)%nat ->
  exists r w', _download_models_typed self config w = Some (r, w').
Proof.
  intros Hslot. unfold _download_models_typed. unfold bind_a at 1, returns at 1.
  destruct (fold_loop (typed_category_step self) config ([], []) w) as [[acc | e] w1];
    [| eauto].
  destruct (dry_run self); [comes_back |].
  destruct (snd acc) as [| t ts]; [comes_back |].
  unfold bind_a at 1.
  destruct (execute_concurrent_downloads_run self (t :: ts) w1 Hslot)
    as (raw & w2 & _ & -> & _).
  comes_back.
Qed.

Lemma try_except_a_returns {A : Type} (body : Awaitable A) (handler : exn -> M A)
    (w : World) :
  (exists r w', body w = Some (r, w')) ->
  exists r w', try_except_a body handler w = Some (r, w').
Proof.
  intros (r & w' & Hrun). unfold try_except_a. rewrite Hrun.
  destruct r as [a | e]; [eauto |]. destruct (handler e w'). eauto.
Qed.

Lemma provision_from_url_returns (rt : Runtime) (self : ProvisioningSystem)
    (config_url : string) (w : World) :
  (0 < max_concurrent self)%nat ->
  exists r w', provision_from_url rt self config_url w = Some (r, w').
Proof.
  intros Hslot. unfold provision_from_url. apply try_except_a_returns.
  unfold bind_a at 1, returns at 1.
  destruct (fetch_and_parse rt (recursion_limit rt) config_url w) as [[config_dict | e] w1];
    [| eauto].
  unfold bind_a at 1, returns at 1, lift at 1.
  destruct (pydantic_validate rt config_dict) as [config | e]; [| eauto].
  unfold bind_a at 1, returns at 1.
  destruct (_validate_tokens self config_dict w1) as [[[] | e] w2]; [| eauto].
  unfold bind_a at 1.
  destruct (download_models_typed_returns self config w2 Hslot) as ([summary | e] & w3 & ->);
    [| eauto].
  comes_back.
Qed.

(** The constructor keeps the limit it is given. *)
Lemma init_max_concurrent (rt : Runtime) (environ : gmap string string) (available : bool)
    (workspace : option string) (limit : nat) (w w0 : World) (created : ProvisioningSystem) :
  ProvisioningSystem_init rt environ available workspace limit w = (Ok created, w0) ->
  max_concurrent created = limit.
Proof.
  unfold ProvisioningSystem_init. unfold bind at 1.
  destruct (mkdir _ w) as [[[] | e] w1]; [| discriminate].
  unfold bind at 1. destruct (mkdir _ w1) as [[[] | e] w2]; [| discriminate].
  unfold bind at 1.
  destruct (HuggingFaceDownloader_new rt environ available w2) as [[hf | e] w3];
    [| discriminate].
  unfold bind at 1. destruct (CivitAIDownloader_new environ w3) as [[[] | e] w4];
    [| discriminate].
  unfold bind at 1. destruct (setup_logging rt _ w4) as [[[] | e] w5]; [| discriminate].
  unfold ret. intros [= <- _]. reflexivity.
Qed.

(** X24: once the constructor has returned, [main] always ends with exit
    status 0 or 1.  For a manifest given as a URL the status is 0 exactly
    when [provision_from_url] returns a summary -- a summary it returns never
    counts a failure -- and 1 exactly when it raises; for a manifest given as
    a path the status is 0 exactly when [provision_from_file] returns True. *)
Theorem exit_status_contract (rt : Runtime) (environ : gmap string string)
    (available : bool) (args : Args) (w w0 : World) (created : ProvisioningSystem) :
  ProvisioningSystem_init rt environ available (args_workspace args) 5 w
    = (Ok created, w0) ->
  exists code w',
    main rt environ available args w = Some (Ok code, w') /\
    (code = 0 \/ code = 1)%Z /\
    (code = 0%Z <->
     if is_http (args_config args)
     then exists s, option_map fst (provision_from_url rt (provisioner_of args created)
                                      (args_config args) w0) = Some (Ok s)
     else fst (provision_from_file rt (provisioner_of args created)
                 (args_config args) w0) = Ok true).
Proof.
  intros Hinit. pose proof (init_max_concurrent _ _ _ _ _ _ _ _ Hinit) as Hlimit.
  assert (Hslot : (0 < max_concurrent (provisioner_of args created))%nat).
  { unfold provisioner_of. destruct (args_dry_run args); cbn; lia. }
  unfold main. unfold bind_a at 1, returns at 1. rewrite Hinit.
  unfold try_except_a. unfold bind_a at 1.
  destruct (is_http (args_config args)).
  - unfold bind_a at 1.
    destruct (provision_from_url_returns rt (provisioner_of args created)
                (args_config args) w0 Hslot) as ([s | e] & w1 & Hrun); rewrite Hrun.
    + rewrite (provision_from_url_no_failure _ _ _ _ _ _ Hrun). unfold returns, ret. cbn.
      eexists _, _. split; [reflexivity |]. split; [left; reflexivity |].
      split; [intros _; eexists; reflexivity | reflexivity].
    + unfold ret. cbn. eexists _, _. split; [reflexivity |]. split; [right; reflexivity |].
      split; [discriminate | intros [s Hs]; discriminate Hs].
  - unfold returns at 1.
    destruct (provision_from_file rt (provisioner_of args created) (args_config args) w0)
      as [[[] | e] w1] eqn:Hrun; unfold returns, ret; cbn;
      eexists _, _; (split; [reflexivity |]).
    + split; [left; reflexivity |]. split; reflexivity.
    + split; [right; reflexivity |]. split; discriminate.
    + split; [right; reflexivity |]. split; discriminate.
Qed.

Lemma exit_status_contract_witness :
  exists w',
    main (demo_runtime [] []) ∅ true (mkArgs "/workspace/missing.toml" false None)
      empty_world = Some (Ok 1%Z, w').
Proof.
  destruct (ProvisioningSystem_init (demo_runtime [] []) ∅ true None 5 empty_world)
    as [[created | e] w0] eqn:Hinit;
    [| vm_compute in Hinit; discriminate Hinit].
  destruct (exit_status_contract (demo_runtime [] []) ∅ true
              (mkArgs "/workspace/missing.toml" false None) empty_world w0 created Hinit)
    as (code & w' & Hrun & [-> | ->] & Hiff).
  - exfalso. destruct Hiff as [H _]. specialize (H eq_refl).
    vm_compute in Hinit. injection Hinit as <- <-. vm_compute in H. discriminate H.
  - exists w'. exact Hrun.
Defined.

(** ** The progress tracker *)

Lemma div_nonzero (a b : Q) : ~ b == 0 -> Progress.div a b = Progress.Value (a / b)%Q.
Proof.
  intros Hb. unfold Progress.div. destruct (Qeq_bool b 0) eqn:E; [| reflexivity].
  apply Qeq_bool_iff in E. contradiction.
Qed.

Lemma div_mega (a : Q) :
  Progress.div a (inject_Z (1024 * 1024)) = Progress.Value (a / inject_Z (1024 * 1024))%Q.
Proof.
  reflexivity.
Qed.

Lemma count_split (p q : Progress.Download -> bool) (ds : list Progress.Download) :
  (forall d, p d = true -> q d = true -> False) ->
  Progress.count (fun d => p d || q d) ds = (Progress.count p ds + Progress.count q ds)%Z.
Proof.
  intros Hdisj. unfold Progress.count. induction ds as [| d ds IH]; [reflexivity |].
  rewrite !filter_cons. specialize (Hdisj d).
  destruct (p d) eqn:Hp, (q d) eqn:Hq; cbn [orb];
    repeat case_decide; try congruence; try (exfalso; auto; fail);
    cbn [length]; lia.
Qed.

Lemma count_le (p : Progress.Download -> bool) (ds : list Progress.Download) :
  (0 <= Progress.count p ds <= Z.of_nat (length ds))%Z.
Proof.
  unfold Progress.count. pose proof (filter_length_le p ds). lia.
Qed.

(** X25: the overall progress of a tracker is always defined -- no state of
    the tracker and no reading of the clock makes it divide by zero -- and its
    counts are consistent: the total is the number of downloads tracked, the
    completed ones are the succeeded and the failed ones together, and the
    active ones are the rest, never fewer than none. *)
Theorem overall_progress_is_consistent (self : Progress.ProgressTracker) (now : Q) :
  exists o,
    Progress.get_overall_progress self now = Progress.Value o /\
    Progress.total o = Z.of_nat (size (Progress.downloads self)) /\
    Progress.completed o = (Progress.succeeded o + Progress.failed o)%Z /\
    Progress.active o = (Progress.total o - Progress.completed o)%Z /\
    (0 <= Progress.active o <= Progress.total o)%Z.
Proof.
  unfold Progress.get_overall_progress.
  set (ds := Progress.values self).
  set (size_ := Progress.sum_Z _).
  set (done_ := Progress.sum_Z _).
  assert (Hpct : exists pct,
             (if (0 <? size_)%Z
              then match Progress.div (inject_Z (done_ * 100)) (inject_Z size_) with
                   | Progress.Value q => Progress.Value (Progress.int q)
                   | Progress.ZeroDivisionError => Progress.ZeroDivisionError
                   end
              else if (0 <? Z.of_nat (length ds))%Z
                   then match Progress.div
                                (inject_Z (Progress.count
                                             (fun d => String.eqb (Progress.status d) "completed"
                                                       || String.eqb (Progress.status d) "failed")
                                             ds * 100))
                                (inject_Z (Z.of_nat (length ds))) with
                        | Progress.Value q => Progress.Value (Progress.int q)
                        | Progress.ZeroDivisionError => Progress.ZeroDivisionError
                        end
                   else Progress.Value 0%Z) = Progress.Value pct).
  { destruct (Z.ltb_spec 0 size_) as [Hs | Hs].
    - rewrite div_nonzero by (apply inject_Z_nonzero; lia). eauto.
    - destruct (Z.ltb_spec 0 (Z.of_nat (length ds))) as [Hn | Hn]; [| eauto].
      rewrite div_nonzero by (apply inject_Z_nonzero; lia). eauto. }
  destruct Hpct as [pct ->].
  assert (Hmb : exists mb,
             (if (0 <? size_)%Z then Progress.div (inject_Z size_) (inject_Z (1024 * 1024))
              else Progress.Value 0%Q) = Progress.Value mb).
  { destruct (0 <? size_)%Z; [rewrite div_mega |]; eauto. }
  destruct Hmb as [mb ->]. rewrite div_mega.
  eexists. split; [reflexivity |]. cbn.
  split.
  { unfold ds, Progress.values. rewrite length_map, length_map_to_list. reflexivity. }
  split.
  { apply count_split. intros d H1 H2.
    apply String.eqb_eq in H1, H2. rewrite H1 in H2. discriminate H2. }
  split; [reflexivity |].
  pose proof (count_le (fun d => String.eqb (Progress.status d) "completed"
                                 || String.eqb (Progress.status d) "failed") ds).
  lia.
Qed.

(** X26: no query about a single download divides by zero either: the
    percentage, the speed and the estimated time are defined for every state
    of the tracker, every name and every reading of the clock, and they are
    [None] for a name that is not tracked. *)
Theorem download_queries_are_defined (self : Progress.ProgressTracker)
    (model_name : string) (now : Q) :
  (exists pct, Progress.get_progress_percentage self model_name = Progress.Value pct /\
               (Progress.get_progress self model_name = None -> pct = None)) /\
  (exists speed, Progress.get_download_speed self model_name now = Progress.Value speed /\
                 (Progress.get_progress self model_name = None -> speed = None)) /\
  (exists eta, Progress.get_eta self model_name now = Progress.Value eta /\
               (Progress.get_progress self model_name = None -> eta = None)).
Proof.
  unfold Progress.get_progress_percentage, Progress.get_eta, Progress.get_download_speed,
    Progress.get_progress.
  destruct (Progress.downloads self !! model_name) as [d |].
  2: { repeat split; eexists; (split; [reflexivity |]); repeat split; try reflexivity;
       discriminate. }
  assert (Hspeed : exists speed,
             (if Qle_bool (now - Progress.start_time d)%Q 0 then Progress.Value None
              else
                match Progress.div (inject_Z (Progress.downloaded d))
                        (inject_Z (1024 * 1024)) with
                | Progress.ZeroDivisionError => Progress.ZeroDivisionError
                | Progress.Value mb_downloaded =>
                    match Progress.div mb_downloaded (now - Progress.start_time d)%Q with
                    | Progress.ZeroDivisionError => Progress.ZeroDivisionError
                    | Progress.Value speed => Progress.Value (Some speed)
                    end
                end) = Progress.Value speed).
  { destruct (Qle_bool (now - Progress.start_time d)%Q 0) eqn:He; [eauto |].
    rewrite div_mega. rewrite div_nonzero; [eauto |].
    intros Hz. rewrite Hz in He. discriminate He. }
  destruct Hspeed as [speed Hspeed]. split; [| split].
  - destruct (Progress.known_size d) as [n |] eqn:Hn.
    + rewrite div_nonzero.
      * eexists. split; [reflexivity | discriminate].
      * apply inject_Z_nonzero. unfold Progress.known_size in Hn.
        destruct (Progress.total_size d) as [m |]; [| discriminate].
        destruct (Z.eqb_spec m 0); [discriminate |]. injection Hn as <-. assumption.
    + eexists. split; [reflexivity | discriminate].
  - exists speed. split; [exact Hspeed | discriminate].
  - destruct (Progress.known_size d) as [n |].
    2: { eexists. split; [reflexivity | discriminate]. }
    rewrite Hspeed. destruct speed as [v |].
    2: { eexists. split; [reflexivity | discriminate]. }
    destruct (Qeq_bool v 0) eqn:Hv; cbn [orb].
    { eexists. split; [reflexivity | discriminate]. }
    destruct (Qle_bool v 0); [eexists; split; [reflexivity | discriminate] |].
    rewrite div_mega. rewrite div_nonzero.
    + eexists. split; [reflexivity | discriminate].
    + intros Hz. apply Qeq_bool_iff in Hz. congruence.
Qed.

(** X27: the life of one download.  Started, updated and completed, it is
    tracked under its name with the size it was started with, the count of the
    last update and the time it ended, and it is no longer active; the tracker
    tracks that name besides those it tracked before, and what it holds for
    every other name is what it held. *)
Theorem download_lifecycle (self : Progress.ProgressTracker) (model_name : string)
    (size_ : option Z) (bytes : Z) (success : bool) (t0 t1 t2 t3 : Q) :
  let tracker :=
    Progress.complete_download
      (Progress.update_progress
         (Progress.start_download self model_name size_ t0 t1) model_name bytes t2)
      model_name success t3 in
  (exists d, Progress.get_progress tracker model_name = Some d /\
             is_active d = false /\
             Progress.status d = (if success then "completed" else "failed") /\
             Progress.total_size d = size_ /\ Progress.downloaded d = bytes /\
             Progress.start_time d = t0 /\ Progress.last_update d = t2 /\
             Progress.end_time d = Some t3) /\
  dom (Progress.downloads tracker) = {[model_name]} ∪ dom (Progress.downloads self) /\
  (forall other, other <> model_name ->
                 Progress.get_progress tracker other = Progress.get_progress self other).
Proof.
  unfold Progress.complete_download, Progress.update_progress, Progress.start_download,
    Progress.get_progress.
  cbn [Progress.downloads Progress.tracker_start_time].
  rewrite lookup_insert_eq. cbn [Progress.downloads Progress.tracker_start_time].
  rewrite lookup_insert_eq. cbn [Progress.downloads Progress.tracker_start_time].
  rewrite !insert_insert_eq. split; [| split].
  - rewrite lookup_insert_eq. eexists. split; [reflexivity |].
    destruct success; repeat split; reflexivity.
  - apply dom_insert_L.
  - intros other Hother. apply lookup_insert_ne. congruence.
Qed.

(** ** URL processing *)

Lemma take_id_is_file_id (s : string) : is_file_id (URLProcessor.take_id s) = true.
Proof.
  induction s as [| c s IH]; [reflexivity |]. cbn [URLProcessor.take_id].
  destruct (URLProcessor.is_id_char c) eqn:Hc; [| reflexivity].
  unfold is_file_id. cbn [list_ascii_of_string forallb]. rewrite Hc. exact IH.
Qed.

Lemma match_at_is_file_id (lit s file_id : string) :
  URLProcessor.match_at lit s = Some file_id -> is_file_id file_id = true.
Proof.
  unfold URLProcessor.match_at. destruct (URLProcessor.strip_prefix lit s) as [rest |];
    [| discriminate].
  pose proof (take_id_is_file_id rest) as Hid.
  destruct (URLProcessor.take_id rest); [discriminate |].
  intros [= <-]. exact Hid.
Qed.

Lemma search_id_is_file_id (lit s file_id : string) :
  URLProcessor.search_id lit s = Some file_id -> is_file_id file_id = true.
Proof.
  induction s as [| c s IH]; cbn [URLProcessor.search_id];
    destruct (URLProcessor.match_at lit _) as [m |] eqn:Hm.
  - intros [= <-]. eapply match_at_is_file_id, Hm.
  - discriminate.
  - intros [= <-]. eapply match_at_is_file_id, Hm.
  - exact IH.
Qed.

(** A string that starts with a literal has the characters of the literal. *)
Lemma strip_prefix_file_id (lit s rest : string) :
  URLProcessor.strip_prefix lit s = Some rest -> is_file_id s = true ->
  is_file_id lit = true.
Proof.
  revert s. induction lit as [| a lit IH]; intros s; [reflexivity |].
  destruct s as [| b s]; cbn [URLProcessor.strip_prefix]; [discriminate |].
  destruct (Ascii.eqb_spec a b) as [-> |]; [| discriminate].
  intros Hs. unfold is_file_id. cbn [list_ascii_of_string forallb].
  intros [Hb Hrest]%andb_true_iff. rewrite Hb. exact (IH s Hs Hrest).
Qed.

(** No pattern with a character outside the class is found in a file id. *)
Lemma search_id_in_file_id (lit s : string) :
  is_file_id lit = false -> is_file_id s = true -> URLProcessor.search_id lit s = None.
Proof.
  intros Hlit. induction s as [| c s IH]; intros Hs.
  - cbn [URLProcessor.search_id]. unfold URLProcessor.match_at.
    destruct (URLProcessor.strip_prefix lit EmptyString) as [rest |] eqn:Hp; [| reflexivity].
    rewrite (strip_prefix_file_id _ _ _ Hp Hs) in Hlit. discriminate Hlit.
  - cbn [URLProcessor.search_id]. unfold URLProcessor.match_at.
    destruct (URLProcessor.strip_prefix lit (String c s)) as [rest |] eqn:Hp.
    + rewrite (strip_prefix_file_id _ _ _ Hp Hs) in Hlit. discriminate Hlit.
    + apply IH. unfold is_file_id in Hs. cbn [list_ascii_of_string forallb] in Hs.
      apply andb_true_iff in Hs. apply Hs.
Qed.

(** The search of a pattern in a direct URL goes on in its file id. *)
Lemma search_id_direct_url (lit file_id : string) :
  In lit URLProcessor.google_drive_patterns ->
  URLProcessor.search_id lit (URLProcessor.direct_url file_id) =
  URLProcessor.search_id lit file_id.
Proof.
  intros [<- | [<- | [<- | []]]]; reflexivity.
Qed.

Lemma first_match_direct_url (file_id : string) :
  is_file_id file_id = true ->
  URLProcessor.first_match URLProcessor.google_drive_patterns
    (URLProcessor.direct_url file_id) = None.
Proof.
  intros Hid. unfold URLProcessor.google_drive_patterns.
  cbn [URLProcessor.first_match].
  rewrite !search_id_direct_url by (cbn; auto).
  rewrite !search_id_in_file_id by (reflexivity || exact Hid). reflexivity.
Qed.

Lemma first_match_shape (patterns : list string) (url direct : string) :
  URLProcessor.first_match patterns url = Some direct ->
  exists lit file_id, In lit patterns /\ URLProcessor.search_id lit url = Some file_id /\
                      is_file_id file_id = true /\ file_id <> EmptyString /\
                      direct = URLProcessor.direct_url file_id.
Proof.
  induction patterns as [| p rest IH]; cbn [URLProcessor.first_match]; [discriminate |].
  destruct (URLProcessor.search_id p url) as [file_id |] eqn:Hs.
  - intros [= <-]. exists p, file_id. split; [left; reflexivity |].
    split; [exact Hs |]. split; [eapply search_id_is_file_id, Hs |].
    split; [| reflexivity].
    clear -Hs. induction url as [| c url IH]; cbn [URLProcessor.search_id] in Hs;
      unfold URLProcessor.match_at in Hs;
      destruct (URLProcessor.strip_prefix p _) as [r |];
      try destruct (URLProcessor.take_id r); try discriminate; try congruence; auto.
  - intros H. destruct (IH H) as (lit & file_id & Hin & rest'). exists lit, file_id.
    split; [right; exact Hin | exact rest'].
Qed.

Lemma process_url_cases (url : string) :
  URLProcessor.process_url url = url \/
  exists file_id, is_file_id file_id = true /\ file_id <> EmptyString /\
                  URLProcessor.process_url url = URLProcessor.direct_url file_id.
Proof.
  unfold URLProcessor.process_url.
  destruct (URLProcessor.first_match _ url) as [direct |] eqn:Hm.
  - right. destruct (first_match_shape _ _ _ Hm) as (lit & file_id & _ & _ & Hid & Hne & ->).
    exists file_id. auto.
  - left. destruct (_ && _); reflexivity.
Qed.

Lemma process_url_direct (file_id : string) :
  is_file_id file_id = true ->
  URLProcessor.process_url (URLProcessor.direct_url file_id) =
  URLProcessor.direct_url file_id.
Proof.
  intros Hid. unfold URLProcessor.process_url. rewrite (first_match_direct_url _ Hid).
  destruct (_ && _); reflexivity.
Qed.

(** X28: [process_url] is idempotent: the direct link it builds from a Drive
    URL holds none of the three patterns again, since a file id has neither a
    dot nor a slash, and every other URL is returned as it is. *)
Theorem process_url_is_idempotent (url : string) :
  URLProcessor.process_url (URLProcessor.process_url url) = URLProcessor.process_url url.
Proof.
  destruct (process_url_cases url) as [Hsame | (file_id & Hid & _ & ->)].
  - rewrite Hsame. exact Hsame.
  - apply process_url_direct, Hid.
Qed.

Lemma strip_prefix_contains (lit s rest : string) :
  URLProcessor.strip_prefix lit s = Some rest -> String.prefix lit s = true.
Proof.
  revert s. induction lit as [| a lit IH]; intros s.
  - destruct s; reflexivity.
  - destruct s as [| b s]; cbn [URLProcessor.strip_prefix]; [discriminate |].
    destruct (Ascii.eqb_spec a b) as [-> |]; [| discriminate].
    intros H. cbn [String.prefix]. destruct (ascii_dec b b); [| congruence].
    exact (IH s H).
Qed.

Lemma search_id_contains (lit s file_id : string) :
  URLProcessor.search_id lit s = Some file_id -> contains lit s = true.
Proof.
  induction s as [| c s IH]; cbn [URLProcessor.search_id contains];
    unfold URLProcessor.match_at;
    destruct (URLProcessor.strip_prefix lit _) as [rest |] eqn:Hp.
  - rewrite (strip_prefix_contains _ _ _ Hp). reflexivity.
  - discriminate.
  - rewrite (strip_prefix_contains _ _ _ Hp). reflexivity.
  - intros H. rewrite (IH H). apply orb_true_r.
Qed.

(** A string that holds a literal holds the start of the literal. *)
Lemma prefix_app_l (a b s : string) :
  String.prefix (a ++ b) s = true -> String.prefix a s = true.
Proof.
  revert s. induction a as [| x a IH]; intros s.
  - destruct s; reflexivity.
  - destruct s as [| y s]; [intros H; exact H |].
    change (String x a ++ b) with (String x (a ++ b)). cbn [String.prefix].
    destruct (ascii_dec x y); [apply IH | intros H; exact H].
Qed.

Lemma contains_app_l (a b s : string) :
  contains (a ++ b) s = true -> contains a s = true.
Proof.
  induction s as [| c s IH]; cbn [contains]; intros [H | H]%orb_true_iff.
  - rewrite (prefix_app_l _ _ _ H). reflexivity.
  - discriminate H.
  - rewrite (prefix_app_l _ _ _ H). reflexivity.
  - rewrite (IH H). apply orb_true_r.
Qed.

Lemma pattern_is_drive (lit url file_id : string) :
  In lit URLProcessor.google_drive_patterns ->
  URLProcessor.search_id lit url = Some file_id ->
  URLProcessor.is_google_drive_url url = true.
Proof.
  unfold URLProcessor.is_google_drive_url. cbn [existsb].
  intros [<- | [<- | [<- | []]]] Hs; apply search_id_contains in Hs.
  - rewrite (contains_app_l "drive.google.com" "/file/d/" url Hs). reflexivity.
  - rewrite (contains_app_l "drive.google.com" "/uc?id=" url Hs). reflexivity.
  - rewrite (contains_app_l "docs.google.com" "/uc?id=" url Hs). apply orb_true_iff.
    right. reflexivity.
Qed.

(** X29: a URL that names neither [drive.google.com] nor [docs.google.com] is
    returned by [process_url] as it is. *)
Theorem other_urls_are_not_converted (url : string) :
  URLProcessor.is_google_drive_url url = false ->
  URLProcessor.process_url url = url.
Proof.
  intros Hno. unfold URLProcessor.process_url.
  destruct (URLProcessor.first_match _ url) as [direct |] eqn:Hm.
  - destruct (first_match_shape _ _ _ Hm) as (lit & file_id & Hin & Hs & _).
    rewrite (pattern_is_drive _ _ _ Hin Hs) in Hno. discriminate Hno.
  - destruct (_ && _); reflexivity.
Qed.

Lemma other_urls_are_not_converted_witness :
  URLProcessor.is_google_drive_url "https://example.com/models/m.bin" = false /\
  URLProcessor.process_url "https://example.com/models/m.bin" =
  "https://example.com/models/m.bin".
Proof.
  split; [vm_compute; reflexivity |].
  apply (other_urls_are_not_converted "https://example.com/models/m.bin").
  vm_compute. reflexivity.
Defined.

Lemma direct_url_info (file_id : string) :
  URLProcessor.get_url_info (URLProcessor.direct_url file_id) =
  [("type", TStr "google_drive"); ("url", TStr (URLProcessor.direct_url file_id));
   ("needs_processing", TStr "False")].
Proof.
  destruct file_id; reflexivity.
Qed.

(** X30: a URL that [process_url] changes becomes the direct link of a file
    id, which is not empty and made of the characters of the class; the link
    is a Drive URL for [get_url_info], and one that needs no processing. *)
Theorem converted_url_is_a_direct_link (url : string) :
  URLProcessor.process_url url <> url ->
  exists file_id,
    URLProcessor.process_url url = URLProcessor.direct_url file_id /\
    file_id <> EmptyString /\ is_file_id file_id = true /\
    URLProcessor.is_google_drive_url url = true /\
    URLProcessor.get_url_info (URLProcessor.process_url url) =
    [("type", TStr "google_drive"); ("url", TStr (URLProcessor.process_url url));
     ("needs_processing", TStr "False")].
Proof.
  intros Hchanged.
  destruct (process_url_cases url) as [Hsame | (file_id & Hid & Hne & Heq)];
    [contradiction |].
  exists file_id. split; [exact Heq |]. split; [exact Hne |]. split; [exact Hid |].
  split.
  - destruct (URLProcessor.is_google_drive_url url) eqn:Hd; [reflexivity |].
    elim Hchanged. unfold URLProcessor.process_url.
    destruct (URLProcessor.first_match _ url) as [direct |] eqn:Hm.
    + destruct (first_match_shape _ _ _ Hm) as (lit & fid & Hin & Hs & _).
      rewrite (pattern_is_drive _ _ _ Hin Hs) in Hd. discriminate Hd.
    + destruct (_ && _); reflexivity.
  - rewrite Heq. apply direct_url_info.
Qed.

Lemma converted_url_is_a_direct_link_witness :
  URLProcessor.process_url "https://drive.google.com/file/d/1aB_c-9/view?usp=sharing" =
  URLProcessor.direct_url "1aB_c-9" /\
  exists file_id,
    URLProcessor.process_url "https://drive.google.com/file/d/1aB_c-9/view?usp=sharing" =
    URLProcessor.direct_url file_id /\
    file_id <> EmptyString /\ is_file_id file_id = true /\
    URLProcessor.is_google_drive_url
      "https://drive.google.com/file/d/1aB_c-9/view?usp=sharing" = true /\
    URLProcessor.get_url_info
      (URLProcessor.process_url "https://drive.google.com/file/d/1aB_c-9/view?usp=sharing") =
    [("type", TStr "google_drive");
     ("url", TStr (URLProcessor.process_url
                     "https://drive.google.com/file/d/1aB_c-9/view?usp=sharing"));
     ("needs_processing", TStr "False")].
Proof.
  split; [vm_compute; reflexivity |].
  apply (converted_url_is_a_direct_link
           "https://drive.google.com/file/d/1aB_c-9/view?usp=sharing").
  vm_compute. intros H. discriminate H.
Defined.
